(** * Bluetooth chat: the device session and conversation-thread manager

    A shallow embedding of the page component [BluetoothChatApp]
    (React state, event handlers, timers and the two effects that load
    and save the message log), followed by the properties of the
    specification that concern it.

    Strings are JavaScript strings: sequences of UTF-16 code units.
    The calls into the platform ([Math.random], [new Date()],
    [navigator.bluetooth.requestDevice]) are inputs of the handler that
    makes them.  Numbers are IEEE 754 binary64 numbers: the arithmetic
    of the program, on a [Math.random()] draw, is that of the Standard
    Library's [SpecFloat] at 53 bits of precision, each operation
    rounded to the nearest number, ties to even. *)

From Stdlib Require Import String Ascii DecimalString.
From Stdlib Require Import List ZArith NArith QArith Qround Lia Bool.
From Stdlib Require Import SpecFloat.
Import ListNotations.

Local Open Scope list_scope.
Local Open Scope N_scope.

(** ** JavaScript strings *)

Definition jsstring := list N.

(** A source literal (all literals of the program are ASCII). *)
Definition js (s : string) : jsstring :=
  map N_of_ascii (list_ascii_of_string s).
Arguments js s%_string.

Fixpoint jsstring_eqb (a b : jsstring) : bool :=
  match a, b with
  | [], [] => true
  | x :: a', y :: b' => (x =? y) && jsstring_eqb a' b'
  | _, _ => false
  end.

(** [s] used as a condition: the empty string is the only falsy one. *)
Definition truthy (s : jsstring) : bool :=
  match s with [] => false | _ :: _ => true end.

(** WhiteSpace and LineTerminator code points, as stripped by
    [String.prototype.trim]. *)
Definition isWhiteSpace (c : N) : bool :=
  existsb (N.eqb c)
    [9; 10; 11; 12; 13; 32; 160; 5760; 8232; 8233; 8239; 8287; 12288; 65279]
  || ((8192 <=? c) && (c <=? 8202)).

Fixpoint trimStart (s : jsstring) : jsstring :=
  match s with
  | [] => []
  | c :: t => if isWhiteSpace c then trimStart t else s
  end.

Definition trimEnd (s : jsstring) : jsstring := rev (trimStart (rev s)).

Definition trim (s : jsstring) : jsstring := trimEnd (trimStart s).

(** [String(n)] for a non-negative integer such as [devices.length]. *)
Definition natToString (n : nat) : jsstring :=
  js (NilZero.string_of_uint (Nat.to_uint n)).

(** The last [w] decimal digits of [n], zero padded. *)
Fixpoint fixedDigits (w : nat) (n : Z) : jsstring :=
  match w with
  | O => []
  | S w' => fixedDigits w' (n / 10)%Z ++ [Z.to_N (48 + n mod 10)%Z]
  end.

(** ** Numbers *)

(** A JavaScript Number is an IEEE 754 binary64 number.  [spec_float]
    and the operations [SFmul], [SFadd] and [SFdiv] are the Standard
    Library's specification of such numbers, the one its primitive
    floats are specified against, here at 53 bits of precision and
    maximal exponent 1024; every operation rounds the exact result to
    the nearest number, ties to even. *)

Module Number.

Definition t := spec_float.

Definition mul : t -> t -> t := SFmul 53 1024.
Definition add : t -> t -> t := SFadd 53 1024.
Definition div : t -> t -> t := SFdiv 53 1024.

(** An integer literal, or an integer such as [responses.length]. *)
Definition ofZ (z : Z) : t := binary_normalize 53 1024 z 0 false.

(** The rational a finite number stands for (0 for the others). *)
Definition toQ (x : t) : Q :=
  match x with
  | S754_finite s m e =>
      match e with
      | Zneg p => (cond_Zopp s (Zpos m) # (2 ^ p)%positive)%Q
      | _ => inject_Z (cond_Zopp s (Zpos m) * 2 ^ e)%Z
      end
  | _ => 0%Q
  end.

(** [Math.floor], as the integer it returns; [None] for [NaN] and the
    infinities, which it returns unchanged. *)
Definition floor (x : t) : option Z :=
  match x with
  | S754_nan | S754_infinity _ => None
  | _ => Some (Qfloor (toQ x))
  end.

(** The conversion to a Web IDL [long], which [setTimeout] applies to
    its delay: [NaN] and the infinities give 0, a finite number is cut
    to its integer part and wrapped to 32 bits. *)
Definition toLong (x : t) : Z :=
  match x with
  | S754_nan | S754_infinity _ => 0%Z
  | _ =>
      let q := toQ x in
      let n := if Qle_bool 0 q then Qfloor q else Qceiling q in
      ((n + 2 ^ 31) mod 2 ^ 32 - 2 ^ 31)%Z
  end.

End Number.

(** ** Date: the time value and its ISO rendering *)

Module Date.

Definition msPerDay : Z := 86400000.

(** Civil date (year, month, day) of a day number counted from
    1970-01-01, proleptic Gregorian calendar. *)
Definition civil (day : Z) : Z * Z * Z :=
  (let z := day + 719468 in
   let era := z / 146097 in
   let doe := z - era * 146097 in
   let yoe := (doe - doe / 1460 + doe / 36524 - doe / 146096) / 365 in
   let doy := doe - (365 * yoe + yoe / 4 - yoe / 100) in
   let mp := (5 * doy + 2) / 153 in
   let d := doy - (153 * mp + 2) / 5 + 1 in
   let m := if mp <? 10 then mp + 3 else mp - 9 in
   let y := yoe + era * 400 + (if m <=? 2 then 1 else 0) in
   (y, m, d))%Z.

Definition yearString (y : Z) : jsstring :=
  if ((0 <=? y) && (y <=? 9999))%Z then fixedDigits 4 y
  else (if (y <? 0)%Z then js "-" else js "+") ++ fixedDigits 6 (Z.abs y).

(** [Date.prototype.toISOString] of the time value [t] (milliseconds
    since the epoch): YYYY-MM-DDTHH:mm:ss.sssZ. *)
Definition toISOString (t : Z) : jsstring :=
  let '(y, m, d) := civil (t / msPerDay)%Z in
  let r := (t mod msPerDay)%Z in
  yearString y ++ js "-" ++ fixedDigits 2 m ++ js "-" ++ fixedDigits 2 d
    ++ js "T" ++ fixedDigits 2 (r / 3600000)%Z
    ++ js ":" ++ fixedDigits 2 ((r / 60000) mod 60)%Z
    ++ js ":" ++ fixedDigits 2 ((r / 1000) mod 60)%Z
    ++ js "." ++ fixedDigits 3 (r mod 1000)%Z ++ js "Z".

End Date.

(** ** JSON text *)

Module JSON.

(** A parsed JSON value.  A number keeps its lexeme: the message log
    holds none, and no arithmetic is done on one. *)
#[local] Unset Elimination Schemes.
Inductive json : Type :=
| JNull
| JBool (b : bool)
| JNumber (lexeme : jsstring)
| JString (s : jsstring)
| JArray (items : list json)
| JObject (members : list (jsstring * json)).
#[local] Set Elimination Schemes.

Definition isHighSurrogate (c : N) : bool := (55296 <=? c) && (c <=? 56319).
Definition isLowSurrogate (c : N) : bool := (56320 <=? c) && (c <=? 57343).

Definition hexDigit (d : N) : N := if d <? 10 then 48 + d else 87 + d.

(** UnicodeEscape: backslash, u, four lower-case hexadecimal digits. *)
Definition unicodeEscape (c : N) : jsstring :=
  [92; 117; hexDigit ((c / 4096) mod 16); hexDigit ((c / 256) mod 16);
   hexDigit ((c / 16) mod 16); hexDigit (c mod 16)].

(** One code unit that is not the first half of a surrogate pair. *)
Definition quoteUnit (c : N) : jsstring :=
  if c =? 8 then [92; 98]
  else if c =? 9 then [92; 116]
  else if c =? 10 then [92; 110]
  else if c =? 12 then [92; 102]
  else if c =? 13 then [92; 114]
  else if c =? 34 then [92; 34]
  else if c =? 92 then [92; 92]
  else if (c <? 32) || isHighSurrogate c || isLowSurrogate c
       then unicodeEscape c
  else [c].

(** The body of QuoteJSONString: the string is read by code points, a
    well-formed surrogate pair goes out as it is, a lone surrogate is
    escaped. *)
Fixpoint quoteChars (s : jsstring) : jsstring :=
  match s with
  | [] => []
  | c :: t =>
      match t with
      | d :: t' =>
          if isHighSurrogate c && isLowSurrogate d
          then c :: d :: quoteChars t'
          else quoteUnit c ++ quoteChars t
      | [] => quoteUnit c
      end
  end.

Definition quote (s : jsstring) : jsstring := [34] ++ quoteChars s ++ [34].

Fixpoint joinComma (parts : list jsstring) : jsstring :=
  match parts with
  | [] => []
  | [p] => p
  | p :: rest => p ++ [44] ++ joinComma rest
  end.

(** [JSON.stringify] of a value, without indentation. *)
Fixpoint stringify (v : json) : jsstring :=
  match v with
  | JNull => js "null"
  | JBool true => js "true"
  | JBool false => js "false"
  | JNumber l => l
  | JString s => quote s
  | JArray items => [91] ++ joinComma (map stringify items) ++ [93]
  | JObject members =>
      [123]
        ++ joinComma
             (map (fun kv => match kv with
                             | (k, x) => quote k ++ [58] ++ stringify x
                             end) members)
        ++ [125]
  end.

(** *** Parsing *)

Definition isJsonWs (c : N) : bool :=
  (c =? 32) || (c =? 9) || (c =? 10) || (c =? 13).

Fixpoint skipWs (s : jsstring) : jsstring :=
  match s with
  | [] => []
  | c :: t => if isJsonWs c then skipWs t else s
  end.

Definition hexValue (c : N) : option N :=
  if (48 <=? c) && (c <=? 57) then Some (c - 48)
  else if (97 <=? c) && (c <=? 102) then Some (c - 87)
  else if (65 <=? c) && (c <=? 70) then Some (c - 55)
  else None.

Definition hex4 (a b c d : N) : option N :=
  match hexValue a, hexValue b, hexValue c, hexValue d with
  | Some x, Some y, Some z, Some w => Some (x * 4096 + y * 256 + z * 16 + w)
  | _, _, _, _ => None
  end.

Definition simpleEscape (e : N) : option N :=
  if e =? 34 then Some 34
  else if e =? 92 then Some 92
  else if e =? 47 then Some 47
  else if e =? 98 then Some 8
  else if e =? 102 then Some 12
  else if e =? 110 then Some 10
  else if e =? 114 then Some 13
  else if e =? 116 then Some 9
  else None.

(** The characters of a string literal after its opening quote, up to
    and including the closing one; the rest of the input is returned
    with the decoded string. *)
Fixpoint parseChars (s : jsstring) : option (jsstring * jsstring) :=
  match s with
  | [] => None
  | c :: t =>
      if c =? 34 then Some ([], t)
      else if c =? 92 then
        match t with
        | [] => None
        | e :: t1 =>
            if e =? 117 then
              match t1 with
              | h1 :: h2 :: h3 :: h4 :: t2 =>
                  match hex4 h1 h2 h3 h4, parseChars t2 with
                  | Some u, Some (r, rest) => Some (u :: r, rest)
                  | _, _ => None
                  end
              | _ => None
              end
            else
              match simpleEscape e, parseChars t1 with
              | Some u, Some (r, rest) => Some (u :: r, rest)
              | _, _ => None
              end
        end
      else if c <? 32 then None
      else
        match parseChars t with
        | Some (r, rest) => Some (c :: r, rest)
        | None => None
        end
  end.

Definition isDigit (c : N) : bool := (48 <=? c) && (c <=? 57).

Fixpoint spanDigits (s : jsstring) : jsstring * jsstring :=
  match s with
  | c :: t =>
      if isDigit c then let (ds, rest) := spanDigits t in (c :: ds, rest)
      else ([], s)
  | [] => ([], [])
  end.

(** int: a single 0, or a non-zero digit followed by digits. *)
Definition parseInt (s : jsstring) : option (jsstring * jsstring) :=
  match s with
  | c :: t =>
      if c =? 48 then Some ([c], t)
      else if isDigit c then let (ds, rest) := spanDigits t in Some (c :: ds, rest)
      else None
  | [] => None
  end.

Definition parseFrac (s : jsstring) : option (jsstring * jsstring) :=
  match s with
  | 46 :: t =>
      match spanDigits t with
      | ([], _) => None
      | (ds, rest) => Some (46 :: ds, rest)
      end
  | _ => Some ([], s)
  end.

Definition parseExp (s : jsstring) : option (jsstring * jsstring) :=
  match s with
  | c :: t =>
      if (c =? 101) || (c =? 69) then
        let (sign, t1) :=
          match t with
          | x :: t' => if (x =? 43) || (x =? 45) then ([x], t') else ([], t)
          | [] => ([], t)
          end in
        match spanDigits t1 with
        | ([], _) => None
        | (ds, rest) => Some (c :: sign ++ ds, rest)
        end
      else Some ([], s)
  | [] => Some ([], s)
  end.

Definition parseNumber (s : jsstring) : option (jsstring * jsstring) :=
  let (sign, s1) :=
    match s with
    | 45 :: t => ([45], t)
    | _ => ([], s)
    end in
  match parseInt s1 with
  | Some (i, s2) =>
      match parseFrac s2 with
      | Some (f, s3) =>
          match parseExp s3 with
          | Some (e, s4) => Some (sign ++ i ++ f ++ e, s4)
          | None => None
          end
      | None => None
      end
  | None => None
  end.

Definition expect (lit : jsstring) (v : json) (s : jsstring)
  : option (json * jsstring) :=
  if jsstring_eqb (firstn (length lit) s) lit
  then Some (v, skipn (length lit) s) else None.

(** The grammar of JSON values.  [fuel] bounds the number of nested
    calls; [parse] below gives as much as the text is long. *)
Fixpoint parseValue (fuel : nat) (s : jsstring) {struct fuel}
  : option (json * jsstring) :=
  match fuel with
  | O => None
  | S f =>
      match skipWs s with
      | [] => None
      | c :: t =>
          if c =? 34 then
            match parseChars t with
            | Some (str, rest) => Some (JString str, rest)
            | None => None
            end
          else if c =? 91 then
            match skipWs t with
            | [] => None
            | c1 :: rest =>
                if c1 =? 93 then Some (JArray [], rest)
                else
                  match parseElements f t with
                  | Some (items, rest') => Some (JArray items, rest')
                  | None => None
                  end
            end
          else if c =? 123 then
            match skipWs t with
            | [] => None
            | c1 :: rest =>
                if c1 =? 125 then Some (JObject [], rest)
                else
                  match parseMembers f t with
                  | Some (ms, rest') => Some (JObject ms, rest')
                  | None => None
                  end
            end
          else if c =? 116 then expect (js "true") (JBool true) (c :: t)
          else if c =? 102 then expect (js "false") (JBool false) (c :: t)
          else if c =? 110 then expect (js "null") JNull (c :: t)
          else
            match parseNumber (c :: t) with
            | Some (l, rest) => Some (JNumber l, rest)
            | None => None
            end
      end
  end
with parseElements (fuel : nat) (s : jsstring) {struct fuel}
  : option (list json * jsstring) :=
  match fuel with
  | O => None
  | S f =>
      match parseValue f s with
      | Some (v, r) =>
          match skipWs r with
          | [] => None
          | c :: r1 =>
              if c =? 44 then
                match parseElements f r1 with
                | Some (vs, rest) => Some (v :: vs, rest)
                | None => None
                end
              else if c =? 93 then Some ([v], r1)
              else None
          end
      | None => None
      end
  end
with parseMembers (fuel : nat) (s : jsstring) {struct fuel}
  : option (list (jsstring * json) * jsstring) :=
  match fuel with
  | O => None
  | S f =>
      match skipWs s with
      | [] => None
      | q :: t =>
          if q =? 34 then
            match parseChars t with
            | Some (k, r) =>
                match skipWs r with
                | [] => None
                | colon :: r1 =>
                    if colon =? 58 then
                      match parseValue f r1 with
                      | Some (v, r2) =>
                          match skipWs r2 with
                          | [] => None
                          | c :: r3 =>
                              if c =? 44 then
                                match parseMembers f r3 with
                                | Some (ms, rest) => Some ((k, v) :: ms, rest)
                                | None => None
                                end
                              else if c =? 125 then Some ([(k, v)], r3)
                              else None
                          end
                      | None => None
                      end
                    else None
                end
            | None => None
            end
          else None
      end
  end.

(** [JSON.parse]: one value, surrounded by optional white space.
    [None] stands for the SyntaxError it throws. *)
Definition parse (s : jsstring) : option json :=
  match parseValue (S (length s)) s with
  | Some (v, rest) =>
      match skipWs rest with
      | [] => Some v
      | _ :: _ => None
      end
  | None => None
  end.

(** Induction over a value and the values inside it. *)
Section JsonInduction.

Variable P : json -> Prop.
Hypothesis P_null : P JNull.
Hypothesis P_bool : forall b, P (JBool b).
Hypothesis P_number : forall l, P (JNumber l).
Hypothesis P_string : forall s, P (JString s).
Hypothesis P_array : forall items, Forall P items -> P (JArray items).
Hypothesis P_object :
  forall members, Forall (fun kv => P (snd kv)) members -> P (JObject members).

Fixpoint json_nested_ind (v : json) : P v :=
  match v with
  | JNull => P_null
  | JBool b => P_bool b
  | JNumber l => P_number l
  | JString s => P_string s
  | JArray items =>
      P_array items
        ((fix all (l : list json) : Forall P l :=
            match l with
            | [] => Forall_nil P
            | x :: t => Forall_cons x (json_nested_ind x) (all t)
            end) items)
  | JObject members =>
      P_object members
        ((fix all (l : list (jsstring * json))
            : Forall (fun kv => P (snd kv)) l :=
            match l with
            | [] => Forall_nil _
            | kv :: t =>
                Forall_cons kv
                  (match kv as p return P (snd p) with
                   | (_, x) => json_nested_ind x
                   end) (all t)
            end) members)
  end.

End JsonInduction.

(** No number occurs in the value. *)
Fixpoint numberFree (v : json) : bool :=
  match v with
  | JNumber _ => false
  | JArray items => forallb numberFree items
  | JObject members =>
      forallb (fun kv => match kv with (_, x) => numberFree x end) members
  | _ => true
  end.

(** The fuel that parsing the text of the value takes. *)
Fixpoint size (v : json) : nat :=
  match v with
  | JArray items =>
      S (fold_right (fun x acc => S (size x + acc)%nat) O items)
  | JObject members =>
      S (fold_right
           (fun kv acc => match kv with (_, x) => S (size x + acc)%nat end)
           O members)
  | _ => 1%nat
  end.


Definition sizeList (items : list json) : nat :=
  fold_right (fun x acc => S (size x + acc)%nat) O items.

(** What round trips: the value comes back with the rest of the input. *)
Definition roundTrips (v : json) : Prop :=
  numberFree v = true ->
  forall f rest, (size v <= f)%nat ->
    parseValue f (stringify v ++ rest) = Some (v, rest).

Definition memberText (kv : jsstring * json) : jsstring :=
  match kv with (k, x) => quote k ++ [58] ++ stringify x end.

Definition sizeMembers (members : list (jsstring * json)) : nat :=
  fold_right (fun kv acc => match kv with (_, x) => S (size x + acc)%nat end)
    O members.

Definition fitsText (v : json) : Prop :=
  numberFree v = true -> (size v <= length (stringify v))%nat.

End JSON.

Local Open Scope nat_scope.

(** ** Data model (l.22-37) *)

Inductive DeviceType := phone | laptop | headphones | unknown.

Record BluetoothDevice := mkDevice {
  dev_id : jsstring;
  dev_name : jsstring;
  dev_type : DeviceType;
  dev_connected : bool;
  dev_rssi : Z
}.

(** [timestamp] is a [Date] in a message made by this session, and the
    ISO text of one in a message that came back from [JSON.parse]. *)
Inductive Timestamp :=
| DateObj (t : Z)
| DateText (iso : jsstring).

Record Message := mkMessage {
  msg_id : jsstring;
  msg_deviceId : jsstring;
  msg_deviceName : jsstring;
  msg_content : jsstring;
  msg_timestamp : Timestamp;
  msg_sent : bool
}.

Inductive ToastVariant := default | destructive.

Record Toast := mkToast {
  toast_title : jsstring;
  toast_description : jsstring;
  toast_variant : ToastVariant
}.

(** What a [setTimeout] callback will do, with the values its closure
    holds. *)
Inductive TimerAction :=
| ScanDone (found : nat)
| Welcome (device : BluetoothDevice)
| Scroll
| Reply (device : BluetoothDevice).

(** A pending timer: the delay given to [setTimeout], what the callback
    will do, and the time of the page clock from which it may run. *)
Record Timer := mkTimer {
  timer_delay : Q;
  timer_action : TimerAction;
  timer_due : Q
}.

(** The component state (l.40-46) with what it has handed to the
    platform: the toasts shown, the timers and device requests still
    pending, the item [bluetooth-chat-messages] of localStorage, and the
    time, in milliseconds, that has passed on the page. *)
Record World := mkWorld {
  isScanning : bool;
  devices : list BluetoothDevice;
  connectedDevices : list BluetoothDevice;
  messages : list Message;
  currentMessage : jsstring;
  selectedDevice : option BluetoothDevice;
  bluetoothSupported : bool;
  toasts : list Toast;
  timers : list Timer;
  requests : list nat;
  storage : option jsstring;
  clock : Q
}.

Definition setIsScanning (b : bool) (w : World) : World :=
  mkWorld b (devices w) (connectedDevices w) (messages w) (currentMessage w)
    (selectedDevice w) (bluetoothSupported w) (toasts w) (timers w)
    (requests w) (storage w) (clock w).

Definition setDevices (f : list BluetoothDevice -> list BluetoothDevice)
  (w : World) : World :=
  mkWorld (isScanning w) (f (devices w)) (connectedDevices w) (messages w)
    (currentMessage w) (selectedDevice w) (bluetoothSupported w) (toasts w)
    (timers w) (requests w) (storage w) (clock w).

Definition setConnectedDevices
  (f : list BluetoothDevice -> list BluetoothDevice) (w : World) : World :=
  mkWorld (isScanning w) (devices w) (f (connectedDevices w)) (messages w)
    (currentMessage w) (selectedDevice w) (bluetoothSupported w) (toasts w)
    (timers w) (requests w) (storage w) (clock w).

Definition setCurrentMessage (s : jsstring) (w : World) : World :=
  mkWorld (isScanning w) (devices w) (connectedDevices w) (messages w) s
    (selectedDevice w) (bluetoothSupported w) (toasts w) (timers w)
    (requests w) (storage w) (clock w).

Definition setSelectedDevice (d : option BluetoothDevice) (w : World) : World :=
  mkWorld (isScanning w) (devices w) (connectedDevices w) (messages w)
    (currentMessage w) d (bluetoothSupported w) (toasts w) (timers w)
    (requests w) (storage w) (clock w).

Definition setBluetoothSupported (b : bool) (w : World) : World :=
  mkWorld (isScanning w) (devices w) (connectedDevices w) (messages w)
    (currentMessage w) (selectedDevice w) b (toasts w) (timers w)
    (requests w) (storage w) (clock w).

Definition toast (t : Toast) (w : World) : World :=
  mkWorld (isScanning w) (devices w) (connectedDevices w) (messages w)
    (currentMessage w) (selectedDevice w) (bluetoothSupported w)
    (toasts w ++ [t]) (timers w) (requests w) (storage w) (clock w).

Definition setTimeout (a : TimerAction) (delay : Q) (w : World) : World :=
  mkWorld (isScanning w) (devices w) (connectedDevices w) (messages w)
    (currentMessage w) (selectedDevice w) (bluetoothSupported w) (toasts w)
    (timers w ++ [mkTimer delay a (clock w + delay)%Q]) (requests w) (storage w)
    (clock w).

Definition withTimers (ts : list Timer) (w : World) : World :=
  mkWorld (isScanning w) (devices w) (connectedDevices w) (messages w)
    (currentMessage w) (selectedDevice w) (bluetoothSupported w) (toasts w)
    ts (requests w) (storage w) (clock w).

Definition withRequests (rs : list nat) (w : World) : World :=
  mkWorld (isScanning w) (devices w) (connectedDevices w) (messages w)
    (currentMessage w) (selectedDevice w) (bluetoothSupported w) (toasts w)
    (timers w) rs (storage w) (clock w).

Definition setItem (text : jsstring) (w : World) : World :=
  mkWorld (isScanning w) (devices w) (connectedDevices w) (messages w)
    (currentMessage w) (selectedDevice w) (bluetoothSupported w) (toasts w)
    (timers w) (requests w) (Some text) (clock w).

(** Time passes on the page. *)
Definition advance (dt : Q) (w : World) : World :=
  mkWorld (isScanning w) (devices w) (connectedDevices w) (messages w)
    (currentMessage w) (selectedDevice w) (bluetoothSupported w) (toasts w)
    (timers w) (requests w) (storage w) (clock w + dt)%Q.

(** ** The message log as JSON *)

Definition timestampToJSON (t : Timestamp) : jsstring :=
  match t with
  | DateObj ms => Date.toISOString ms
  | DateText iso => iso
  end.

Definition messageToJson (m : Message) : JSON.json :=
  JSON.JObject
    [(js "id", JSON.JString (msg_id m));
     (js "deviceId", JSON.JString (msg_deviceId m));
     (js "deviceName", JSON.JString (msg_deviceName m));
     (js "content", JSON.JString (msg_content m));
     (js "timestamp", JSON.JString (timestampToJSON (msg_timestamp m)));
     (js "sent", JSON.JBool (msg_sent m))].

Definition messagesToJson (ms : list Message) : JSON.json :=
  JSON.JArray (map messageToJson ms).

(** Property lookup in a parsed object: of two members with one key the
    later one is the property's value. *)
Definition getProp (k : jsstring) (members : list (jsstring * JSON.json))
  : option JSON.json :=
  fold_left
    (fun acc kv => if jsstring_eqb (fst kv) k then Some (snd kv) else acc)
    members None.

(** The parsed value read at the type [Message] the component gives it;
    [None] when it has another shape. *)
Definition messageOfJson (v : JSON.json) : option Message :=
  match v with
  | JSON.JObject members =>
      match getProp (js "id") members, getProp (js "deviceId") members,
            getProp (js "deviceName") members, getProp (js "content") members,
            getProp (js "timestamp") members, getProp (js "sent") members with
      | Some (JSON.JString i), Some (JSON.JString d), Some (JSON.JString n),
        Some (JSON.JString c), Some (JSON.JString t), Some (JSON.JBool b) =>
          Some (mkMessage i d n c (DateText t) b)
      | _, _, _, _, _, _ => None
      end
  | _ => None
  end.

Fixpoint messageListOfJson (items : list JSON.json) : option (list Message) :=
  match items with
  | [] => Some []
  | v :: rest =>
      match messageOfJson v, messageListOfJson rest with
      | Some m, Some ms => Some (m :: ms)
      | _, _ => None
      end
  end.

Definition messagesOfJson (v : JSON.json) : option (list Message) :=
  match v with
  | JSON.JArray items => messageListOfJson items
  | _ => None
  end.

(** ** Effects (l.50-74) *)

(** l.70-74: runs after every render in which [messages] changed. *)
Definition saveMessages (w : World) : World :=
  setItem (JSON.stringify (messagesToJson (messages w))) w.

(** [setMessages] followed by the effect that the changed log triggers. *)
Definition setMessages (f : list Message -> list Message) (w : World) : World :=
  saveMessages
    (mkWorld (isScanning w) (devices w) (connectedDevices w) (f (messages w))
       (currentMessage w) (selectedDevice w) (bluetoothSupported w) (toasts w)
       (timers w) (requests w) (storage w) (clock w)).

(** l.54-58.  [None]: [JSON.parse] threw, or the stored value is not a
    message array. *)
Definition loadMessages (w : World) : option World :=
  match storage w with
  | None => Some w
  | Some savedMessages =>
      if truthy savedMessages then
        match JSON.parse savedMessages with
        | Some v =>
            match messagesOfJson v with
            | Some ms => Some (setMessages (fun _ => ms) w)
            | None => None
            end
        | None => None
        end
      else Some w
  end.

Definition simulatedDevices : list BluetoothDevice :=
  [ mkDevice (js "1") (js "Alice's iPhone") phone false (-45);
    mkDevice (js "2") (js "Bob's MacBook") laptop false (-62);
    mkDevice (js "3") (js "Charlie's Android") phone false (-38);
    mkDevice (js "4") (js "AirPods Pro") headphones false (-55) ].

(** The state of the first render over what localStorage holds. *)
Definition firstRender (stored : option jsstring) : World :=
  mkWorld false [] [] [] [] None false [] [] [] stored 0.

(** The two effects of the first render, in order: l.50-68 reads the
    stored log before l.70-74 writes the (still empty) log of the first
    render; the loaded log is written back by the render that follows. *)
Definition mount (supported : bool) (stored : option jsstring) : option World :=
  let w0 := firstRender stored in
  match loadMessages (setBluetoothSupported supported w0) with
  | Some w1 => Some (saveMessages (setDevices (fun _ => simulatedDevices) w1))
  | None => None
  end.

(** ** Handlers *)

(** The updater of l.113-119. *)
Definition upsertDiscovered (newDevice : BluetoothDevice)
  (prev : list BluetoothDevice) : list BluetoothDevice :=
  match find (fun d => jsstring_eqb (dev_id d) (dev_id newDevice)) prev with
  | None => prev ++ [newDevice]
  | Some _ => prev
  end.

(** What [navigator.bluetooth.requestDevice] settles to. *)
Inductive ScanOutcome :=
| Chosen (id : jsstring) (name : option jsstring)
| Rejected.

(** l.93-102: up to the [await]; [found] is the [devices.length] the
    closure will report. *)
Definition scanForDevices (w : World) : World :=
  let found := length (devices w) in
  let w1 := setIsScanning true w in
  if bluetoothSupported w then withRequests (requests w1 ++ [found]) w1
  else setTimeout (ScanDone found) 2000 w1.

(** l.104-133: after the [await]; [randomId] is the value of
    [Math.random().toString()] at l.106. *)
Definition scanSettled (outcome : ScanOutcome) (randomId : jsstring)
  (found : nat) (w : World) : World :=
  let w1 :=
    match outcome with
    | Chosen id (Some name) =>
        if truthy name then
          let newDevice :=
            mkDevice (if truthy id then id else randomId) name unknown false (-50) in
          setDevices (upsertDiscovered newDevice) w
        else w
    | Chosen _ None => w
    | Rejected => w
    end in
  setTimeout (ScanDone found) 2000 w1.

Definition withConnected (b : bool) (d : BluetoothDevice) : BluetoothDevice :=
  mkDevice (dev_id d) (dev_name d) (dev_type d) b (dev_rssi d).

Definition markConnected (b : bool) (device : BluetoothDevice)
  (prev : list BluetoothDevice) : list BluetoothDevice :=
  map (fun d => if jsstring_eqb (dev_id d) (dev_id device)
                then withConnected b d else d) prev.

(** l.136-167. *)
Definition connectToDevice (device : BluetoothDevice) (w : World) : World :=
  let w1 := setDevices (markConnected true device) w in
  let w2 := setConnectedDevices
              (fun prev => prev ++ [withConnected true device]) w1 in
  let w3 := toast (mkToast (js "Connected")
                     (js "Connected to " ++ dev_name device) default) w2 in
  setTimeout (Welcome device) 1000 w3.

(** l.169-182. *)
Definition disconnectDevice (device : BluetoothDevice) (w : World) : World :=
  let w1 := setDevices (markConnected false device) w in
  let w2 := setConnectedDevices
              (filter (fun d => negb (jsstring_eqb (dev_id d) (dev_id device))))
              w1 in
  let w3 :=
    match selectedDevice w with
    | Some sel =>
        if jsstring_eqb (dev_id sel) (dev_id device)
        then setSelectedDevice None w2 else w2
    | None => w2
    end in
  toast (mkToast (js "Disconnected")
           (js "Disconnected from " ++ dev_name device) default) w3.

(** [1000 + r * 2000] (l.227) as [setTimeout] takes it: converted to a
    [long], a whole number of milliseconds, and not below 0. *)
Definition replyDelay (r : Number.t) : Q :=
  inject_Z
    (Z.max 0
       (Number.toLong
          (Number.add (Number.ofZ 1000) (Number.mul r (Number.ofZ 2000))))).

(** l.184-229.  [randomId] is [Math.random().toString()] at l.188,
    [now] the time value of [new Date()], [r] the [Math.random()] of
    l.227. *)
Definition sendMessage (randomId : jsstring) (now : Z) (r : Number.t)
  (w : World) : World :=
  match truthy (trim (currentMessage w)), selectedDevice w with
  | true, Some sel =>
      let newMessage :=
        mkMessage randomId (dev_id sel) (dev_name sel)
          (trim (currentMessage w)) (DateObj now) true in
      let w1 := setMessages (fun prev => prev ++ [newMessage]) w in
      let w2 := setCurrentMessage [] w1 in
      let w3 := setTimeout Scroll 100 w2 in
      setTimeout (Reply sel) (replyDelay r) w3
  | _, _ => w
  end.

(** l.231-233. *)
Definition getMessagesForDevice (deviceId : jsstring) (w : World)
  : list Message :=
  filter (fun m => jsstring_eqb (msg_deviceId m) deviceId) (messages w).

(** ** Timer callbacks *)

Definition welcomeText : jsstring := js "Hello! I'm connected via Bluetooth.".

(** l.207-215. *)
Definition responses : list jsstring :=
  [ js "Got your message!";
    js "Thanks for reaching out via Bluetooth!";
    js "This offline chat is pretty cool!";
    js "No internet needed for this conversation!";
    js "Bluetooth messaging works great!";
    js "I received your message loud and clear!";
    js "Peer-to-peer communication is awesome!" ].

(** [responses[Math.floor(r * responses.length)]]; the empty string
    stands for the [undefined] of an index that is not one of the
    array. *)
Definition pickResponse (r : Number.t) : jsstring :=
  match
    Number.floor (Number.mul r (Number.ofZ (Z.of_nat (length responses))))
  with
  | Some i => if (0 <=? i)%Z then nth (Z.to_nat i) responses [] else []
  | None => []
  end.

(** The body of a callback: [randomId], [now] and [r] are the values of
    [Math.random().toString()], [new Date()] and [Math.random()] when it
    runs. *)
Definition runCallback (a : TimerAction) (randomId : jsstring) (now : Z)
  (r : Number.t) (w : World) : World :=
  match a with
  | ScanDone found =>
      toast (mkToast (js "Scan Complete")
               (js "Found " ++ natToString found ++ js " nearby devices")
               default)
        (setIsScanning false w)
  | Welcome device =>
      let welcomeMessage :=
        mkMessage randomId (dev_id device) (dev_name device) welcomeText
          (DateObj now) false in
      setMessages (fun prev => prev ++ [welcomeMessage]) w
  | Scroll => w
  | Reply device =>
      let responseMessage :=
        mkMessage randomId (dev_id device) (dev_name device) (pickResponse r)
          (DateObj now) false in
      setMessages (fun prev => prev ++ [responseMessage]) w
  end.

Fixpoint removeNth {A : Type} (k : nat) (l : list A) : list A :=
  match l, k with
  | [], _ => []
  | _ :: t, O => t
  | x :: t, S k' => x :: removeNth k' t
  end.

(** ** The events the page offers *)

(** [r] is a value of [Math.random()]: a number of positive sign,
    zero or more and less than 1. *)
Definition unitDraw (r : Number.t) : bool :=
  match r with
  | S754_zero false => true
  | S754_finite false m e =>
      bounded 53 1024 m e && negb (Qle_bool 1 (Number.toQ r))
  | _ => false
  end.

Inductive Event :=
| ClickScan
| ScanSettles (outcome : ScanOutcome) (randomId : jsstring)
| ClickDevice (i : nat)
| ClickConnected (j : nat)
| ChangeInput (text : jsstring)
| Send (randomId : jsstring) (now : Z) (r : Number.t)
| TimePasses (dt : Q)
| TimerFires (k : nat) (randomId : jsstring) (now : Z) (r : Number.t).

(** One event on the rendered page.  [None]: the page does not offer the
    event in this state (a disabled or absent control, no such timer, a
    timer whose delay has not passed), or [r] is not a value of
    [Math.random()]. *)
Definition step (e : Event) (w : World) : option World :=
  match e with
  | ClickScan =>
      if isScanning w then None else Some (scanForDevices w)
  | ScanSettles outcome randomId =>
      match requests w with
      | found :: rest =>
          Some (scanSettled outcome randomId found (withRequests rest w))
      | [] => None
      end
  | ClickDevice i =>
      match nth_error (devices w) i with
      | Some device =>
          Some (if dev_connected device then disconnectDevice device w
                else connectToDevice device w)
      | None => None
      end
  | ClickConnected j =>
      match nth_error (connectedDevices w) j with
      | Some device => Some (setSelectedDevice (Some device) w)
      | None => None
      end
  | ChangeInput text =>
      match selectedDevice w with
      | Some _ =>
          if length text <=? 500 then Some (setCurrentMessage text w) else None
      | None => None
      end
  | Send randomId now r =>
      match selectedDevice w with
      | Some _ => if unitDraw r then Some (sendMessage randomId now r w) else None
      | None => None
      end
  | TimePasses dt =>
      if Qle_bool 0 dt then Some (advance dt w) else None
  | TimerFires k randomId now r =>
      match nth_error (timers w) k with
      | Some t =>
          if Qle_bool (timer_due t) (clock w) && unitDraw r then
            Some (runCallback (timer_action t) randomId now r
                    (withTimers (removeNth k (timers w)) w))
          else None
      | None => None
      end
  end.

Fixpoint run (es : list Event) (w : World) : option World :=
  match es with
  | [] => Some w
  | e :: rest =>
      match step e w with
      | Some w' => run rest w'
      | None => None
      end
  end.

Inductive reachable : World -> Prop :=
| reachable_mount supported stored w :
    mount supported stored = Some w -> reachable w
| reachable_step e w w' :
    reachable w -> step e w = Some w' -> reachable w'.

(** ** Vocabulary of the properties *)

(** The append that l.158, l.196 and l.225 perform. *)
Definition appendMessage (m : Message) (w : World) : World :=
  setMessages (fun prev => prev ++ [m]) w.

Definition appendAll (ms : list Message) (w : World) : World :=
  fold_left (fun acc m => appendMessage m acc) ms w.

Definition deviceIds (l : list BluetoothDevice) : list jsstring :=
  map dev_id l.

(** The selection is unset or names a connected device. *)
Definition selectionValid (w : World) : Prop :=
  match selectedDevice w with
  | None => True
  | Some sel => In (dev_id sel) (deviceIds (connectedDevices w))
  end.

Definition countId (id : jsstring) (l : list BluetoothDevice) : nat :=
  length (filter (fun d => jsstring_eqb (dev_id d) id) l).

Definition whitespaceOnly (s : jsstring) : Prop :=
  forallb isWhiteSpace s = true.

(** The page with [sel] selected and [content] in the input field. *)
Definition composing (sel : BluetoothDevice) (content : jsstring) : World :=
  setCurrentMessage content (setSelectedDevice (Some sel) (firstRender None)).

(** A space, a tab and a no-break space. *)
Definition blanks : jsstring := [32; 9; 160]%N.

Definition alice : BluetoothDevice :=
  mkDevice (js "1") (js "Alice's iPhone") phone true (-45).

(** A device that no scan has reported. *)
Definition stranger : BluetoothDevice :=
  mkDevice (js "9") (js "Eve's tablet") unknown false (-70).

(** Five hundred and one letters. *)
Definition longText : jsstring := repeat 97%N 501.

(** Exactly five hundred letters. *)
Definition fullText : jsstring := 97%N :: repeat 98%N 498 ++ [99%N].

(** The page as first shown, nothing stored, no Web Bluetooth. *)
Definition freshPage : World :=
  saveMessages
    (setDevices (fun _ => simulatedDevices) (firstRender None)).

Definition count {A : Type} (p : A -> bool) (l : list A) : nat :=
  length (filter p l).

(** An inbound message on the thread of [id] with the welcome text. *)
Definition isWelcome (id : jsstring) (m : Message) : bool :=
  jsstring_eqb (msg_deviceId m) id
  && jsstring_eqb (msg_content m) welcomeText
  && negb (msg_sent m).

(** An inbound message on the thread of [id] with a text of the pool. *)
Definition isReply (id : jsstring) (m : Message) : bool :=
  jsstring_eqb (msg_deviceId m) id
  && existsb (jsstring_eqb (msg_content m)) responses
  && negb (msg_sent m).

Definition isWelcomeTimer (id : jsstring) (t : Timer) : bool :=
  match timer_action t with
  | Welcome d => jsstring_eqb (dev_id d) id
  | _ => false
  end.

Definition isReplyTimer (id : jsstring) (t : Timer) : bool :=
  match timer_action t with
  | Reply d => jsstring_eqb (dev_id d) id
  | _ => false
  end.

(** 1 when the event connects a device of id [id], else 0. *)
Definition connectsNow (id : jsstring) (e : Event) (w : World) : nat :=
  match e with
  | ClickDevice i =>
      match nth_error (devices w) i with
      | Some d =>
          if negb (dev_connected d) && jsstring_eqb (dev_id d) id then 1 else 0
      | None => 0
      end
  | _ => 0
  end.

(** 1 when the event sends a message to the device of id [id], else 0. *)
Definition sendsNow (id : jsstring) (e : Event) (w : World) : nat :=
  match e with
  | Send _ _ _ =>
      match selectedDevice w with
      | Some sel =>
          if truthy (trim (currentMessage w)) && jsstring_eqb (dev_id sel) id
          then 1 else 0
      | None => 0
      end
  | _ => 0
  end.

(** The sum of [f] over the events of a run, each in the state it
    happens in. *)
Fixpoint tally (f : Event -> World -> nat) (es : list Event) (w : World)
  : nat :=
  match es with
  | [] => 0
  | e :: rest =>
      match step e w with
      | Some w' => f e w + tally f rest w'
      | None => 0
      end
  end.

Definition welcomeBalance (id : jsstring) (w : World) : nat :=
  count (isWelcome id) (messages w) + count (isWelcomeTimer id) (timers w).

Definition replyBalance (id : jsstring) (w : World) : nat :=
  count (isReply id) (messages w) + count (isReplyTimer id) (timers w).

(** The message a callback appends, if it appends one. *)
Definition callbackMessage (a : TimerAction) (randomId : jsstring) (now : Z)
  (r : Number.t) : list Message :=
  match a with
  | Welcome d =>
      [mkMessage randomId (dev_id d) (dev_name d) welcomeText (DateObj now)
         false]
  | Reply d =>
      [mkMessage randomId (dev_id d) (dev_name d) (pickResponse r)
         (DateObj now) false]
  | ScanDone _ => []
  | Scroll => []
  end.

(** The id text an event draws with [Math.random().toString()] for a
    message it may append. *)
Definition drawnId (e : Event) : list jsstring :=
  match e with
  | Send randomId _ _ => [randomId]
  | TimerFires _ randomId _ _ => [randomId]
  | _ => []
  end.

Definition drawnIds (es : list Event) : list jsstring := flat_map drawnId es.

Definition messageIds (w : World) : list jsstring := map msg_id (messages w).

(** Two values of [Math.random()]: [1 / 2] and [1 / 3]. *)
Definition half : Number.t := Number.div (Number.ofZ 1) (Number.ofZ 2).

Definition third : Number.t := Number.div (Number.ofZ 1) (Number.ofZ 3).

(** The largest number below 1, and a draw whose product with 7 is
    rounded up to 4. *)
Definition almostOne : Number.t := S754_finite false 9007199254740991 (-53).

Definition nearlyFourSevenths : Number.t :=
  S754_finite false 5146971002709138 (-53).

(** Two messages are sent to the first simulated device, and the two
    draws for their ids come out the same. *)
Definition collidingRun : list Event :=
  [ ClickDevice 0; ClickConnected 0;
    ChangeInput (js "a"); Send (js "0.42") 1700000000000 half;
    ChangeInput (js "b"); Send (js "0.42") 1700000000500 third ].

(** A message is sent to the first simulated device and its welcome
    arrives. *)
Definition sampleRun : list Event :=
  [ClickDevice 0; ClickConnected 0; ChangeInput (js "a");
   Send (js "0.42") 1700000000000 half;
   TimePasses 1000;
   TimerFires 0 (js "0.17") 1700000001000 third].

(** A message as it comes back from the store: the [Date] has become its
    ISO text, the other fields are as they were. *)
Definition persisted (m : Message) : Message :=
  mkMessage (msg_id m) (msg_deviceId m) (msg_deviceName m) (msg_content m)
    (DateText (timestampToJSON (msg_timestamp m))) (msg_sent m).

(** The stored text is the text of the current log. *)
Definition storageMirrors (w : World) : Prop :=
  storage w = Some (JSON.stringify (messagesToJson (messages w))).

(** ** The chat panel (l.381-472) *)

(** One message bubble: the React key, the side it is on, the author
    line, the text and the time shown. *)
Record Bubble := mkBubble {
  bubble_key : jsstring;
  bubble_mine : bool;
  bubble_author : jsstring;
  bubble_content : jsstring;
  bubble_time : jsstring
}.

(** The three forms of the panel. *)
Inductive ChatPanel :=
| NoDeviceSelected (hint : bool)
| EmptyThread (name : jsstring)
| Thread (bubbles : list Bubble).

(** l.397-428, one message.  [toLocaleTimeString] is the platform's
    rendering of a time value; a timestamp that is a string has no such
    method, and the call throws: [None]. *)
Definition renderBubble (toLocaleTimeString : Z -> jsstring) (m : Message)
  : option Bubble :=
  match msg_timestamp m with
  | DateObj t =>
      Some (mkBubble (msg_id m) (msg_sent m)
              (if msg_sent m then js "You" else msg_deviceName m)
              (msg_content m) (toLocaleTimeString t))
  | DateText _ => None
  end.

(** The [map] over the thread. *)
Fixpoint renderBubbles (toLocaleTimeString : Z -> jsstring)
  (ms : list Message) : option (list Bubble) :=
  match ms with
  | [] => Some []
  | m :: rest =>
      match renderBubble toLocaleTimeString m,
            renderBubbles toLocaleTimeString rest with
      | Some b, Some bs => Some (b :: bs)
      | _, _ => None
      end
  end.

(** l.381-472: what the chat panel shows; [None] when rendering throws. *)
Definition renderChat (toLocaleTimeString : Z -> jsstring) (w : World)
  : option ChatPanel :=
  match selectedDevice w with
  | None => Some (NoDeviceSelected (length (connectedDevices w) =? 0))
  | Some sel =>
      match getMessagesForDevice (dev_id sel) w with
      | [] => Some (EmptyThread (dev_name sel))
      | m :: rest =>
          match renderBubbles toLocaleTimeString (m :: rest) with
          | Some bubbles => Some (Thread bubbles)
          | None => None
          end
      end
  end.

(** ** The reply-suggestion route (route.ts) *)

(** [s.split("\n")]. *)
Fixpoint splitLines (s : jsstring) : list jsstring :=
  match s with
  | [] => [[]]
  | c :: t =>
      if (c =? 10)%N then [] :: splitLines t
      else
        match splitLines t with
        | line :: rest => (c :: line) :: rest
        | [] => [[c]]
        end
  end.

(** [lines.join("\n")]. *)
Fixpoint joinLines (lines : list jsstring) : jsstring :=
  match lines with
  | [] => []
  | [line] => line
  | line :: rest => line ++ [10%N] ++ joinLines rest
  end.

(** l.9-11: the template literal, with [lastMessage] put in. *)
Definition prompt (lastMessage : jsstring) : jsstring :=
  js "Generate 3 short, natural reply suggestions (max 10 words each) for this message: "
    ++ [34%N] ++ lastMessage ++ [34%N; 10%N] ++ js "    " ++ [10%N]
    ++ js "    Return only the suggestions, one per line, without numbers or formatting.".

(** l.14-17. *)
Definition suggestionsOf (text : jsstring) : list jsstring :=
  firstn 3 (filter (fun s => truthy (trim s)) (splitLines text)).

(** l.4-20.  [lastMessage] is the string read from the request body
    (l.5; a body that does not parse rejects before anything here runs),
    [generateText] is the call to the text-generation service, [None]
    when it throws; the result is the [suggestions] of the JSON
    response. *)
Definition POST (generateText : jsstring -> option jsstring)
  (lastMessage : jsstring) : option (list jsstring) :=
  match generateText (prompt lastMessage) with
  | Some text => Some (suggestionsOf text)
  | None => None
  end.


(** ** Vocabulary of the further properties *)

(** The connected list holds exactly the registry entries flagged connected. *)
Definition connectedAgree (w : World) : Prop :=
  forall d, In d (connectedDevices w) <->
            In d (devices w) /\ dev_connected d = true.

(** The entries of a device list with the connected flag put down. *)
Definition listing (l : list BluetoothDevice) : list BluetoothDevice :=
  map (withConnected false) l.

(** The callback that ends a scan. *)
Definition isScanDone (t : Timer) : bool :=
  match timer_action t with
  | ScanDone _ => true
  | _ => false
  end.

(** The scans under way: device requests not yet settled and scans
    settled whose end has not been announced. *)
Definition scansInFlight (w : World) : nat :=
  length (requests w) + count isScanDone (timers w).

(** The indicator is on exactly while one scan is under way. *)
Definition scanIndicatorRight (w : World) : Prop :=
  scansInFlight w = if isScanning w then 1 else 0.

(** The device list a settled scan leaves. *)
Definition afterScan (outcome : ScanOutcome) (randomId : jsstring)
  (prev : list BluetoothDevice) : list BluetoothDevice :=
  match outcome with
  | Chosen id (Some (c :: name)) =>
      upsertDiscovered
        (mkDevice (if truthy id then id else randomId) (c :: name) unknown
           false (-50)) prev
  | _ => prev
  end.

(** A scan from the click to its end: with Web Bluetooth the request
    settles in between, without it the click sets the timer at once. *)
Definition scanEvents (supported : bool) (outcome : ScanOutcome)
  (randomId : jsstring) (dt : Q) (k : nat) (randomId' : jsstring) (now : Z)
  (r : Number.t) : list Event :=
  if supported
  then [ClickScan; ScanSettles outcome randomId; TimePasses dt;
        TimerFires k randomId' now r]
  else [ClickScan; TimePasses dt; TimerFires k randomId' now r].

(** What [trim] returns: nothing, or a string with no white space at
    either end. *)
Inductive Trimmed : jsstring -> Prop :=
| Trimmed_nil : Trimmed []
| Trimmed_one c : isWhiteSpace c = false -> Trimmed [c]
| Trimmed_more c mid d :
    isWhiteSpace c = false -> isWhiteSpace d = false ->
    Trimmed (c :: mid ++ [d]).

(** A message as this session makes them. *)
Definition sessionMessage (m : Message) : Prop :=
  (exists t, msg_timestamp m = DateObj t)
  /\ if msg_sent m
     then msg_content m <> []
          /\ trim (msg_content m) = msg_content m
     else msg_content m = welcomeText \/ In (msg_content m) responses.

(** A device of the list has this id and this name. *)
Definition listed (l : list BluetoothDevice) (id name : jsstring) : Prop :=
  exists d, In d l /\ dev_id d = id /\ dev_name d = name.

(** The device a pending callback holds is listed. *)
Definition timerListed (l : list BluetoothDevice) (t : Timer) : Prop :=
  match timer_action t with
  | Welcome d => listed l (dev_id d) (dev_name d)
  | Reply d => listed l (dev_id d) (dev_name d)
  | _ => True
  end.

(** Every message and every pending callback names a listed device. *)
Definition attributed (w : World) : Prop :=
  Forall (fun m => listed (devices w) (msg_deviceId m) (msg_deviceName m))
    (messages w)
  /\ Forall (timerListed (devices w)) (timers w).

(** The timestamp is the text a stored log gives back. *)
Definition textStamped (m : Message) : Prop :=
  exists iso, msg_timestamp m = DateText iso.

(** The timestamp is a [Date]. *)
Definition dateStamped (m : Message) : Prop :=
  exists t, msg_timestamp m = DateObj t.

(** ** Vocabulary of rounding *)

(** The record after [k] shifts of [M]: the quotient, the round bit and
    the sticky bit. *)
Definition shifted (M k : Z) (mrs : shr_record) : Prop :=
  (shr_m mrs = M / 2 ^ k
   /\ shr_r mrs = (2 ^ (k - 1) <=? M mod 2 ^ k)
   /\ shr_s mrs =
        negb (M mod 2 ^ k =? 0) && negb (M mod 2 ^ k =? 2 ^ (k - 1)))%Z.

(** A number that is not negative, from mantissa and exponent. *)
Definition nonneg (m e : Z) : spec_float :=
  match m with
  | Z0 => S754_zero false
  | Zpos p => S754_finite false p e
  | Zneg _ => S754_nan
  end.

(** The second half of [binary_round_aux]: the rounded mantissa is
    brought back to 53 bits. *)
Definition renormalize (m e : Z) : spec_float :=
  let '(mrs, e') := shr_fexp 53 1024 m e loc_Exact in
  match shr_m mrs with
  | Z0 => S754_zero false
  | Zpos m => if Z.leb e' (1024 - 53)%Z then S754_finite false m e'
              else S754_infinity false
  | Zneg _ => S754_nan
  end.

(** ** Sample states and inputs *)

Definition firstDevice : BluetoothDevice :=
  mkDevice (js "1") (js "Alice's iPhone") phone false (-45).

(** The page as first shown, nothing stored, with Web Bluetooth. *)
Definition blePage : World :=
  saveMessages
    (setDevices (fun _ => simulatedDevices)
       (setBluetoothSupported true (firstRender None))).

(** The first device is connected and selected. *)
Definition chatRun : list Event := [ClickDevice 0; ClickConnected 0].

Definition connectedPage : World := connectToDevice firstDevice freshPage.

Definition chatPage : World := setSelectedDevice (Some alice) connectedPage.

(** Scan has been clicked and the device request is pending; then the
    request has settled on a new device and the scan runs out. *)
Definition scanningPage : World := scanForDevices blePage.

Definition settledPage : World :=
  scanSettled (Chosen (js "b7") (Some (js "Buds"))) (js "0.9") 4
    (withRequests [] scanningPage).

(** A message has been sent to the selected device. *)
Definition sentPage : World :=
  sendMessage (js "0.42") 1700000000000 half (composing alice (js "hi")).

(** [sampleRun], and then the reply arrives, 3000 milliseconds after the
    send. *)
Definition replyRun : list Event :=
  sampleRun
    ++ [TimePasses 2000;
        TimerFires 1 (js "0.77") 1700000003000 nearlyFourSevenths].

(** A log of one message, the text it is stored as, and the page
    mounted over that text. *)
Definition savedChat : list Message :=
  [mkMessage (js "0.42") (js "1") (js "Alice's iPhone") (js "hi")
     (DateObj 1700000000000) true].

Definition savedText : jsstring := JSON.stringify (messagesToJson savedChat).

Definition reloadedPage : World :=
  mkWorld false simulatedDevices [] (map persisted savedChat) [] None false
    [] [] [] (Some savedText) 0.

(** A generation service that answers every prompt with three lines,
    the second one blank, and one that answers with blanks. *)
Definition cannedService (_ : jsstring) : option jsstring :=
  Some (js "Sure!" ++ [10%N] ++ js "   " ++ [10%N] ++ js "On my way").

Definition blankService (_ : jsstring) : option jsstring := Some blanks.

(** * Properties *)

(** ** Strings *)

Lemma jsstring_eqb_eq (a b : jsstring) : jsstring_eqb a b = true <-> a = b.
Proof.
  revert b; induction a as [|x a IH]; intros [|y b]; simpl; split;
    try congruence; try reflexivity.
  - intros H. apply andb_true_iff in H as [Hx Hr].
    apply N.eqb_eq in Hx. apply IH in Hr. congruence.
  - intros H. injection H as -> ->.
    rewrite N.eqb_refl. simpl. now apply IH.
Qed.

Lemma jsstring_eqb_refl (a : jsstring) : jsstring_eqb a a = true.
Proof. now apply jsstring_eqb_eq. Qed.

Lemma jsstring_eqb_neq (a b : jsstring) : jsstring_eqb a b = false <-> a <> b.
Proof.
  split.
  - intros H E. apply jsstring_eqb_eq in E. congruence.
  - intros H. destruct (jsstring_eqb a b) eqn:E; [|reflexivity].
    apply jsstring_eqb_eq in E. contradiction.
Qed.

Lemma jsstring_eqb_sym (a b : jsstring) : jsstring_eqb a b = jsstring_eqb b a.
Proof.
  destruct (jsstring_eqb b a) eqn:E.
  - apply jsstring_eqb_eq in E. subst. apply jsstring_eqb_refl.
  - apply jsstring_eqb_neq. apply jsstring_eqb_neq in E. congruence.
Qed.

Lemma trimStart_nil_iff (s : jsstring) :
  trimStart s = [] <-> forallb isWhiteSpace s = true.
Proof.
  induction s as [|c t IH]; simpl.
  - tauto.
  - destruct (isWhiteSpace c); simpl; [exact IH|].
    split; discriminate.
Qed.

Lemma trimStart_head (s : jsstring) c t :
  trimStart s = c :: t -> isWhiteSpace c = false.
Proof.
  induction s as [|x s IH]; simpl; [discriminate|].
  destruct (isWhiteSpace x) eqn:E; [exact IH|].
  intros H. injection H as -> _. exact E.
Qed.

Lemma trimStart_length (s : jsstring) : length (trimStart s) <= length s.
Proof.
  induction s as [|c t IH]; simpl; [lia|].
  destruct (isWhiteSpace c); simpl; lia.
Qed.

Lemma forallb_rev {A} (f : A -> bool) (l : list A) :
  forallb f (rev l) = forallb f l.
Proof.
  induction l as [|x l IH]; simpl; [reflexivity|].
  rewrite forallb_app, IH. simpl. rewrite andb_true_r. apply andb_comm.
Qed.

(** [trim] leaves nothing exactly of the strings made of white space. *)
Lemma trim_nil_iff (s : jsstring) :
  trim s = [] <-> forallb isWhiteSpace s = true.
Proof.
  unfold trim, trimEnd. split.
  - intros H.
    assert (H1 : trimStart (rev (trimStart s)) = []).
    { destruct (trimStart (rev (trimStart s))) as [|x l]; [reflexivity|].
      simpl in H. destruct (rev l); discriminate. }
    apply trimStart_nil_iff in H1. rewrite forallb_rev in H1.
    destruct (trimStart s) as [|c t] eqn:E.
    + now apply trimStart_nil_iff.
    + apply trimStart_head in E. simpl in H1. rewrite E in H1. discriminate.
  - intros H. apply trimStart_nil_iff in H. rewrite H. reflexivity.
Qed.

Lemma truthy_trim (s : jsstring) :
  truthy (trim s) = negb (forallb isWhiteSpace s).
Proof.
  destruct (forallb isWhiteSpace s) eqn:E.
  - apply trim_nil_iff in E. rewrite E. reflexivity.
  - destruct (trim s) eqn:T; [|reflexivity].
    apply trim_nil_iff in T. congruence.
Qed.

Lemma trim_length (s : jsstring) : length (trim s) <= length s.
Proof.
  unfold trim, trimEnd. rewrite length_rev.
  etransitivity; [apply trimStart_length|].
  rewrite length_rev. apply trimStart_length.
Qed.

(** A string that neither starts nor ends with white space is its own
    trimmed form. *)
Lemma trim_fixed (c : N) (mid : jsstring) (d : N) :
  isWhiteSpace c = false -> isWhiteSpace d = false ->
  trim (c :: mid ++ [d]) = c :: mid ++ [d].
Proof.
  intros Hc Hd. unfold trim, trimEnd.
  assert (E1 : trimStart (c :: mid ++ [d]) = (c :: mid) ++ [d]).
  { simpl. now rewrite Hc. }
  rewrite E1, rev_unit.
  assert (E2 : trimStart (d :: rev (c :: mid)) = d :: rev (c :: mid)).
  { cbn [trimStart]. now rewrite Hd. }
  rewrite E2.
  change (rev (d :: rev (c :: mid))) with (rev (rev (c :: mid)) ++ [d]).
  now rewrite rev_involutive.
Qed.

(** ** Numbers: rounding to the nearest *)

Section Rounding.

Local Open Scope Z_scope.

Lemma digits2_pos_bounds p :
  2 ^ (Zpos (digits2_pos p) - 1) <= Zpos p < 2 ^ Zpos (digits2_pos p).
Proof.
  induction p as [p IH|p IH|]; cbn [digits2_pos].
  - rewrite Pos2Z.inj_succ, (Pos2Z.inj_xI p).
    replace (Z.succ (Zpos (digits2_pos p)) - 1)
      with (Z.succ (Zpos (digits2_pos p) - 1)) by lia.
    rewrite !Z.pow_succ_r by lia.
    revert IH. generalize (2 ^ (Zpos (digits2_pos p) - 1)),
      (2 ^ Zpos (digits2_pos p)). lia.
  - rewrite Pos2Z.inj_succ, (Pos2Z.inj_xO p).
    replace (Z.succ (Zpos (digits2_pos p)) - 1)
      with (Z.succ (Zpos (digits2_pos p) - 1)) by lia.
    rewrite !Z.pow_succ_r by lia.
    revert IH. generalize (2 ^ (Zpos (digits2_pos p) - 1)),
      (2 ^ Zpos (digits2_pos p)). lia.
  - cbn. lia.
Qed.

Lemma digits2_pos_le p b : 0 <= b -> Zpos p < 2 ^ b -> Zpos (digits2_pos p) <= b.
Proof.
  intros Hb H. destruct (digits2_pos_bounds p) as [Hlo _].
  assert (L : 2 ^ (Zpos (digits2_pos p) - 1) < 2 ^ b) by lia.
  apply Z.pow_lt_mono_r_iff in L; lia.
Qed.

Lemma iter_pos_nat {A} (f : A -> A) p x :
  iter_pos f p x = Nat.iter (Pos.to_nat p) f x.
Proof.
  revert x; induction p as [p IH|p IH|]; intros x; cbn [iter_pos].
  - rewrite !IH, Pos2Nat.inj_xI.
    replace (S (2 * Pos.to_nat p))%nat
      with (Pos.to_nat p + (Pos.to_nat p + 1))%nat by lia.
    rewrite !Nat.iter_add. reflexivity.
  - rewrite !IH, Pos2Nat.inj_xO.
    replace (2 * Pos.to_nat p)%nat
      with (Pos.to_nat p + Pos.to_nat p)%nat by lia.
    rewrite Nat.iter_add. reflexivity.
  - reflexivity.
Qed.

Lemma shr_1_nonneg m r s :
  0 <= m ->
  shr_1 (Build_shr_record m r s) = Build_shr_record (m / 2) (Z.odd m) (r || s).
Proof.
  intros H. rewrite <- Z.div2_div.
  destruct m as [|[p|p|]|p]; try reflexivity. lia.
Qed.

Lemma shifted_first M :
  0 <= M -> shifted M 1 (shr_1 (Build_shr_record M false false)).
Proof.
  intros H. rewrite shr_1_nonneg by assumption. unfold shifted.
  cbn [shr_m shr_r shr_s orb]. change (2 ^ 1) with 2. change (2 ^ (1 - 1)) with 1.
  rewrite Zodd_mod. pose proof (Z.mod_pos_bound M 2 eq_refl).
  repeat split.
  - destruct (Z.eqb_spec (M mod 2) 1), (Z.leb_spec 1 (M mod 2)); lia.
  - destruct (Z.eqb_spec (M mod 2) 0), (Z.eqb_spec (M mod 2) 1);
      cbn; lia.
Qed.

Lemma shifted_next M k mrs :
  0 <= M -> 1 <= k -> shifted M k mrs -> shifted M (k + 1) (shr_1 mrs).
Proof.
  intros HM Hk. destruct mrs as [m r s]. unfold shifted.
  cbn [shr_m shr_r shr_s]. intros (-> & -> & ->).
  assert (HP : 0 < 2 ^ k) by (apply Z.pow_pos_nonneg; lia).
  assert (HH : 2 ^ k = 2 * 2 ^ (k - 1)).
  { rewrite <- Z.pow_succ_r by lia. f_equal. lia. }
  assert (HH' : 0 < 2 ^ (k - 1)) by (apply Z.pow_pos_nonneg; lia).
  rewrite shr_1_nonneg by (apply Z.div_pos; lia).
  cbn [shr_m shr_r shr_s].
  replace (k + 1 - 1) with k by lia.
  assert (E1 : 2 ^ (k + 1) = 2 ^ k * 2) by (rewrite Z.pow_add_r by lia; reflexivity).
  rewrite E1, Z.rem_mul_r, <- Z.div_div by lia.
  rewrite Zodd_mod.
  pose proof (Z.mod_pos_bound M (2 ^ k) HP) as B1.
  pose proof (Z.mod_pos_bound (M / 2 ^ k) 2 eq_refl) as B2.
  set (rem := M mod 2 ^ k) in *. set (b := (M / 2 ^ k) mod 2) in *.
  set (P := 2 ^ k) in *. set (H := 2 ^ (k - 1)) in *.
  assert (Hb : b = 0 \/ b = 1) by lia.
  repeat split.
  - destruct Hb as [-> | ->]; destruct (Z.leb_spec P (rem + P * 0));
      destruct (Z.leb_spec P (rem + P * 1)); cbn; lia.
  - destruct Hb as [-> | ->];
      destruct (Z.leb_spec H rem), (Z.eqb_spec rem 0), (Z.eqb_spec rem H);
      try destruct (Z.eqb_spec (rem + P * 0) 0);
      try destruct (Z.eqb_spec (rem + P * 0) P);
      try destruct (Z.eqb_spec (rem + P * 1) 0);
      try destruct (Z.eqb_spec (rem + P * 1) P);
      cbn; lia.
Qed.

Lemma shifted_iter M n :
  0 <= M ->
  shifted M (Z.of_nat (S n))
    (Nat.iter (S n) shr_1 (Build_shr_record M false false)).
Proof.
  intros HM. induction n as [|n IH].
  - apply shifted_first; assumption.
  - rewrite Nat.iter_succ.
    replace (Z.of_nat (S (S n))) with (Z.of_nat (S n) + 1) by lia.
    apply shifted_next; [assumption|lia|exact IH].
Qed.

(** What rounding to nearest leaves of [M] after a shift by [p] places:
    the quotient, or its successor when the remainder is at least a
    half. *)
Lemma shr_round M p :
  0 <= M ->
  let mrs := iter_pos shr_1 p (Build_shr_record M false false) in
  exists q rem,
    M = 2 ^ Zpos p * q + rem /\ 0 <= rem < 2 ^ Zpos p /\ 0 <= q
    /\ (round_nearest_even (shr_m mrs) (loc_of_shr_record mrs) = q
        \/ (round_nearest_even (shr_m mrs) (loc_of_shr_record mrs) = q + 1
            /\ 2 ^ (Zpos p - 1) <= rem)).
Proof.
  intros HM mrs. unfold mrs. rewrite iter_pos_nat.
  destruct (Pos2Nat.is_succ p) as [n Hn]. rewrite Hn.
  pose proof (shifted_iter M n HM) as Sh.
  replace (Z.of_nat (S n)) with (Zpos p) in Sh by lia.
  destruct (Nat.iter (S n) shr_1 _) as [m r s].
  destruct Sh as (Em & Er & Es). cbn [shr_m shr_r shr_s] in *.
  assert (HP : 0 < 2 ^ Zpos p) by (apply Z.pow_pos_nonneg; lia).
  exists (M / 2 ^ Zpos p), (M mod 2 ^ Zpos p).
  split; [apply Z.div_mod; lia|]. split; [apply Z.mod_pos_bound; lia|].
  split; [apply Z.div_pos; lia|].
  subst m. destruct r, s; cbn [loc_of_shr_record round_nearest_even].
  - right. split; [reflexivity|]. symmetry in Er. apply Z.leb_le in Er. exact Er.
  - symmetry in Er. apply Z.leb_le in Er.
    destruct (Z.even _); [now left|right; now split].
  - now left.
  - now left.
Qed.

Lemma shr_fexp_exact m e :
  shr_fexp 53 1024 m e loc_Exact =
    match fexp 53 1024 (Zdigits2 m + e) - e with
    | Zpos p =>
        (iter_pos shr_1 p (Build_shr_record m false false),
         e + (fexp 53 1024 (Zdigits2 m + e) - e))
    | _ => (Build_shr_record m false false, e)
    end.
Proof. reflexivity. Qed.

Lemma renormalize_small m e :
  0 <= m < 2 ^ 53 -> -1074 <= e <= 971 -> renormalize m e = nonneg m e.
Proof.
  intros Hm He. unfold renormalize. rewrite shr_fexp_exact.
  assert (Hs : fexp 53 1024 (Zdigits2 m + e) - e <= 0).
  { unfold fexp, emin. destruct m as [|p|p]; cbn [Zdigits2]; [lia| |lia].
    assert (Zpos (digits2_pos p) <= 53) by (apply digits2_pos_le; lia). lia. }
  destruct (fexp 53 1024 (Zdigits2 m + e) - e) as [|p|p]; [|lia|];
    cbn [shr_m]; destruct m as [|q|q]; try reflexivity; try lia;
    cbn [nonneg]; replace (e <=? 1024 - 53) with true; try reflexivity;
    symmetry; apply Z.leb_le; lia.
Qed.

Lemma renormalize_carry e :
  -1074 <= e < 971 ->
  renormalize (2 ^ 53) e = S754_finite false (2 ^ 52) (e + 1).
Proof.
  intros He. unfold renormalize. rewrite shr_fexp_exact.
  change (Zdigits2 (2 ^ 53)) with 54.
  replace (fexp 53 1024 (54 + e) - e) with 1 by (unfold fexp, emin; lia).
  cbn [iter_pos]. replace (e + 1 <=? 1024 - 53) with true
    by (symmetry; apply Z.leb_le; lia). change (2 ^ 53) with 9007199254740992.
  reflexivity.
Qed.

(** The result of rounding the exact value [M * 2 ^ X].  With [E] the
    exponent the format gives numbers of this size and [D] the step of
    its grid in units of [2 ^ X], the result is at most half a step
    from the value, and a point of the grid above or below the value is
    above or below the result. *)
Lemma binary_round_aux_value (M : positive) (X : Z) :
  let E := fexp 53 1024 (Zpos (digits2_pos M) + X) in
  let D := 2 ^ Z.max 0 (E - X) in
  X <= 971 -> E < 971 ->
  exists mz e',
    binary_round_aux 53 1024 false (Zpos M) X loc_Exact = nonneg mz e'
    /\ 0 <= mz /\ X <= e' <= Z.max X (E + 1)
    /\ 2 * (mz * 2 ^ (e' - X)) <= 2 * Zpos M + D
    /\ (forall N, Zpos M <= N * D -> mz * 2 ^ (e' - X) <= N * D)
    /\ (forall N, N * D <= Zpos M -> N * D <= mz * 2 ^ (e' - X)).
Proof.
  intros E D HX HE.
  assert (Emin : -1074 <= E) by (unfold E, fexp, emin; lia).
  destruct (Z_le_gt_dec E X) as [Hle|Hgt].
  - exists (Zpos M), X.
    assert (HD : D = 1).
    { unfold D. replace (Z.max 0 (E - X)) with 0 by lia. reflexivity. }
    rewrite HD, Z.sub_diag. change (2 ^ 0) with 1.
    split.
    + unfold binary_round_aux. rewrite shr_fexp_exact. cbn [Zdigits2].
      fold E. destruct (E - X) as [|p|p] eqn:Ep; [|lia|];
        cbn [shr_m loc_of_shr_record round_nearest_even];
        rewrite shr_fexp_exact; cbn [Zdigits2]; fold E; rewrite Ep;
        cbn [shr_m nonneg]; replace (X <=? 1024 - 53) with true;
        try reflexivity; symmetry; apply Z.leb_le; lia.
    + split; [lia|]. split; [lia|]. split; [lia|]. split; intros N; lia.
  - assert (Ep : exists p, E - X = Zpos p).
    { destruct (E - X) as [|p|p] eqn:Ep; try lia. now exists p. }
    destruct Ep as [p Ep].
    assert (HD : D = 2 ^ Zpos p).
    { unfold D. rewrite Ep. reflexivity. }
    assert (HDpos : 0 < D) by (rewrite HD; apply Z.pow_pos_nonneg; lia).
    assert (HDhalf : D = 2 * 2 ^ (Zpos p - 1)).
    { rewrite HD, <- Z.pow_succ_r by lia. f_equal. lia. }
    assert (Hhalf : 0 < 2 ^ (Zpos p - 1)) by (apply Z.pow_pos_nonneg; lia).
    pose proof (shr_round (Zpos M) p (Pos2Z.is_nonneg M)) as R.
    cbv zeta in R. destruct R as (q & rem & HM & Hrem & Hq & HR).
    rewrite <- HD in HM, Hrem.
    assert (Hq53 : q < 2 ^ 53).
    { destruct (digits2_pos_bounds M) as [_ Hhi].
      assert (L : 2 ^ Zpos (digits2_pos M) <= D * 2 ^ 53).
      { rewrite HD, <- Z.pow_add_r by lia. apply Z.pow_le_mono_r; [lia|].
        unfold E, fexp, emin in Ep. lia. }
      nia. }
    set (mrs := iter_pos shr_1 p (Build_shr_record (Zpos M) false false)) in *.
    set (RN := round_nearest_even (shr_m mrs) (loc_of_shr_record mrs)) in *.
    assert (Hbra : binary_round_aux 53 1024 false (Zpos M) X loc_Exact =
                   renormalize RN E).
    { unfold binary_round_aux. rewrite shr_fexp_exact. cbn [Zdigits2].
      fold E. rewrite Ep. fold mrs. cbv beta iota. fold RN.
      replace (X + Zpos p) with E by lia. reflexivity. }
    assert (HRN : 0 <= RN <= 2 ^ 53) by lia.
    assert (Hval : exists mz e',
               renormalize RN E = nonneg mz e' /\ 0 <= mz
               /\ E <= e' <= E + 1 /\ mz * 2 ^ (e' - E) = RN).
    { destruct (Z.eq_dec RN (2 ^ 53)) as [Hc|Hc].
      - exists (2 ^ 52), (E + 1). rewrite Hc, renormalize_carry by lia.
        split; [reflexivity|]. split; [lia|]. split; [lia|].
        replace (E + 1 - E) with 1 by lia. reflexivity.
      - exists RN, E. rewrite renormalize_small by lia.
        split; [reflexivity|]. split; [lia|]. split; [lia|].
        rewrite Z.sub_diag. change (2 ^ 0) with 1. lia. }
    destruct Hval as (mz & e' & Hy & Hmz & He' & Hv).
    exists mz, e'. rewrite Hbra. split; [exact Hy|]. split; [exact Hmz|].
    split; [lia|].
    assert (HV : mz * 2 ^ (e' - X) = RN * D).
    { replace (e' - X) with ((e' - E) + Zpos p) by lia.
      rewrite Z.pow_add_r, Z.mul_assoc, Hv, HD by lia. reflexivity. }
    rewrite HV. clear HV Hv Hy Hbra HRN Hq53 HD Ep.
    set (H := 2 ^ (Zpos p - 1)) in *. clearbody H RN D.
    split; [|split].
    + destruct HR as [->|[-> Hr]]; lia.
    + intros N HN. destruct HR as [->|[-> Hr]]; [lia|].
      assert (L : q < N) by (apply (Z.mul_lt_mono_pos_l D); lia).
      apply Z.mul_le_mono_nonneg_r; lia.
    + intros N HN.
      assert (L : N < q + 1) by (apply (Z.mul_lt_mono_pos_l D); lia).
      assert (L' : N * D <= q * D) by (apply Z.mul_le_mono_nonneg_r; lia).
      destruct HR as [->|[-> Hr]]; lia.
Qed.

Lemma pow2_add a b : 0 <= a -> 0 <= b -> 2 ^ a * 2 ^ b = 2 ^ (a + b).
Proof. intros. now rewrite Z.pow_add_r. Qed.

Lemma pow2_pos a : 0 <= a -> 0 < 2 ^ a.
Proof. intros. now apply Z.pow_pos_nonneg. Qed.

(** Rounding keeps a value between two integers between them. *)
Lemma round_between (M : positive) (X lo hi b : Z) :
  X <= 0 -> 0 <= lo -> hi < 2 ^ b -> 0 <= b <= 52 ->
  lo * 2 ^ (- X) <= Zpos M <= hi * 2 ^ (- X) ->
  exists mz e',
    binary_round_aux 53 1024 false (Zpos M) X loc_Exact = nonneg mz e'
    /\ X <= e' <= Z.max X (b - 52)
    /\ lo * 2 ^ (- e') <= mz <= hi * 2 ^ (- e').
Proof.
  intros HX Hlo Hhi Hb [HMlo HMhi].
  pose proof (pow2_pos (- X) ltac:(lia)) as HPX.
  assert (Hd : Zpos (digits2_pos M) + X <= b).
  { assert (L : Zpos M < 2 ^ (b - X)).
    { replace (b - X) with (b + - X) by lia.
      rewrite <- (pow2_add b (- X)) by lia.
      apply Z.le_lt_trans with (1 := HMhi).
      apply Z.mul_lt_mono_pos_r; lia. }
    apply digits2_pos_le in L; lia. }
  destruct (binary_round_aux_value M X) as (mz & e' & Hy & Hmz & He' & _ & Hb' & Hc');
    [lia|unfold fexp, emin; lia|].
  set (E := fexp 53 1024 (Zpos (digits2_pos M) + X)) in *.
  assert (HE : -1074 <= E <= b - 53) by (unfold E, fexp, emin; lia).
  set (j := Z.max 0 (E - X)) in *.
  assert (Hj : 0 <= j <= - X) by lia.
  assert (Hgrid : forall A, A * 2 ^ (- X - j) * 2 ^ j = A * 2 ^ (- X)).
  { intros A. rewrite <- Z.mul_assoc, pow2_add by lia. do 2 f_equal. lia. }
  exists mz, e'. split; [exact Hy|]. split; [lia|].
  assert (Hsc : forall A, A * 2 ^ (- e') * 2 ^ (e' - X) = A * 2 ^ (- X)).
  { intros A. rewrite <- Z.mul_assoc, pow2_add by lia. do 2 f_equal. lia. }
  pose proof (pow2_pos (e' - X) ltac:(lia)) as HPe.
  split.
  - apply (Z.mul_le_mono_pos_r _ _ (2 ^ (e' - X))); [exact HPe|].
    rewrite Hsc, <- Hgrid. apply Hc'. rewrite Hgrid. exact HMlo.
  - apply (Z.mul_le_mono_pos_r _ _ (2 ^ (e' - X))); [exact HPe|].
    rewrite Hsc, <- Hgrid. apply Hb'. rewrite Hgrid. exact HMhi.
Qed.

Lemma toQ_nonneg_between (mz e' lo hi : Z) :
  e' < 0 -> 0 < mz -> lo * 2 ^ (- e') <= mz <= hi * 2 ^ (- e') ->
  (inject_Z lo <= Number.toQ (nonneg mz e') <= inject_Z hi)%Q.
Proof.
  intros He Hm [H1 H2]. destruct mz as [|m|m]; try lia.
  destruct e' as [|p|p]; try lia. cbn [nonneg Number.toQ cond_Zopp].
  change (- Zneg p) with (Zpos p) in *.
  unfold Qle. cbn [Qnum Qden inject_Z]. rewrite Pos2Z.inj_pow. lia.
Qed.

Lemma Pos_iter_xO m d : Zpos (Pos.iter xO m d) = Zpos m * 2 ^ Zpos d.
Proof.
  induction d as [|d IH] using Pos.peano_ind.
  - cbn [Pos.iter]. rewrite (Pos2Z.inj_xO m). change (2 ^ 1) with 2. lia.
  - rewrite Pos.iter_succ, (Pos2Z.inj_xO (Pos.iter xO m d)), IH,
      Pos2Z.inj_succ, Z.pow_succ_r by lia. lia.
Qed.

Lemma shl_align_spec mx ex ex' :
  exists m' e',
    shl_align mx ex ex' = (m', e') /\ e' = Z.min ex ex'
    /\ Zpos m' = Zpos mx * 2 ^ (ex - e').
Proof.
  unfold shl_align. destruct (ex' - ex) as [|d|d] eqn:Ed.
  - exists mx, ex. split; [reflexivity|]. split; [lia|].
    rewrite Z.sub_diag. change (2 ^ 0) with 1. lia.
  - exists mx, ex. split; [reflexivity|]. split; [lia|].
    rewrite Z.sub_diag. change (2 ^ 0) with 1. lia.
  - exists (Pos.iter xO mx d), ex'. split; [reflexivity|]. split; [lia|].
    rewrite Pos_iter_xO. do 2 f_equal. lia.
Qed.

Lemma unitDraw_finite m e :
  unitDraw (S754_finite false m e) = true ->
  Zpos m < 2 ^ 53 /\ -1074 <= e <= -53.
Proof.
  unfold unitDraw, bounded, canonical_mantissa. intros H.
  apply andb_true_iff in H as [H1 H2]. apply andb_true_iff in H1 as [Hc _].
  apply Z.eqb_eq in Hc. apply negb_true_iff in H2.
  destruct (digits2_pos_bounds m) as [Hlo Hhi].
  assert (Hd : Zpos (digits2_pos m) <= 53) by (unfold fexp, emin in Hc; lia).
  assert (Hm : Zpos m < 2 ^ 53).
  { apply Z.lt_le_trans with (1 := Hhi). apply Z.pow_le_mono_r; lia. }
  split; [exact Hm|]. split; [unfold fexp, emin in Hc; lia|].
  destruct e as [|p|p].
  - exfalso. cbn [Number.toQ cond_Zopp] in H2.
    assert (Q : Qle_bool 1 (inject_Z (Zpos m * 2 ^ 0)) = true).
    { apply Qle_bool_iff. unfold Qle. cbn [Qnum Qden inject_Z]. lia. }
    congruence.
  - exfalso. cbn [Number.toQ cond_Zopp] in H2.
    assert (Q : Qle_bool 1 (inject_Z (Zpos m * 2 ^ Zpos p)) = true).
    { apply Qle_bool_iff. unfold Qle. cbn [Qnum Qden inject_Z].
      pose proof (pow2_pos (Zpos p) ltac:(lia)). nia. }
    congruence.
  - cbn [Number.toQ cond_Zopp] in H2.
    assert (L : Zpos m < 2 ^ Zpos p).
    { destruct (Z_lt_ge_dec (Zpos m) (2 ^ Zpos p)) as [L|L]; [exact L|].
      exfalso.
      assert (Q : Qle_bool 1 (Zpos m # 2 ^ p) = true).
      { apply Qle_bool_iff. unfold Qle. cbn [Qnum Qden].
        rewrite Pos2Z.inj_pow. lia. }
      congruence. }
    destruct (Z.eq_dec (Zneg p) (-1074)) as [->|Hne]; [lia|].
    assert (Hd53 : Zpos (digits2_pos m) = 53) by (unfold fexp, emin in Hc; lia).
    rewrite Hd53 in Hlo. change (53 - 1) with 52 in Hlo.
    assert (L2 : 2 ^ 52 < 2 ^ Zpos p) by lia.
    apply Z.pow_lt_mono_r_iff in L2; lia.
Qed.

Lemma ofZ_7 : Number.ofZ 7 = S754_finite false 7881299347898368 (-50).
Proof. reflexivity. Qed.

Lemma ofZ_1000 : Number.ofZ 1000 = S754_finite false 8796093022208000 (-43).
Proof. reflexivity. Qed.

Lemma ofZ_2000 : Number.ofZ 2000 = S754_finite false 8796093022208000 (-42).
Proof. reflexivity. Qed.

(** [Math.floor(r * 7)] is one of 0, ..., 6: the product of a draw below
    1 and 7, rounded to the nearest number, stays below 7. *)
Lemma floor_draw_times_7 r :
  unitDraw r = true ->
  exists i, Number.floor (Number.mul r (Number.ofZ 7)) = Some i /\ 0 <= i < 7.
Proof.
  intros Hr. rewrite ofZ_7. destruct r as [[|]|[|]| |[|] m e]; try discriminate.
  - exists 0. split; [reflexivity|lia].
  - destruct (unitDraw_finite m e Hr) as (Hm & He).
    unfold Number.mul, SFmul. cbn [xorb].
    set (M := (m * 7881299347898368)%positive).
    assert (HM : Zpos M = Zpos m * 7881299347898368) by reflexivity.
    assert (Hd : Zpos (digits2_pos M) <= 106).
    { apply digits2_pos_le; [lia|]. rewrite HM.
      change (2 ^ 106) with (2 ^ 53 * 2 ^ 53). change (2 ^ 53) with 9007199254740992 in *. lia. }
    destruct (binary_round_aux_value M (e + -50))
      as (mz & e' & Hy & Hmz & He' & Ha & _); [lia|unfold fexp, emin; lia|].
    set (E := fexp 53 1024 (Zpos (digits2_pos M) + (e + -50))) in *.
    assert (HE : -1074 <= E <= e + 3) by (unfold E, fexp, emin; lia).
    assert (HD : 2 ^ Z.max 0 (E - (e + -50)) <= 2 ^ 53)
      by (apply Z.pow_le_mono_r; lia).
    rewrite Hy. destruct mz as [|p|p]; [exists 0; split; [reflexivity|lia]| |lia].
    destruct e' as [|pe|pe]; try lia.
    cbn [nonneg Number.floor Number.toQ cond_Zopp Qfloor].
    exists (Zpos p / Zpos (2 ^ pe)). split; [reflexivity|].
    rewrite Pos2Z.inj_pow.
    pose proof (pow2_pos (Zpos pe) ltac:(lia)) as HP.
    split; [apply Z.div_pos; lia|].
    apply Z.div_lt_upper_bound; [exact HP|].
    pose proof (pow2_pos (Zneg pe - (e + -50)) ltac:(lia)) as HP'.
    apply (Z.mul_lt_mono_pos_r (2 ^ (Zneg pe - (e + -50)))); [exact HP'|].
    assert (EQ : 2 ^ Zpos pe * 7 * 2 ^ (Zneg pe - (e + -50)) =
                 7 * 2 ^ 103 * 2 ^ (- e - 53)).
    { rewrite (Z.mul_comm (2 ^ Zpos pe) 7), <- !Z.mul_assoc, !pow2_add by lia.
      do 2 f_equal. lia. }
    rewrite EQ. clear EQ.
    pose proof (pow2_pos (- e - 53) ltac:(lia)) as HP''.
    assert (L : 2 * (Zpos p * 2 ^ (Zneg pe - (e + -50))) < 2 * (7 * 2 ^ 103)).
    { change (2 ^ 103) with 10141204801825835211973625643008.
      change (2 ^ 53) with 9007199254740992 in *. lia. }
    change (2 ^ 103) with 10141204801825835211973625643008 in *.
    nia.
Qed.

(** The product of a draw and 2000 is at most 2000. *)
Lemma draw_times_2000 m e :
  unitDraw (S754_finite false m e) = true ->
  exists mz e',
    Number.mul (S754_finite false m e) (Number.ofZ 2000) = nonneg mz e'
    /\ e' <= -41 /\ 0 <= mz <= 2000 * 2 ^ (- e').
Proof.
  intros Hr. destruct (unitDraw_finite m e Hr) as (Hm & He).
  rewrite ofZ_2000. unfold Number.mul, SFmul. cbn [xorb].
  set (M := (m * 8796093022208000)%positive).
  assert (HM : Zpos M = Zpos m * 8796093022208000) by reflexivity.
  destruct (round_between M (e + -42) 0 2000 11)
    as (mz & e' & Hy & He' & Hv); try lia.
  - rewrite HM. split; [lia|].
    replace (- (e + -42)) with (95 + (- e - 53)) by lia.
    rewrite <- pow2_add by lia.
    pose proof (pow2_pos (- e - 53) ltac:(lia)) as HP.
    change (2 ^ 95) with 39614081257132168796771975168.
    change (2 ^ 53) with 9007199254740992 in *. nia.
  - exists mz, e'. split; [exact Hy|]. split; lia.
Qed.

(** The sum of 1000 and a number between 0 and 2000 lies between 1000
    and 3000. *)
Lemma add_1000 mz e' :
  e' <= -41 -> 0 <= mz <= 2000 * 2 ^ (- e') ->
  (1000 <= Number.toQ (Number.add (Number.ofZ 1000) (nonneg mz e')) <= 3000)%Q.
Proof.
  intros He' Hmz. rewrite ofZ_1000.
  destruct mz as [|mv|mv]; [split; discriminate| |lia].
  cbn [nonneg]. unfold Number.add, SFadd. cbn [cond_Zopp].
  set (ez := Z.min (-43) e').
  destruct (shl_align_spec 8796093022208000 (-43) ez) as (a & ea & Ea & Hea & Ha).
  destruct (shl_align_spec mv e' ez) as (b & eb & Eb & Heb & Hb).
  rewrite Ea, Eb. cbn [fst]. change (Zpos a + Zpos b) with (Zpos (a + b)).
  cbn [binary_normalize]. unfold binary_round.
  destruct (shl_align_spec (a + b) ez
              (fexp 53 1024 (Zpos (digits2_pos (a + b)) + ez)))
    as (M & X & EM & HX & HM).
  rewrite EM.
  assert (Hsum : 1000 * 2 ^ (- ez) <= Zpos (a + b) <= 3000 * 2 ^ (- ez)).
  { rewrite Pos2Z.inj_add, Ha, Hb.
    replace ea with ez by lia. replace eb with ez by lia.
    assert (A1 : 8796093022208000 * 2 ^ (-43 - ez) = 1000 * 2 ^ (- ez)).
    { change 8796093022208000 with (1000 * 2 ^ 43).
      rewrite <- Z.mul_assoc, pow2_add by lia. do 2 f_equal. lia. }
    assert (A2 : Zpos mv * 2 ^ (e' - ez) <= 2000 * 2 ^ (- ez)).
    { replace (- ez) with (- e' + (e' - ez)) by lia.
      rewrite <- pow2_add, Z.mul_assoc by lia.
      apply Z.mul_le_mono_nonneg_r; [|lia].
      apply Z.lt_le_incl, pow2_pos; lia. }
    pose proof (pow2_pos (e' - ez) ltac:(lia)). nia. }
  assert (HMX : 1000 * 2 ^ (- X) <= Zpos M <= 3000 * 2 ^ (- X)).
  { rewrite HM. replace (- X) with (- ez + (ez - X)) by lia.
    rewrite <- pow2_add, !Z.mul_assoc by lia.
    pose proof (pow2_pos (ez - X) ltac:(lia)).
    split; apply Z.mul_le_mono_nonneg_r; lia. }
  destruct (round_between M X 1000 3000 12)
    as (mz & e1 & Hy & He1 & Hv); try lia.
  rewrite Hy. apply toQ_nonneg_between; [lia| |exact Hv].
  pose proof (pow2_pos (- e1) ltac:(lia)). lia.
Qed.

(** The delay of the reply, [1000 + r * 2000], lies between 1000 and
    3000. *)
Lemma reply_sum_range r :
  unitDraw r = true ->
  (1000 <= Number.toQ (Number.add (Number.ofZ 1000)
                         (Number.mul r (Number.ofZ 2000))) <= 3000)%Q.
Proof.
  intros Hr. destruct r as [[|]|[|]| |[|] m e]; try discriminate.
  - split; discriminate.
  - destruct (draw_times_2000 m e Hr) as (mz & e' & -> & He' & Hmz).
    now apply add_1000.
Qed.

(** The delay of the reply lies between 1000 and 3000. *)
Lemma reply_delay_range r :
  unitDraw r = true -> (1000 <= replyDelay r <= 3000)%Q.
Proof.
  intros Hr. destruct (reply_sum_range r Hr) as [Hlo Hhi].
  unfold replyDelay.
  set (x := Number.add (Number.ofZ 1000) (Number.mul r (Number.ofZ 2000)))
    in *.
  assert (Hf : 1000 <= Qfloor (Number.toQ x) <= 3000).
  { split.
    - change 1000 with (Qfloor (inject_Z 1000)). now apply Qfloor_resp_le.
    - change 3000 with (Qfloor (inject_Z 3000)). now apply Qfloor_resp_le. }
  assert (Hl : Number.toLong x = Qfloor (Number.toQ x)).
  { assert (H0 : Qle_bool 0 (Number.toQ x) = true).
    { apply Qle_bool_iff. apply Qle_trans with (2 := Hlo). discriminate. }
    unfold Number.toLong.
    destruct x as [s|s| |s m e];
      try (exfalso; apply (Qlt_not_le 0 1000 eq_refl); exact Hlo).
    cbv zeta. rewrite H0.
    rewrite Z.mod_small by (change (2 ^ 31) with 2147483648;
                           change (2 ^ 32) with 4294967296; lia).
    lia. }
  rewrite Hl. split; unfold Qle; cbn [Qnum Qden inject_Z]; lia.
Qed.

End Rounding.

(** ** Conversation threads *)

Lemma messages_setMessages f w : messages (setMessages f w) = f (messages w).
Proof. reflexivity. Qed.

Lemma messages_appendAll ms w : messages (appendAll ms w) = messages w ++ ms.
Proof.
  revert w; induction ms as [|m ms IH]; intros w; simpl.
  - now rewrite app_nil_r.
  - unfold appendAll in IH. rewrite IH. unfold appendMessage.
    rewrite messages_setMessages, <- app_assoc. reflexivity.
Qed.

Lemma getMessagesForDevice_In deviceId w x :
  In x (getMessagesForDevice deviceId w) <->
  In x (messages w) /\ msg_deviceId x = deviceId.
Proof.
  unfold getMessagesForDevice. rewrite filter_In.
  now rewrite jsstring_eqb_eq.
Qed.

(** C3.  [getMessagesForDevice deviceId] holds exactly the messages of
    the log whose [deviceId] is the key; appending a sequence of
    messages to the log extends each thread by the appended messages
    that carry its key, in the order of the appends, and leaves the
    threads of the other keys as they were; right after the append of
    [m] the thread of [m]'s device ends with [m]. *)
Theorem getMessagesForDevice_thread :
  forall (deviceId : jsstring) (w : World) (ms : list Message) (m : Message),
    (forall x, In x (getMessagesForDevice deviceId w) <->
               In x (messages w) /\ msg_deviceId x = deviceId)
    /\ Forall (fun x => msg_deviceId x = deviceId)
         (getMessagesForDevice deviceId w)
    /\ getMessagesForDevice deviceId (appendMessage m w) =
         getMessagesForDevice deviceId w
           ++ (if jsstring_eqb (msg_deviceId m) deviceId then [m] else [])
    /\ getMessagesForDevice deviceId (appendAll ms (firstRender None)) =
         filter (fun x => jsstring_eqb (msg_deviceId x) deviceId) ms
    /\ (forall d, last (getMessagesForDevice (msg_deviceId m)
                          (appendMessage m (appendAll ms w))) d = m).
Proof.
  intros deviceId w ms m.
  split; [intros x; apply getMessagesForDevice_In|].
  split.
  { apply Forall_forall. intros x Hx.
    now apply getMessagesForDevice_In in Hx. }
  split.
  { unfold getMessagesForDevice, appendMessage.
    rewrite messages_setMessages, filter_app. simpl.
    now destruct (jsstring_eqb (msg_deviceId m) deviceId). }
  split.
  { unfold getMessagesForDevice. now rewrite messages_appendAll. }
  intros d. unfold getMessagesForDevice, appendMessage.
  rewrite messages_setMessages, filter_app. simpl.
  rewrite jsstring_eqb_refl. apply last_last.
Qed.

(** ** The steps of the page *)

Lemma mount_world supported stored w :
  mount supported stored = Some w ->
  exists ms,
    w = mkWorld false simulatedDevices [] ms [] None supported [] [] []
          (Some (JSON.stringify (messagesToJson ms))) 0.
Proof.
  unfold mount, loadMessages. simpl.
  destruct stored as [saved|].
  - destruct (truthy saved).
    + destruct (JSON.parse saved) as [v|]; [|discriminate].
      destruct (messagesOfJson v) as [ms|]; [|discriminate].
      intros H. injection H as <-. now exists ms.
    + intros H. injection H as <-. now exists [].
  - intros H. injection H as <-. now exists [].
Qed.

(** What a step did, handler by handler. *)
Lemma step_cases e w w' :
  step e w = Some w' ->
  (isScanning w = false /\ w' = scanForDevices w)
  \/ (exists outcome randomId found rest,
        requests w = found :: rest
        /\ w' = scanSettled outcome randomId found (withRequests rest w))
  \/ (exists device,
        In device (devices w) /\ dev_connected device = false
        /\ w' = connectToDevice device w)
  \/ (exists device,
        In device (devices w) /\ dev_connected device = true
        /\ w' = disconnectDevice device w)
  \/ (exists device,
        In device (connectedDevices w)
        /\ w' = setSelectedDevice (Some device) w)
  \/ (exists text,
        selectedDevice w <> None /\ length text <= 500
        /\ w' = setCurrentMessage text w)
  \/ (exists randomId now r,
        selectedDevice w <> None /\ unitDraw r = true
        /\ w' = sendMessage randomId now r w)
  \/ (exists dt, w' = advance dt w)
  \/ (exists k t randomId now r,
        nth_error (timers w) k = Some t /\ unitDraw r = true
        /\ w' = runCallback (timer_action t) randomId now r
                  (withTimers (removeNth k (timers w)) w)).
Proof.
  destruct e as [|outcome randomId|i|j|text|randomId now r|dt
                 |k randomId now r];
    simpl.
  - destruct (isScanning w) eqn:E; [discriminate|].
    intros H; injection H as <-. now left.
  - destruct (requests w) as [|found rest] eqn:E; [discriminate|].
    intros H; injection H as <-. right; left.
    now exists outcome, randomId, found, rest.
  - destruct (nth_error (devices w) i) as [device|] eqn:E; [|discriminate].
    intros H; injection H as <-. apply nth_error_In in E.
    destruct (dev_connected device) eqn:C.
    + do 3 right; left. now exists device.
    + do 2 right; left. now exists device.
  - destruct (nth_error (connectedDevices w) j) as [device|] eqn:E;
      [|discriminate].
    intros H; injection H as <-. apply nth_error_In in E.
    do 4 right; left. now exists device.
  - destruct (selectedDevice w) eqn:E; [|discriminate].
    destruct (length text <=? 500) eqn:L; [|discriminate].
    intros H; injection H as <-. apply Nat.leb_le in L.
    do 5 right; left. exists text. repeat split; auto; discriminate.
  - destruct (selectedDevice w) eqn:E; [|discriminate].
    destruct (unitDraw r) eqn:U; [|discriminate].
    intros H; injection H as <-.
    do 6 right; left. exists randomId, now, r. repeat split; auto; discriminate.
  - destruct (Qle_bool 0 dt); [|discriminate].
    intros H; injection H as <-. do 7 right; left. now exists dt.
  - destruct (nth_error (timers w) k) as [t|] eqn:E; [|discriminate].
    destruct (Qle_bool (timer_due t) (clock w)); [|discriminate].
    destruct (unitDraw r) eqn:U; [|discriminate].
    intros H; injection H as <-.
    do 8 right. now exists k, t, randomId, now, r.
Qed.

Ltac step_inv H :=
  apply step_cases in H;
  destruct H as [[? ->]|[(?outcome & ?randomId & ?found & ?rest & ? & ->)
    |[(?device & ? & ? & ->)|[(?device & ? & ? & ->)|[(?device & ? & ->)
    |[(?text & ? & ? & ->)|[(?randomId & ?now & ?r & ? & ? & ->)
    |[(?dt & ->)
    |(?k & ?t & ?randomId & ?now & ?r & ? & ? & ->)]]]]]]]].

(** The handlers by the part of the state they touch. *)

Lemma scanSettled_currentMessage o rid found w :
  currentMessage (scanSettled o rid found w) = currentMessage w.
Proof.
  unfold scanSettled. destruct o as [id [name|]|]; try reflexivity.
  now destruct (truthy name).
Qed.

Lemma scanSettled_selection o rid found w :
  selectedDevice (scanSettled o rid found w) = selectedDevice w
  /\ connectedDevices (scanSettled o rid found w) = connectedDevices w.
Proof.
  unfold scanSettled. destruct o as [id [name|]|]; try (split; reflexivity).
  now destruct (truthy name).
Qed.

Lemma runCallback_currentMessage a rid now r w :
  currentMessage (runCallback a rid now r w) = currentMessage w.
Proof. now destruct a. Qed.

Lemma runCallback_selection a rid now r w :
  selectedDevice (runCallback a rid now r w) = selectedDevice w
  /\ connectedDevices (runCallback a rid now r w) = connectedDevices w
  /\ devices (runCallback a rid now r w) = devices w.
Proof. now destruct a. Qed.

Lemma sendMessage_selection rid now r w :
  selectedDevice (sendMessage rid now r w) = selectedDevice w
  /\ connectedDevices (sendMessage rid now r w) = connectedDevices w
  /\ devices (sendMessage rid now r w) = devices w.
Proof.
  unfold sendMessage.
  destruct (truthy (trim (currentMessage w))); [|auto].
  destruct (selectedDevice w) as [sel|] eqn:E; simpl; auto.
Qed.

Lemma disconnectDevice_parts device w :
  connectedDevices (disconnectDevice device w) =
    filter (fun d => negb (jsstring_eqb (dev_id d) (dev_id device)))
      (connectedDevices w)
  /\ devices (disconnectDevice device w) =
       markConnected false device (devices w)
  /\ selectedDevice (disconnectDevice device w) =
       match selectedDevice w with
       | Some sel =>
           if jsstring_eqb (dev_id sel) (dev_id device) then None else Some sel
       | None => None
       end
  /\ currentMessage (disconnectDevice device w) = currentMessage w.
Proof.
  unfold disconnectDevice.
  destruct (selectedDevice w) as [sel|] eqn:E; simpl.
  - destruct (jsstring_eqb (dev_id sel) (dev_id device)); simpl;
      repeat split; auto.
  - repeat split; auto.
Qed.

(** The input field never holds more than its [maxLength]. *)
Lemma reachable_input_bounded w :
  reachable w -> length (currentMessage w) <= 500.
Proof.
  induction 1 as [supported stored w Hm|e w w' Hr IH Hs].
  - apply mount_world in Hm as [ms ->]. simpl. lia.
  - step_inv Hs; try exact IH.
    + unfold scanForDevices. now destruct (bluetoothSupported w).
    + now rewrite scanSettled_currentMessage.
    + now rewrite (proj2 (proj2 (proj2 (disconnectDevice_parts device w)))).
    + assumption.
    + unfold sendMessage.
      destruct (truthy (trim (currentMessage w))), (selectedDevice w);
        simpl; lia.
    + now rewrite runCallback_currentMessage.
Qed.

(** ** Sending *)

Lemma sendMessage_sends randomId now r w sel :
  selectedDevice w = Some sel -> ~ whitespaceOnly (currentMessage w) ->
  sendMessage randomId now r w =
    setTimeout (Reply sel) (replyDelay r)
      (setTimeout Scroll 100
         (setCurrentMessage []
            (appendMessage
               (mkMessage randomId (dev_id sel) (dev_name sel)
                  (trim (currentMessage w)) (DateObj now) true) w))).
Proof.
  intros Hsel Hws. unfold sendMessage. rewrite truthy_trim, Hsel.
  unfold whitespaceOnly in Hws.
  destruct (forallb isWhiteSpace (currentMessage w)); [congruence|].
  reflexivity.
Qed.

Lemma sendMessage_skips randomId now r w :
  whitespaceOnly (currentMessage w) -> sendMessage randomId now r w = w.
Proof.
  intros Hws. unfold sendMessage. rewrite truthy_trim.
  unfold whitespaceOnly in Hws. now rewrite Hws.
Qed.

(** C10.  With nothing but white space (or nothing at all) in the input
    field, or with no device selected, [sendMessage] returns the state
    it was given: no message is appended, no timer is set, no toast is
    shown, the stored log is not rewritten. *)
Theorem sendMessage_nothing_to_send :
  forall (randomId : jsstring) (now : Z) (r : Number.t) (w : World),
    whitespaceOnly (currentMessage w) \/ selectedDevice w = None ->
    sendMessage randomId now r w = w.
Proof.
  intros randomId now r w [Hws|Hsel].
  - now apply sendMessage_skips.
  - unfold sendMessage. rewrite Hsel.
    now destruct (truthy (trim (currentMessage w))).
Qed.

Lemma sendMessage_nothing_to_send_witness :
  (whitespaceOnly (currentMessage (composing alice blanks))
   \/ selectedDevice (composing alice blanks) = None)
  /\ sendMessage (js "0.42") 1700000000000 third
       (composing alice blanks) = composing alice blanks.
Proof.
  split.
  - left. reflexivity.
  - apply (sendMessage_nothing_to_send (js "0.42") 1700000000000 third
             (composing alice blanks)).
    left. reflexivity.
Defined.

Lemma freshPage_mounted : mount false None = Some freshPage.
Proof. reflexivity. Qed.

Lemma freshPage_reachable : reachable freshPage.
Proof. exact (reachable_mount false None freshPage freshPage_mounted). Qed.

Lemma appended_differs {A} (l : list A) (x : A) : l ++ [x] <> l.
Proof.
  intros H. apply (f_equal (@length A)) in H.
  rewrite length_app in H. simpl in H. lia.
Qed.

(** C2, as the code has it.  [sendMessage] raises no error.  With a
    device selected it appends the trimmed text of the input field
    exactly when that text is not empty and not white space only, and
    otherwise returns the state unchanged; it makes no check of the
    length.  The bound of 500 is the [maxLength] of the input field: the
    field takes a text of 500 code units and refuses one of 501, so in
    every reachable state the text appended has at most 500 code units,
    and a text of exactly 500 that neither starts nor ends with white
    space is appended as typed. *)
Theorem sendMessage_validation :
  forall (randomId : jsstring) (now : Z) (r : Number.t) (w : World)
         (sel : BluetoothDevice),
    selectedDevice w = Some sel ->
    (whitespaceOnly (currentMessage w) <-> sendMessage randomId now r w = w)
    /\ (~ whitespaceOnly (currentMessage w) ->
        messages (sendMessage randomId now r w) =
          messages w
            ++ [mkMessage randomId (dev_id sel) (dev_name sel)
                  (trim (currentMessage w)) (DateObj now) true])
    /\ (forall text,
          step (ChangeInput text) w =
            if length text <=? 500 then Some (setCurrentMessage text w)
            else None)
    /\ (reachable w -> length (trim (currentMessage w)) <= 500)
    /\ (forall c mid d,
          currentMessage w = c :: mid ++ [d] ->
          isWhiteSpace c = false -> isWhiteSpace d = false ->
          messages (sendMessage randomId now r w) =
            messages w
              ++ [mkMessage randomId (dev_id sel) (dev_name sel)
                    (currentMessage w) (DateObj now) true]).
Proof.
  intros randomId now r w sel Hsel.
  assert (Hsend : ~ whitespaceOnly (currentMessage w) ->
          messages (sendMessage randomId now r w) =
            messages w
              ++ [mkMessage randomId (dev_id sel) (dev_name sel)
                    (trim (currentMessage w)) (DateObj now) true]).
  { intros Hws. now rewrite (sendMessage_sends _ _ _ _ sel Hsel Hws). }
  split; [|split; [exact Hsend|split; [|split]]].
  - split.
    + apply sendMessage_skips.
    + intros Hsame. unfold whitespaceOnly.
      destruct (forallb isWhiteSpace (currentMessage w)) eqn:E; [reflexivity|].
      exfalso. assert (Hn : ~ whitespaceOnly (currentMessage w)).
      { unfold whitespaceOnly. congruence. }
      apply Hsend in Hn. rewrite Hsame in Hn.
      symmetry in Hn. now apply appended_differs in Hn.
  - intros text. simpl. now rewrite Hsel.
  - intros Hr. etransitivity; [apply trim_length|].
    now apply reachable_input_bounded.
  - intros c mid d Hcur Hc Hd.
    assert (Ht : trim (currentMessage w) = currentMessage w).
    { rewrite Hcur. now apply trim_fixed. }
    rewrite <- Ht at 1. apply Hsend.
    unfold whitespaceOnly. rewrite Hcur. simpl. now rewrite Hc.
Qed.

Lemma sendMessage_validation_witness :
  selectedDevice (composing alice fullText) = Some alice
  /\ length fullText = 500
  /\ messages (sendMessage (js "0.42") 1700000000000 third
                 (composing alice fullText)) =
       [mkMessage (js "0.42") (js "1") (js "Alice's iPhone") fullText
          (DateObj 1700000000000) true].
Proof.
  split; [reflexivity|]. split; [reflexivity|].
  exact (proj2 (proj2 (proj2 (proj2
           (sendMessage_validation (js "0.42") 1700000000000 third
              (composing alice fullText) alice eq_refl))))
           97%N (repeat 98%N 498) 99%N eq_refl eq_refl eq_refl).
Defined.

(** C2 as stated fails: a text of 501 code units is appended, and a text
    of one space, neither empty nor longer than 500, is not. *)
Lemma sendMessage_length_unchecked :
  (exists m,
      messages (sendMessage (js "0.42") 1700000000000 third
                  (composing alice longText)) = [m]
      /\ length (msg_content m) = 501)
  /\ (length [32%N] = 1
      /\ messages (sendMessage (js "0.42") 1700000000000 third
                     (composing alice [32%N])) = []).
Proof.
  split.
  - eexists. split; [reflexivity|]. reflexivity.
  - split; reflexivity.
Qed.

(** ** The device registry *)

Lemma markConnected_ids b device l :
  deviceIds (markConnected b device l) = deviceIds l.
Proof.
  unfold deviceIds, markConnected. rewrite map_map. apply map_ext.
  intros d. now destruct (jsstring_eqb (dev_id d) (dev_id device)).
Qed.

Lemma markConnected_absent b device l :
  ~ In (dev_id device) (deviceIds l) -> markConnected b device l = l.
Proof.
  unfold markConnected, deviceIds. induction l as [|d l IH]; simpl;
    [reflexivity|].
  intros H. rewrite IH by tauto.
  destruct (jsstring_eqb (dev_id d) (dev_id device)) eqn:E; [|reflexivity].
  apply jsstring_eqb_eq in E. tauto.
Qed.

Lemma find_id_none id l :
  find (fun d => jsstring_eqb (dev_id d) id) l = None <->
  ~ In id (deviceIds l).
Proof.
  unfold deviceIds. induction l as [|d l IH]; simpl; [tauto|].
  destruct (jsstring_eqb (dev_id d) id) eqn:E.
  - apply jsstring_eqb_eq in E. split; [discriminate|tauto].
  - apply jsstring_eqb_neq in E. rewrite IH. tauto.
Qed.

Lemma upsertDiscovered_known record l :
  In (dev_id record) (deviceIds l) -> upsertDiscovered record l = l.
Proof.
  intros H. unfold upsertDiscovered.
  destruct (find _ l) eqn:E; [reflexivity|].
  apply find_id_none in E. contradiction.
Qed.

Lemma upsertDiscovered_new record l :
  ~ In (dev_id record) (deviceIds l) ->
  upsertDiscovered record l = l ++ [record].
Proof.
  intros H. unfold upsertDiscovered.
  apply find_id_none in H. now rewrite H.
Qed.

Lemma upsertDiscovered_has record l :
  In (dev_id record) (deviceIds (upsertDiscovered record l)).
Proof.
  destruct (in_dec (list_eq_dec N.eq_dec) (dev_id record) (deviceIds l))
    as [H|H].
  - now rewrite upsertDiscovered_known.
  - rewrite upsertDiscovered_new by assumption.
    unfold deviceIds. rewrite map_app. apply in_or_app. right. now left.
Qed.

Lemma upsertDiscovered_incl record l :
  incl (deviceIds l) (deviceIds (upsertDiscovered record l)).
Proof.
  destruct (in_dec (list_eq_dec N.eq_dec) (dev_id record) (deviceIds l))
    as [H|H].
  - rewrite upsertDiscovered_known by assumption. apply incl_refl.
  - rewrite upsertDiscovered_new by assumption.
    unfold deviceIds. rewrite map_app. now apply incl_appl, incl_refl.
Qed.

Lemma upsertDiscovered_nodup record l :
  NoDup (deviceIds l) -> NoDup (deviceIds (upsertDiscovered record l)).
Proof.
  intros Hn.
  destruct (in_dec (list_eq_dec N.eq_dec) (dev_id record) (deviceIds l))
    as [H|H].
  - now rewrite upsertDiscovered_known.
  - rewrite upsertDiscovered_new by assumption.
    unfold deviceIds. rewrite map_app. simpl.
    apply NoDup_app; [assumption|repeat constructor; auto|].
    intros x Hx [<-|[]]. contradiction.
Qed.

Lemma scanSettled_devices o rid found w :
  devices (scanSettled o rid found w) = devices w
  \/ exists newDevice,
       devices (scanSettled o rid found w) =
         upsertDiscovered newDevice (devices w).
Proof.
  unfold scanSettled. destruct o as [id [name|]|]; try (now left).
  destruct (truthy name); [|now left].
  right. eexists. reflexivity.
Qed.

Lemma scanForDevices_parts w :
  devices (scanForDevices w) = devices w
  /\ connectedDevices (scanForDevices w) = connectedDevices w
  /\ selectedDevice (scanForDevices w) = selectedDevice w
  /\ messages (scanForDevices w) = messages w.
Proof. unfold scanForDevices. now destruct (bluetoothSupported w). Qed.

(** No two entries of the registry share an id. *)
Lemma reachable_registry_nodup w :
  reachable w -> NoDup (deviceIds (devices w)).
Proof.
  induction 1 as [supported stored w Hm|e w w' Hr IH Hs].
  - apply mount_world in Hm as [ms ->]. simpl.
    repeat constructor; simpl; intuition discriminate.
  - step_inv Hs; try exact IH.
    + now rewrite (proj1 (scanForDevices_parts w)).
    + destruct (scanSettled_devices outcome randomId found
                  (withRequests rest w)) as [E|[nd E]]; rewrite E; simpl;
        [assumption|now apply upsertDiscovered_nodup].
    + simpl. now rewrite markConnected_ids.
    + rewrite (proj1 (proj2 (disconnectDevice_parts device w))).
      now rewrite markConnected_ids.
    + now rewrite (proj2 (proj2 (sendMessage_selection randomId now r w))).
    + now rewrite (proj2 (proj2 (runCallback_selection _ _ _ _ _))).
Qed.

(** Every connected device is an entry of the registry. *)
Lemma reachable_connected_known w :
  reachable w ->
  incl (deviceIds (connectedDevices w)) (deviceIds (devices w)).
Proof.
  induction 1 as [supported stored w Hm|e w w' Hr IH Hs].
  - apply mount_world in Hm as [ms ->]. simpl. intros x [].
  - step_inv Hs; try exact IH.
    + destruct (scanForDevices_parts w) as (-> & -> & _). exact IH.
    + rewrite (proj2 (scanSettled_selection _ _ _ _)).
      destruct (scanSettled_devices outcome randomId found
                  (withRequests rest w)) as [E|[nd E]]; rewrite E; simpl;
        [assumption|].
      eapply incl_tran; [exact IH|apply upsertDiscovered_incl].
    + simpl. rewrite markConnected_ids. unfold deviceIds.
      rewrite map_app. apply incl_app; [exact IH|].
      intros x [<-|[]]. simpl. now apply in_map.
    + destruct (disconnectDevice_parts device w) as (-> & -> & _).
      rewrite markConnected_ids. intros x Hx. apply IH.
      unfold deviceIds in *. apply in_map_iff in Hx as (d & <- & Hd).
      apply filter_In in Hd as [Hd _]. now apply in_map.
    + destruct (sendMessage_selection randomId now r w) as (_ & -> & ->).
      exact IH.
    + destruct (runCallback_selection (timer_action t) randomId now r
                  (withTimers (removeNth k (timers w)) w)) as (_ & -> & ->).
      exact IH.
Qed.

(** C1, as the code has it.  [connectToDevice] is given a device record,
    looks nothing up in the registry and does not fail: whatever the
    record, it is appended, marked connected, to the connected set, and
    a registry that has no entry of that id is left as it is.  The page
    calls it only on an entry of the device list, so in every reachable
    state the ids of the connected set are ids of the registry. *)
Theorem connectToDevice_always_connects :
  forall (device : BluetoothDevice) (w : World),
    connectedDevices (connectToDevice device w) =
      connectedDevices w ++ [withConnected true device]
    /\ (~ In (dev_id device) (deviceIds (devices w)) ->
        devices (connectToDevice device w) = devices w)
    /\ (forall i w', step (ClickDevice i) w = Some w' ->
        exists entry, nth_error (devices w) i = Some entry
          /\ w' = if dev_connected entry then disconnectDevice entry w
                  else connectToDevice entry w)
    /\ (reachable w ->
        incl (deviceIds (connectedDevices w)) (deviceIds (devices w))).
Proof.
  intros device w. split; [reflexivity|]. split; [|split].
  - intros H. simpl. now apply markConnected_absent.
  - intros i w'. simpl.
    destruct (nth_error (devices w) i) as [entry|]; [|discriminate].
    intros E. injection E as <-. now exists entry.
  - apply reachable_connected_known.
Qed.

Lemma connectToDevice_always_connects_witness :
  reachable freshPage
  /\ ~ In (dev_id stranger) (deviceIds (devices freshPage))
  /\ devices (connectToDevice stranger freshPage) = devices freshPage
  /\ incl (deviceIds (connectedDevices freshPage))
       (deviceIds (devices freshPage)).
Proof.
  assert (Hn : ~ In (dev_id stranger) (deviceIds (devices freshPage))).
  { simpl. intuition discriminate. }
  split; [exact freshPage_reachable|]. split; [exact Hn|]. split.
  - exact (proj1 (proj2 (connectToDevice_always_connects stranger freshPage))
             Hn).
  - exact (proj2 (proj2 (proj2
             (connectToDevice_always_connects stranger freshPage)))
             freshPage_reachable).
Defined.

(** C1 as stated fails: no entry of the registry has the stranger's id,
    and [connectToDevice] puts it in the connected set all the same. *)
Lemma connectToDevice_unknown_device :
  ~ In (dev_id stranger) (deviceIds (devices freshPage))
  /\ connectedDevices freshPage = []
  /\ connectedDevices (connectToDevice stranger freshPage) =
       [withConnected true stranger].
Proof.
  split; [simpl; intuition discriminate|]. split; reflexivity.
Qed.

Lemma countId_absent id l : ~ In id (deviceIds l) -> countId id l = 0.
Proof.
  unfold countId, deviceIds. induction l as [|d l IH]; simpl; [reflexivity|].
  intros H. destruct (jsstring_eqb (dev_id d) id) eqn:E.
  - apply jsstring_eqb_eq in E. tauto.
  - apply IH. tauto.
Qed.

Lemma countId_nodup id l :
  NoDup (deviceIds l) -> In id (deviceIds l) -> countId id l = 1.
Proof.
  unfold countId, deviceIds. induction l as [|d l IH]; simpl; [tauto|].
  intros Hn Hin. inversion Hn as [|x xs Hx Hxs]; subst.
  destruct (jsstring_eqb (dev_id d) id) eqn:E.
  - apply jsstring_eqb_eq in E. subst id. simpl.
    f_equal. exact (countId_absent (dev_id d) l Hx).
  - apply jsstring_eqb_neq in E. apply IH; [assumption|].
    destruct Hin; [contradiction|assumption].
Qed.

Lemma upsert_again record records l :
  In (dev_id record) (deviceIds l) ->
  Forall (fun x => dev_id x = dev_id record) records ->
  fold_left (fun acc x => upsertDiscovered x acc) records l = l.
Proof.
  intros Hin Hall. induction Hall as [|x records Hx _ IH]; simpl;
    [reflexivity|].
  rewrite upsertDiscovered_known; [exact IH|]. now rewrite Hx.
Qed.

(** C4.  Submitting discovery records of one id any number of times
    leaves exactly one entry of that id in the device list: the list
    after all the submissions is the list after the first, and a
    submission whose id the list already has returns the list as it was,
    entry for entry.  The updater is what a settled scan applies to the
    device list when the device found has a name. *)
Theorem upsertDiscovered_idempotent :
  forall (w : World) (record : BluetoothDevice)
         (records : list BluetoothDevice),
    reachable w ->
    Forall (fun x => dev_id x = dev_id record) records ->
    let after :=
      fold_left (fun acc x => upsertDiscovered x acc) (record :: records)
        (devices w) in
    countId (dev_id record) after = 1
    /\ after = upsertDiscovered record (devices w)
    /\ (In (dev_id record) (deviceIds (devices w)) -> after = devices w)
    /\ (~ In (dev_id record) (deviceIds (devices w)) ->
        after = devices w ++ [record])
    /\ (forall id name randomId found,
          truthy name = true ->
          devices (scanSettled (Chosen id (Some name)) randomId found w) =
            upsertDiscovered
              (mkDevice (if truthy id then id else randomId) name unknown
                 false (-50))
              (devices w)).
Proof.
  intros w record records Hr Hall after.
  assert (E : after = upsertDiscovered record (devices w)).
  { unfold after. simpl.
    apply (upsert_again record); [apply upsertDiscovered_has|assumption]. }
  split; [|split; [exact E|split; [|split]]].
  - rewrite E. apply countId_nodup; [|apply upsertDiscovered_has].
    apply upsertDiscovered_nodup. now apply reachable_registry_nodup.
  - intros Hin. rewrite E. now apply upsertDiscovered_known.
  - intros Hnot. rewrite E. now apply upsertDiscovered_new.
  - intros id name randomId found Hname. unfold scanSettled.
    now rewrite Hname.
Qed.

Lemma upsertDiscovered_idempotent_witness :
  reachable freshPage
  /\ Forall (fun x => dev_id x = dev_id stranger)
       [withConnected true stranger; stranger]
  /\ countId (dev_id stranger)
       (fold_left (fun acc x => upsertDiscovered x acc)
          [stranger; withConnected true stranger; stranger]
          (devices freshPage)) = 1.
Proof.
  assert (Hall : Forall (fun x => dev_id x = dev_id stranger)
                   [withConnected true stranger; stranger]).
  { repeat constructor. }
  split; [exact freshPage_reachable|]. split; [exact Hall|].
  exact (proj1 (upsertDiscovered_idempotent freshPage stranger
                  [withConnected true stranger; stranger]
                  freshPage_reachable Hall)).
Defined.

(** ** The selection *)

Lemma disconnectDevice_selectionValid device w :
  selectionValid w -> selectionValid (disconnectDevice device w).
Proof.
  unfold selectionValid.
  destruct (disconnectDevice_parts device w) as (Ec & _ & Es & _).
  rewrite Ec, Es.
  destruct (selectedDevice w) as [sel|]; [|trivial].
  destruct (jsstring_eqb (dev_id sel) (dev_id device)) eqn:E; [trivial|].
  intros H. unfold deviceIds in *. apply in_map_iff in H as (d & Hd & Hin).
  apply in_map_iff. exists d. split; [assumption|].
  apply filter_In. split; [assumption|]. now rewrite Hd, E.
Qed.

Lemma reachable_selection_valid w : reachable w -> selectionValid w.
Proof.
  induction 1 as [supported stored w Hm|e w w' Hr IH Hs].
  - apply mount_world in Hm as [ms ->]. exact I.
  - step_inv Hs; try exact IH.
    + unfold selectionValid.
      destruct (scanForDevices_parts w) as (_ & -> & -> & _). exact IH.
    + unfold selectionValid.
      destruct (scanSettled_selection outcome randomId found
                  (withRequests rest w)) as (-> & ->). exact IH.
    + unfold selectionValid in *. simpl.
      destruct (selectedDevice w) as [sel|]; [|trivial].
      unfold deviceIds in *. rewrite map_app. apply in_or_app. now left.
    + now apply disconnectDevice_selectionValid.
    + unfold selectionValid. simpl. unfold deviceIds. now apply in_map.
    + unfold selectionValid.
      destruct (sendMessage_selection randomId now r w) as (-> & -> & _).
      exact IH.
    + unfold selectionValid.
      destruct (runCallback_selection (timer_action t) randomId now r
                  (withTimers (removeNth k (timers w)) w)) as (-> & -> & _).
      exact IH.
Qed.

(** C5, as the code has it.  In every reachable state the selection is
    unset or names a device of the connected set.  [disconnectDevice]
    takes the entries of the device's id out of the connected set and
    clears the selection when the selected device has that id.
    [setSelectedDevice] is the plain state setter: it checks nothing and
    raises nothing, and the page calls it only on an entry of the list
    of connected devices. *)
Theorem selection_names_connected_device :
  forall (w : World) (device : BluetoothDevice),
    (reachable w -> selectionValid w)
    /\ (forall d, In d (connectedDevices (disconnectDevice device w)) <->
                  In d (connectedDevices w) /\ dev_id d <> dev_id device)
    /\ (forall sel, selectedDevice w = Some sel ->
          selectedDevice (disconnectDevice device w) =
            if jsstring_eqb (dev_id sel) (dev_id device) then None
            else Some sel)
    /\ (selectionValid w -> selectionValid (disconnectDevice device w))
    /\ (forall j w', step (ClickConnected j) w = Some w' ->
          exists d, nth_error (connectedDevices w) j = Some d
                    /\ w' = setSelectedDevice (Some d) w)
    /\ selectedDevice (setSelectedDevice (Some device) w) = Some device.
Proof.
  intros w device.
  destruct (disconnectDevice_parts device w) as (Ec & _ & Es & _).
  split; [apply reachable_selection_valid|]. split; [|split; [|split; [|split]]].
  - intros d. rewrite Ec, filter_In, negb_true_iff, jsstring_eqb_neq.
    reflexivity.
  - intros sel Hsel. now rewrite Es, Hsel.
  - apply disconnectDevice_selectionValid.
  - intros j w'. simpl.
    destruct (nth_error (connectedDevices w) j) as [d|]; [|discriminate].
    intros E. injection E as <-. now exists d.
  - reflexivity.
Qed.

Lemma chatPage_reachable :
  step (ClickDevice 0) freshPage = Some connectedPage
  /\ step (ClickConnected 0) connectedPage = Some chatPage
  /\ reachable chatPage.
Proof.
  assert (H1 : step (ClickDevice 0) freshPage = Some connectedPage)
    by reflexivity.
  assert (H2 : step (ClickConnected 0) connectedPage = Some chatPage)
    by reflexivity.
  split; [exact H1|]. split; [exact H2|].
  apply (reachable_step (ClickConnected 0) connectedPage chatPage); [|exact H2].
  exact (reachable_step (ClickDevice 0) freshPage connectedPage
           freshPage_reachable H1).
Qed.

Lemma selection_names_connected_device_witness :
  (reachable chatPage
   /\ selectedDevice chatPage = Some alice
   /\ step (ClickConnected 0) connectedPage = Some chatPage)
  /\ In (dev_id alice) (deviceIds (connectedDevices chatPage))
  /\ (exists d, nth_error (connectedDevices connectedPage) 0 = Some d
                /\ chatPage = setSelectedDevice (Some d) connectedPage)
  /\ selectedDevice (disconnectDevice alice chatPage) = None
  /\ (forall d, In d (connectedDevices (disconnectDevice alice chatPage)) <->
                In d (connectedDevices chatPage) /\ dev_id d <> dev_id alice)
  /\ selectionValid (disconnectDevice alice chatPage).
Proof.
  destruct chatPage_reachable as (_ & Hclick & Hr).
  destruct (selection_names_connected_device chatPage alice)
    as (Hvalid & Hset & Hsel & Hkeep & _ & _).
  destruct (selection_names_connected_device connectedPage alice)
    as (_ & _ & _ & _ & Hstep & _).
  split; [split; [exact Hr|split; [reflexivity|exact Hclick]]|].
  split; [exact (Hvalid Hr)|]. split; [exact (Hstep 0 chatPage Hclick)|].
  split; [exact (Hsel alice eq_refl)|]. split; [exact Hset|].
  exact (Hkeep (Hvalid Hr)).
Defined.

(** C5 as stated fails: nothing is connected, and [setSelectedDevice]
    selects the stranger without an error. *)
Lemma setSelectedDevice_unchecked :
  ~ In (dev_id stranger) (deviceIds (connectedDevices freshPage))
  /\ selectedDevice freshPage = None
  /\ selectedDevice (setSelectedDevice (Some stranger) freshPage) =
       Some stranger.
Proof.
  split; [intros []|]. split; reflexivity.
Qed.

(** ** Timers *)

Lemma count_app {A} (p : A -> bool) l l' :
  count p (l ++ l') = count p l + count p l'.
Proof. unfold count. now rewrite filter_app, length_app. Qed.

Lemma count_removeNth {A} (p : A -> bool) k l t :
  nth_error l k = Some t ->
  count p (removeNth k l) + (if p t then 1 else 0) = count p l.
Proof.
  unfold count. revert k; induction l as [|x l IH]; intros [|k]; simpl;
    try discriminate.
  - intros H. injection H as ->. destruct (p t); simpl; lia.
  - intros H. apply IH in H. destruct (p x); simpl; lia.
Qed.

Lemma removeNth_last {A} (l : list A) (x : A) :
  removeNth (length l) (l ++ [x]) = l.
Proof. induction l as [|y l IH]; simpl; [reflexivity|now rewrite IH]. Qed.

Lemma removeNth_before_last {A} (l : list A) (x y : A) :
  removeNth (S (length l)) (l ++ [x; y]) = l ++ [x].
Proof. induction l as [|z l IH]; simpl; [reflexivity|now f_equal]. Qed.

Lemma nth_error_last {A} (l : list A) (x : A) :
  nth_error (l ++ [x]) (length l) = Some x.
Proof. induction l as [|y l IH]; simpl; [reflexivity|exact IH]. Qed.

(** The index [Math.floor(r * responses.length)] is one of the pool. *)
Lemma pickResponse_in_pool r : unitDraw r = true -> In (pickResponse r) responses.
Proof.
  intros H. unfold pickResponse.
  change (Z.of_nat (length responses)) with 7%Z.
  destruct (floor_draw_times_7 r H) as (i & -> & Hi).
  replace (0 <=? i)%Z with true by (symmetry; apply Z.leb_le; lia).
  apply nth_In. change (length responses) with 7. lia.
Qed.

(** The product is rounded before [Math.floor] sees it: the exact
    product of this draw and 7 is below 4, the rounded one is 4. *)
Lemma pickResponse_rounds_the_product :
  (Number.toQ nearlyFourSevenths * 7 < 4)%Q
  /\ Number.floor (Number.mul nearlyFourSevenths (Number.ofZ 7)) = Some 4%Z
  /\ pickResponse nearlyFourSevenths = js "Bluetooth messaging works great!".
Proof. split; [reflexivity|split; reflexivity]. Qed.

(** The largest draw gives the last text of the pool and the delay
    3000. *)
Lemma largest_draw :
  unitDraw almostOne = true
  /\ pickResponse almostOne = js "Peer-to-peer communication is awesome!"
  /\ (replyDelay almostOne == 3000)%Q.
Proof. split; [reflexivity|split; reflexivity]. Qed.

Lemma welcomeText_not_in_pool :
  existsb (jsstring_eqb welcomeText) responses = false.
Proof. reflexivity. Qed.

Lemma pool_text_not_welcome s :
  In s responses -> jsstring_eqb s welcomeText = false.
Proof.
  intros H. apply jsstring_eqb_neq. intros ->.
  assert (E : existsb (jsstring_eqb welcomeText) responses = true).
  { apply existsb_exists. exists welcomeText. split; [assumption|].
    apply jsstring_eqb_refl. }
  rewrite welcomeText_not_in_pool in E. discriminate.
Qed.

Lemma pool_text_in_pool s :
  In s responses -> existsb (jsstring_eqb s) responses = true.
Proof.
  intros H. apply existsb_exists. exists s. split; [assumption|].
  apply jsstring_eqb_refl.
Qed.

Lemma disconnectDevice_log device w :
  messages (disconnectDevice device w) = messages w
  /\ timers (disconnectDevice device w) = timers w
  /\ storage (disconnectDevice device w) = storage w
  /\ clock (disconnectDevice device w) = clock w.
Proof.
  unfold disconnectDevice. destruct (selectedDevice w) as [sel|]; simpl;
    [|auto].
  destruct (jsstring_eqb (dev_id sel) (dev_id device)); simpl; auto.
Qed.

Lemma Qle_bool_plus c a b : Qle_bool (c + a) (c + b) = Qle_bool a b.
Proof.
  destruct (Qle_bool a b) eqn:E.
  - apply Qle_bool_iff. apply Qplus_le_r. now apply Qle_bool_iff.
  - destruct (Qle_bool (c + a) (c + b)) eqn:F; [|reflexivity].
    apply Qle_bool_iff, Qplus_le_r, Qle_bool_iff in F. congruence.
Qed.

Lemma Qle_bool_false a b : (b < a)%Q -> Qle_bool a b = false.
Proof.
  intros H. destruct (Qle_bool a b) eqn:E; [|reflexivity].
  apply Qle_bool_iff in E. exfalso. now apply (Qlt_not_le b a).
Qed.

(** Waiting [dt] and then letting the timer at [k] run: it runs when its
    delay has passed, and not before. *)
Lemma wait_then_fire w k t dt randomId now r :
  nth_error (timers w) k = Some t -> unitDraw r = true -> (0 <= dt)%Q ->
  run [TimePasses dt; TimerFires k randomId now r] w =
    if Qle_bool (timer_due t) (clock w + dt) then
      Some (runCallback (timer_action t) randomId now r
              (withTimers (removeNth k (timers w)) (advance dt w)))
    else None.
Proof.
  intros Hk Hr Hdt. cbn [run step].
  apply Qle_bool_iff in Hdt. rewrite Hdt.
  cbn [step timers advance clock]. rewrite Hk, Hr, andb_true_r.
  now destruct (Qle_bool (timer_due t) (clock w + dt)).
Qed.

Lemma scanSettled_log o rid found w :
  messages (scanSettled o rid found w) = messages w
  /\ timers (scanSettled o rid found w) =
       timers w ++ [mkTimer 2000 (ScanDone found) (clock w + 2000)%Q]
  /\ storage (scanSettled o rid found w) = storage w.
Proof.
  unfold scanSettled. destruct o as [id [name|]|]; simpl; auto.
  destruct (truthy name); simpl; auto.
Qed.

Lemma scanForDevices_log w :
  messages (scanForDevices w) = messages w
  /\ (timers (scanForDevices w) = timers w
      \/ timers (scanForDevices w) =
           timers w
             ++ [mkTimer 2000 (ScanDone (length (devices w)))
                   (clock w + 2000)%Q])
  /\ storage (scanForDevices w) = storage w.
Proof.
  unfold scanForDevices. destruct (bluetoothSupported w); simpl; auto.
Qed.

Lemma runCallback_log a rid now r w :
  messages (runCallback a rid now r w) =
    messages w ++ callbackMessage a rid now r
  /\ timers (runCallback a rid now r w) = timers w.
Proof. destruct a; simpl; rewrite ?app_nil_r; auto. Qed.

Lemma count_cons {A} (p : A -> bool) x l :
  count p (x :: l) = (if p x then 1 else 0) + count p l.
Proof. unfold count. simpl. now destruct (p x). Qed.

Lemma count_nil {A} (p : A -> bool) : count p [] = 0.
Proof. reflexivity. Qed.

Ltac world_simpl :=
  cbn [messages timers withRequests withTimers setTimeout toast setMessages
       saveMessages setItem setCurrentMessage setConnectedDevices setDevices
       setSelectedDevice setIsScanning connectToDevice].

Ltac count_simpl :=
  world_simpl;
  rewrite ?count_app, ?count_cons, ?count_nil;
  unfold isWelcome, isReply, isWelcomeTimer, isReplyTimer;
  cbn [timer_action msg_deviceId msg_content msg_sent negb andb].

Lemma step_welcomeBalance id e w w' :
  step e w = Some w' ->
  welcomeBalance id w' = welcomeBalance id w + connectsNow id e w.
Proof.
  unfold welcomeBalance.
  destruct e as [|outcome randomId|i|j|text|randomId now r|dt
                 |k randomId now r];
    simpl.
  - destruct (isScanning w); [discriminate|]. intros H; injection H as <-.
    destruct (scanForDevices_log w) as (-> & [-> | ->] & _);
      count_simpl; lia.
  - destruct (requests w) as [|found rest]; [discriminate|].
    intros H; injection H as <-.
    destruct (scanSettled_log outcome randomId found (withRequests rest w))
      as (-> & -> & _).
    count_simpl. lia.
  - destruct (nth_error (devices w) i) as [device|]; [|discriminate].
    intros H; injection H as <-.
    destruct (dev_connected device).
    + destruct (disconnectDevice_log device w) as (-> & -> & _). simpl. lia.
    + simpl. count_simpl.
      destruct (jsstring_eqb (dev_id device) id); simpl; lia.
  - destruct (nth_error (connectedDevices w) j); [|discriminate].
    intros H; injection H as <-. simpl. lia.
  - destruct (selectedDevice w); [|discriminate].
    destruct (length text <=? 500); [|discriminate].
    intros H; injection H as <-. simpl. lia.
  - destruct (selectedDevice w) as [sel|] eqn:Hsel; [|discriminate].
    destruct (unitDraw r); [|discriminate].
    intros H; injection H as <-. unfold sendMessage. rewrite Hsel.
    destruct (truthy (trim (currentMessage w))); [|lia].
    simpl. count_simpl. rewrite andb_false_r. lia.
  - destruct (Qle_bool 0 dt); [|discriminate].
    intros H; injection H as <-. simpl. lia.
  - destruct (nth_error (timers w) k) as [t|] eqn:Hk; [|discriminate].
    destruct (Qle_bool (timer_due t) (clock w)); [|discriminate].
    destruct (unitDraw r) eqn:Hr; [|discriminate].
    intros H; injection H as <-.
    pose proof (count_removeNth (isWelcomeTimer id) k (timers w) t Hk) as Hc.
    unfold isWelcomeTimer in Hc.
    destruct (runCallback_log (timer_action t) randomId now r
                (withTimers (removeNth k (timers w)) w)) as (-> & ->).
    cbn [messages timers withTimers].
    destruct (timer_action t) as [n|device| |device]; unfold callbackMessage;
      count_simpl.
    + lia.
    + rewrite jsstring_eqb_refl, !andb_true_r.
      destruct (jsstring_eqb (dev_id device) id); simpl; lia.
    + lia.
    + rewrite (pool_text_not_welcome _ (pickResponse_in_pool r Hr)).
      rewrite andb_false_r. simpl. lia.
Qed.

Lemma step_replyBalance id e w w' :
  step e w = Some w' ->
  replyBalance id w' = replyBalance id w + sendsNow id e w.
Proof.
  unfold replyBalance.
  destruct e as [|outcome randomId|i|j|text|randomId now r|dt
                 |k randomId now r];
    simpl.
  - destruct (isScanning w); [discriminate|]. intros H; injection H as <-.
    destruct (scanForDevices_log w) as (-> & [-> | ->] & _);
      count_simpl; lia.
  - destruct (requests w) as [|found rest]; [discriminate|].
    intros H; injection H as <-.
    destruct (scanSettled_log outcome randomId found (withRequests rest w))
      as (-> & -> & _).
    count_simpl. lia.
  - destruct (nth_error (devices w) i) as [device|]; [|discriminate].
    intros H; injection H as <-.
    destruct (dev_connected device).
    + destruct (disconnectDevice_log device w) as (-> & -> & _). simpl. lia.
    + simpl. count_simpl. lia.
  - destruct (nth_error (connectedDevices w) j); [|discriminate].
    intros H; injection H as <-. simpl. lia.
  - destruct (selectedDevice w); [|discriminate].
    destruct (length text <=? 500); [|discriminate].
    intros H; injection H as <-. simpl. lia.
  - destruct (selectedDevice w) as [sel|] eqn:Hsel; [|discriminate].
    destruct (unitDraw r); [|discriminate].
    intros H; injection H as <-. unfold sendMessage. rewrite Hsel.
    destruct (truthy (trim (currentMessage w))); [|simpl; lia].
    simpl. count_simpl. rewrite andb_false_r.
    destruct (jsstring_eqb (dev_id sel) id); lia.
  - destruct (Qle_bool 0 dt); [|discriminate].
    intros H; injection H as <-. simpl. lia.
  - destruct (nth_error (timers w) k) as [t|] eqn:Hk; [|discriminate].
    destruct (Qle_bool (timer_due t) (clock w)); [|discriminate].
    destruct (unitDraw r) eqn:Hr; [|discriminate].
    intros H; injection H as <-.
    pose proof (count_removeNth (isReplyTimer id) k (timers w) t Hk) as Hc.
    unfold isReplyTimer in Hc.
    destruct (runCallback_log (timer_action t) randomId now r
                (withTimers (removeNth k (timers w)) w)) as (-> & ->).
    cbn [messages timers withTimers].
    destruct (timer_action t) as [n|device| |device]; unfold callbackMessage;
      count_simpl.
    + lia.
    + rewrite welcomeText_not_in_pool, ?andb_false_r. simpl. lia.
    + lia.
    + rewrite (pool_text_in_pool _ (pickResponse_in_pool r Hr)).
      rewrite !andb_true_r.
      destruct (jsstring_eqb (dev_id device) id); simpl; lia.
Qed.

Lemma run_balance (B : World -> nat) (f : Event -> World -> nat) :
  (forall e w w', step e w = Some w' -> B w' = B w + f e w) ->
  forall es w w', run es w = Some w' -> B w' = B w + tally f es w.
Proof.
  intros Hstep es. induction es as [|e es IH]; intros w w'; simpl.
  - intros H. injection H as <-. lia.
  - destruct (step e w) as [w1|] eqn:E; [|discriminate].
    intros H. apply IH in H. apply Hstep in E. lia.
Qed.

Lemma nth_error_before_last {A} (l : list A) (x y : A) :
  nth_error (l ++ [x; y]) (S (length l)) = Some y.
Proof. induction l as [|z l IH]; simpl; [reflexivity|exact IH]. Qed.

Lemma thread_append id m w w' :
  messages w' = messages w ++ [m] -> msg_deviceId m = id ->
  getMessagesForDevice id w' = getMessagesForDevice id w ++ [m].
Proof.
  intros Hm Hid. unfold getMessagesForDevice. rewrite Hm, filter_app.
  simpl. now rewrite Hid, jsstring_eqb_refl.
Qed.

(** C6.  [connectToDevice] sets one timer, of delay 1000, and appends
    nothing itself.  The timer does not run before 1000 milliseconds
    have passed; when it runs after that, it is gone from the pending
    timers and one message has been appended: inbound, with the id and
    the name of the device that was connected and the text
    "Hello! I'm connected via Bluetooth.", so the device's thread grows
    by exactly that message.  Over any run, the welcome messages on a
    thread plus the welcome timers still pending for it grow by one for
    each connect of that device, and by nothing else. *)
Theorem connectToDevice_welcome :
  forall (device : BluetoothDevice) (w : World) (randomId : jsstring)
         (now : Z) (r : Number.t) (dt : Q),
    unitDraw r = true ->
    let w1 := connectToDevice device w in
    let fires := [TimePasses dt; TimerFires (length (timers w)) randomId now r] in
    let welcomeMessage :=
      mkMessage randomId (dev_id device) (dev_name device)
        (js "Hello! I'm connected via Bluetooth.") (DateObj now) false in
    timers w1 =
      timers w ++ [mkTimer 1000 (Welcome device) (clock w + 1000)%Q]
    /\ messages w1 = messages w
    /\ welcomeBalance (dev_id device) w1 = S (welcomeBalance (dev_id device) w)
    /\ ((0 <= dt)%Q -> (dt < 1000)%Q -> run fires w1 = None)
    /\ ((1000 <= dt)%Q ->
        exists w2,
          run fires w1 = Some w2
          /\ timers w2 = timers w
          /\ messages w2 = messages w ++ [welcomeMessage]
          /\ getMessagesForDevice (dev_id device) w2 =
               getMessagesForDevice (dev_id device) w ++ [welcomeMessage])
    /\ (forall id es w',
          run es w = Some w' ->
          welcomeBalance id w' =
            welcomeBalance id w + tally (connectsNow id) es w).
Proof.
  intros device w randomId now r dt Hr w1 fires welcomeMessage.
  assert (Ht : timers w1 =
            timers w ++ [mkTimer 1000 (Welcome device) (clock w + 1000)%Q]).
  { reflexivity. }
  assert (Hk : nth_error (timers w1) (length (timers w)) =
            Some (mkTimer 1000 (Welcome device) (clock w + 1000)%Q)).
  { rewrite Ht. apply nth_error_last. }
  split; [exact Ht|]. split; [reflexivity|].
  split; [|split; [|split; [|intros id es w'; exact
    (run_balance (welcomeBalance id) (connectsNow id)
       (step_welcomeBalance id) es w w')]]].
  - unfold welcomeBalance, w1. count_simpl.
    rewrite jsstring_eqb_refl. lia.
  - intros Hdt Hlt. unfold fires.
    rewrite (wait_then_fire w1 _ _ dt randomId now r Hk Hr Hdt).
    cbn [timer_due]. change (clock w1) with (clock w).
    now rewrite Qle_bool_plus, Qle_bool_false.
  - intros Hdt.
    assert (H0 : (0 <= dt)%Q).
    { eapply Qle_trans; [|exact Hdt]. discriminate. }
    unfold fires.
    rewrite (wait_then_fire w1 _ _ dt randomId now r Hk Hr H0).
    cbn [timer_due timer_action]. change (clock w1) with (clock w).
    apply Qle_bool_iff in Hdt. rewrite Qle_bool_plus, Hdt.
    eexists. split; [reflexivity|]. split; [|split].
    + rewrite (proj2 (runCallback_log _ _ _ _ _)).
      cbn [timers withTimers]. rewrite Ht. apply removeNth_last.
    + reflexivity.
    + apply thread_append; reflexivity.
Qed.

Lemma connectToDevice_welcome_witness :
  unitDraw half = true
  /\ (1000 <= 1250)%Q
  /\ timers (connectToDevice stranger freshPage) =
       [mkTimer 1000 (Welcome stranger) (0 + 1000)%Q]
  /\ exists w2,
       run [TimePasses 1250; TimerFires 0 (js "0.42") 1700000000000 half]
         (connectToDevice stranger freshPage) = Some w2
       /\ timers w2 = []
       /\ messages w2 =
            [mkMessage (js "0.42") (js "9") (js "Eve's tablet") welcomeText
               (DateObj 1700000000000) false]
       /\ getMessagesForDevice (js "9") w2 =
            [mkMessage (js "0.42") (js "9") (js "Eve's tablet") welcomeText
               (DateObj 1700000000000) false].
Proof.
  assert (Hdt : (1000 <= 1250)%Q) by discriminate.
  split; [reflexivity|]. split; [exact Hdt|].
  pose proof (connectToDevice_welcome stranger freshPage (js "0.42")
                1700000000000 half 1250 eq_refl) as H.
  split; [exact (proj1 H)|].
  exact (proj1 (proj2 (proj2 (proj2 (proj2 H)))) Hdt).
Defined.

(** C7.  A send that goes through sets, besides the scroll timer, one
    reply timer, for the device that was selected at the send; its delay
    [1000 + r * 2000], computed as the program computes it, in binary64,
    and taken by [setTimeout] as a whole number of milliseconds, lies
    between 1000 and 3000, the ends included.  The reply timer does not
    run before 1000 milliseconds have passed.  When it runs, once 3000
    have passed at the latest, whether or not the device has been
    disconnected meanwhile, one inbound message with the device's id and
    name and the text [responses[Math.floor(r' * 7)]], again computed in
    binary64 and always one of the pool, is appended, so its thread
    grows by that message.  The pool is not empty.  Over any run, the replies on a
    thread plus the reply timers pending for it grow by one for each
    message sent to that device, and by nothing else. *)
Theorem sendMessage_schedules_reply :
  forall (randomId : jsstring) (now : Z) (r : Number.t) (w : World)
         (sel : BluetoothDevice),
    selectedDevice w = Some sel ->
    ~ whitespaceOnly (currentMessage w) ->
    unitDraw r = true ->
    let w1 := sendMessage randomId now r w in
    let delay := replyDelay r in
    timers w1 =
      timers w ++ [mkTimer 100 Scroll (clock w + 100)%Q;
                   mkTimer delay (Reply sel) (clock w + delay)%Q]
    /\ (1000 <= delay <= 3000)%Q
    /\ replyBalance (dev_id sel) w1 = S (replyBalance (dev_id sel) w)
    /\ responses <> []
    /\ (forall randomId' now' r' dt w2,
          unitDraw r' = true ->
          w2 = w1 \/ w2 = disconnectDevice sel w1 ->
          let fires :=
            [TimePasses dt;
             TimerFires (S (length (timers w))) randomId' now' r'] in
          let responseMessage :=
            mkMessage randomId' (dev_id sel) (dev_name sel) (pickResponse r')
              (DateObj now') false in
          In (pickResponse r') responses
          /\ ((0 <= dt)%Q -> (dt < 1000)%Q -> run fires w2 = None)
          /\ ((3000 <= dt)%Q ->
              exists w3,
                run fires w2 = Some w3
                /\ timers w3 = timers w ++ [mkTimer 100 Scroll (clock w + 100)%Q]
                /\ messages w3 = messages w1 ++ [responseMessage]
                /\ getMessagesForDevice (dev_id sel) w3 =
                     getMessagesForDevice (dev_id sel) w1 ++ [responseMessage]))
    /\ (forall id es w',
          run es w = Some w' ->
          replyBalance id w' = replyBalance id w + tally (sendsNow id) es w).
Proof.
  intros randomId now r w sel Hsel Hws Hr w1 delay.
  assert (Hw1 : timers w1 =
            timers w ++ [mkTimer 100 Scroll (clock w + 100)%Q;
                         mkTimer delay (Reply sel) (clock w + delay)%Q]
          /\ clock w1 = clock w).
  { unfold w1. rewrite (sendMessage_sends _ _ _ _ sel Hsel Hws).
    cbn [timers clock setTimeout setCurrentMessage appendMessage setMessages
           saveMessages setItem].
    now rewrite <- app_assoc. }
  destruct Hw1 as [Ht Hc].
  destruct (reply_delay_range r Hr) as [Hlo Hhi]. fold delay in Hlo, Hhi.
  split; [exact Ht|]. split; [now split|].
  split; [|split; [discriminate|split; [|intros id es w'; exact
    (run_balance (replyBalance id) (sendsNow id)
       (step_replyBalance id) es w w')]]].
  - pose proof (step_replyBalance (dev_id sel) (Send randomId now r) w w1) as B.
    simpl in B. rewrite Hsel, Hr in B. specialize (B eq_refl).
    rewrite truthy_trim, jsstring_eqb_refl in B.
    unfold whitespaceOnly in Hws.
    destruct (forallb isWhiteSpace (currentMessage w)); [congruence|].
    simpl in B. lia.
  - intros randomId' now' r' dt w2 Hr' Hw2 fires responseMessage.
    split; [now apply pickResponse_in_pool|].
    assert (Hlog : timers w2 = timers w1 /\ messages w2 = messages w1
                   /\ clock w2 = clock w).
    { destruct Hw2 as [->| ->]; [auto|].
      destruct (disconnectDevice_log sel w1) as (-> & -> & _ & ->). auto. }
    destruct Hlog as (Ht2 & Hm2 & Hc2).
    assert (Hk : nth_error (timers w2) (S (length (timers w))) =
              Some (mkTimer delay (Reply sel) (clock w + delay)%Q)).
    { rewrite Ht2, Ht. apply nth_error_before_last. }
    split.
    + intros Hdt Hlt. unfold fires.
      rewrite (wait_then_fire w2 _ _ dt randomId' now' r' Hk Hr' Hdt).
      cbn [timer_due]. rewrite Hc2, Qle_bool_plus, Qle_bool_false;
        [reflexivity|].
      eapply Qlt_le_trans; [exact Hlt|exact Hlo].
    + intros Hdt.
      assert (H0 : (0 <= dt)%Q).
      { eapply Qle_trans; [|exact Hdt]. discriminate. }
      assert (Hd : Qle_bool delay dt = true).
      { apply Qle_bool_iff. eapply Qle_trans; [exact Hhi|exact Hdt]. }
      unfold fires.
      rewrite (wait_then_fire w2 _ _ dt randomId' now' r' Hk Hr' H0).
      cbn [timer_due timer_action]. rewrite Hc2, Qle_bool_plus, Hd.
      eexists. split; [reflexivity|]. split; [|split].
      * rewrite (proj2 (runCallback_log _ _ _ _ _)).
        cbn [timers withTimers]. rewrite Ht2, Ht.
        apply removeNth_before_last.
      * rewrite (proj1 (runCallback_log _ _ _ _ _)).
        cbn [messages withTimers advance callbackMessage]. now rewrite Hm2.
      * apply thread_append; [|reflexivity].
        rewrite (proj1 (runCallback_log _ _ _ _ _)).
        cbn [messages withTimers advance callbackMessage]. now rewrite Hm2.
Qed.

Lemma sendMessage_schedules_reply_witness :
  (selectedDevice (composing alice (js "hi")) = Some alice
   /\ ~ whitespaceOnly (currentMessage (composing alice (js "hi")))
   /\ unitDraw half = true
   /\ unitDraw nearlyFourSevenths = true
   /\ (3000 <= 3000)%Q)
  /\ timers sentPage =
       [mkTimer 100 Scroll (0 + 100)%Q;
        mkTimer (replyDelay half) (Reply alice) (0 + replyDelay half)%Q]
  /\ (1000 <= replyDelay half <= 3000)%Q
  /\ In (pickResponse nearlyFourSevenths) responses
  /\ exists w3,
       run [TimePasses 3000;
            TimerFires 1 (js "0.77") 1700000003000 nearlyFourSevenths]
         (disconnectDevice alice sentPage) = Some w3
       /\ messages w3 =
            messages sentPage
              ++ [mkMessage (js "0.77") (dev_id alice) (dev_name alice)
                    (pickResponse nearlyFourSevenths)
                    (DateObj 1700000003000) false].
Proof.
  assert (Hws : ~ whitespaceOnly (currentMessage (composing alice (js "hi")))).
  { discriminate. }
  assert (Hdt : (3000 <= 3000)%Q) by discriminate.
  split; [split; [reflexivity|split; [exact Hws|split; [reflexivity|
    split; [reflexivity|exact Hdt]]]]|].
  pose proof (sendMessage_schedules_reply (js "0.42") 1700000000000 half
                (composing alice (js "hi")) alice eq_refl Hws eq_refl) as H.
  cbv zeta in H. destruct H as (Ht & Hd & _ & _ & Hfire & _).
  split; [exact Ht|]. split; [exact Hd|].
  destruct (Hfire (js "0.77") 1700000003000%Z nearlyFourSevenths 3000%Q
              (disconnectDevice alice sentPage) eq_refl (or_intror eq_refl))
    as (Hin & _ & Hrun).
  split; [exact Hin|].
  destruct (Hrun Hdt) as (w3 & Hw3 & _ & Hm & _).
  exists w3. split; [exact Hw3|exact Hm].
Defined.

(** ** Message ids *)

(** A step appends at most one message, and its id is the text drawn. *)
Lemma step_appends e w w' :
  step e w = Some w' ->
  messages w' = messages w
  \/ exists m, messages w' = messages w ++ [m] /\ drawnId e = [msg_id m].
Proof.
  destruct e as [|outcome randomId|i|j|text|randomId now r|dt
                 |k randomId now r];
    cbn [step drawnId].
  - destruct (isScanning w); [discriminate|]. intros H; injection H as <-.
    left. apply scanForDevices_log.
  - destruct (requests w) as [|found rest]; [discriminate|].
    intros H; injection H as <-. left.
    now rewrite (proj1 (scanSettled_log _ _ _ _)).
  - destruct (nth_error (devices w) i) as [device|]; [|discriminate].
    intros H; injection H as <-. left.
    destruct (dev_connected device); [apply disconnectDevice_log|reflexivity].
  - destruct (nth_error (connectedDevices w) j); [|discriminate].
    intros H; injection H as <-. now left.
  - destruct (selectedDevice w); [|discriminate].
    destruct (length text <=? 500); [|discriminate].
    intros H; injection H as <-. now left.
  - destruct (selectedDevice w) as [sel|] eqn:Hsel; [|discriminate].
    destruct (unitDraw r); [|discriminate].
    intros H; injection H as <-. unfold sendMessage. rewrite Hsel.
    destruct (truthy (trim (currentMessage w))); [|now left].
    right. eexists. split; reflexivity.
  - destruct (Qle_bool 0 dt); [|discriminate].
    intros H; injection H as <-. now left.
  - destruct (nth_error (timers w) k) as [t|]; [|discriminate].
    destruct (Qle_bool (timer_due t) (clock w)); [|discriminate].
    destruct (unitDraw r); [|discriminate].
    intros H; injection H as <-.
    rewrite (proj1 (runCallback_log _ _ _ _ _)). cbn [messages withTimers].
    destruct (timer_action t); cbn [callbackMessage].
    + left. apply app_nil_r.
    + right. eexists. split; reflexivity.
    + left. apply app_nil_r.
    + right. eexists. split; reflexivity.
Qed.

Lemma NoDup_app_drop {A} (a b c : list A) :
  NoDup (a ++ b ++ c) -> NoDup (a ++ c).
Proof.
  induction b as [|x b IH]; [trivial|].
  intros H. apply IH. simpl in H. now apply NoDup_remove_1 in H.
Qed.

Lemma run_appends es : forall w w',
  run es w = Some w' ->
  exists appended,
    messages w' = messages w ++ appended
    /\ incl (map msg_id appended) (drawnIds es).
Proof.
  induction es as [|e es IH]; intros w w'; simpl.
  - intros H. injection H as <-. exists []. split; [now rewrite app_nil_r|].
    apply incl_nil_l.
  - destruct (step e w) as [w1|] eqn:E; [|discriminate].
    intros H. apply IH in H as (ms & Hm & Hi).
    apply step_appends in E as [E|(m & E & D)].
    + exists ms. split; [congruence|]. now apply incl_appr.
    + exists (m :: ms). split.
      * rewrite Hm, E, <- app_assoc. reflexivity.
      * rewrite D. simpl. apply incl_cons; [now left|].
        now apply incl_tl.
Qed.

Lemma run_ids_distinct es : forall w w',
  run es w = Some w' ->
  NoDup (messageIds w ++ drawnIds es) -> NoDup (messageIds w').
Proof.
  unfold messageIds. induction es as [|e es IH]; intros w w'; simpl.
  - intros H. injection H as <-. now rewrite app_nil_r.
  - destruct (step e w) as [w1|] eqn:E; [|discriminate].
    intros H Hn. apply (IH w1 w' H).
    apply step_appends in E as [E|(m & E & D)].
    + rewrite E. now apply NoDup_app_drop in Hn.
    + rewrite E, map_app, <- app_assoc. simpl. now rewrite D in Hn.
Qed.

(** C9, as the code has it.  The id of a message is the text of a
    [Math.random()] draw made when the message is created and nothing
    else; no check is made against the ids in the log.  The messages a
    run appends carry ids drawn by its events, and when the texts drawn
    in the run differ from one another and from the ids already in the
    log, the ids of the log are pairwise distinct after the run. *)
Theorem message_ids_are_draws :
  forall (es : list Event) (w w' : World),
    run es w = Some w' ->
    (exists appended,
        messages w' = messages w ++ appended
        /\ incl (map msg_id appended) (drawnIds es))
    /\ (NoDup (messageIds w ++ drawnIds es) -> NoDup (messageIds w')).
Proof.
  intros es w w' H. split.
  - now apply run_appends.
  - now apply run_ids_distinct.
Qed.

Lemma message_ids_are_draws_witness :
  exists w',
    run sampleRun freshPage = Some w' /\ NoDup (messageIds w').
Proof.
  destruct (run sampleRun freshPage) as [w'|] eqn:E.
  - exists w'. split; [reflexivity|].
    apply (proj2 (message_ids_are_draws sampleRun freshPage w' E)).
    repeat constructor; simpl; intuition discriminate.
  - vm_compute in E. discriminate.
Defined.

(** C9 as stated fails: two sends whose draws come out the same leave
    two different messages with one id in the log. *)
Lemma message_ids_can_collide :
  exists w m1 m2,
    run collidingRun freshPage = Some w
    /\ messages w = [m1; m2]
    /\ m1 <> m2
    /\ msg_id m1 = msg_id m2.
Proof.
  destruct (run collidingRun freshPage) as [w|] eqn:E.
  - exists w.
    assert (Hm : messages w =
      [mkMessage (js "0.42") (js "1") (js "Alice's iPhone") (js "a")
         (DateObj 1700000000000) true;
       mkMessage (js "0.42") (js "1") (js "Alice's iPhone") (js "b")
         (DateObj 1700000000500) true]).
    { apply (f_equal (option_map messages)) in E. vm_compute in E.
      injection E as E. symmetry. refine (eq_trans _ E).
      vm_compute. reflexivity. }
    do 2 eexists. split; [reflexivity|]. split; [exact Hm|].
    split; [discriminate|reflexivity].
  - vm_compute in E. discriminate.
Qed.

(** ** JSON text: what is printed parses back *)

Import JSON.
Local Open Scope N_scope.

Lemma hexValue_hexDigit d : d < 16 -> hexValue (hexDigit d) = Some d.
Proof.
  intros H. unfold hexDigit, hexValue.
  destruct (d <? 10) eqn:E.
  - apply N.ltb_lt in E.
    replace ((48 <=? 48 + d) && (48 + d <=? 57)) with true.
    + f_equal. lia.
    + symmetry. apply andb_true_iff. split; apply N.leb_le; lia.
  - apply N.ltb_ge in E.
    replace ((48 <=? 87 + d) && (87 + d <=? 57)) with false.
    + replace ((97 <=? 87 + d) && (87 + d <=? 102)) with true.
      * f_equal. lia.
      * symmetry. apply andb_true_iff. split; apply N.leb_le; lia.
    + symmetry. apply andb_false_iff. right. apply N.leb_gt. lia.
Qed.

Lemma hex4_unicodeEscape c :
  c < 65536 ->
  hex4 (hexDigit ((c / 4096) mod 16)) (hexDigit ((c / 256) mod 16))
       (hexDigit ((c / 16) mod 16)) (hexDigit (c mod 16)) = Some c.
Proof.
  intros H. unfold hex4.
  rewrite !hexValue_hexDigit by (apply N.mod_lt; discriminate).
  f_equal. zify. Z.to_euclidean_division_equations. lia.
Qed.

Lemma parseChars_cons c t :
  parseChars (c :: t) =
    if c =? 34 then Some ([], t)
    else if c =? 92 then
      match t with
      | [] => None
      | e :: t1 =>
          if e =? 117 then
            match t1 with
            | h1 :: h2 :: h3 :: h4 :: t2 =>
                match hex4 h1 h2 h3 h4, parseChars t2 with
                | Some u, Some (r, rest) => Some (u :: r, rest)
                | _, _ => None
                end
            | _ => None
            end
          else
            match simpleEscape e, parseChars t1 with
            | Some u, Some (r, rest) => Some (u :: r, rest)
            | _, _ => None
            end
      end
    else if c <? 32 then None
    else
      match parseChars t with
      | Some (r, rest) => Some (c :: r, rest)
      | None => None
      end.
Proof. reflexivity. Qed.

Lemma parseChars_raw c t :
  (c =? 34) = false -> (c =? 92) = false -> (c <? 32) = false ->
  parseChars (c :: t) =
    match parseChars t with
    | Some (r, rest) => Some (c :: r, rest)
    | None => None
    end.
Proof. intros H1 H2 H3. now rewrite parseChars_cons, H1, H2, H3. Qed.

Lemma parseChars_simple e u t :
  (e =? 117) = false -> simpleEscape e = Some u ->
  parseChars (92 :: e :: t) =
    match parseChars t with
    | Some (r, rest) => Some (u :: r, rest)
    | None => None
    end.
Proof.
  intros H1 H2. rewrite parseChars_cons. cbn [N.eqb Pos.eqb].
  now rewrite H1, H2.
Qed.

Lemma parseChars_unicode c t :
  c < 65536 ->
  parseChars (unicodeEscape c ++ t) =
    match parseChars t with
    | Some (r, rest) => Some (c :: r, rest)
    | None => None
    end.
Proof.
  intros H. unfold unicodeEscape. cbn [app]. rewrite parseChars_cons.
  cbn [N.eqb Pos.eqb]. now rewrite hex4_unicodeEscape.
Qed.

Lemma parseChars_quoteUnit c t :
  parseChars (quoteUnit c ++ t) =
    match parseChars t with
    | Some (r, rest) => Some (c :: r, rest)
    | None => None
    end.
Proof.
  unfold quoteUnit.
  destruct (c =? 8) eqn:E8;
    [apply N.eqb_eq in E8; subst; now apply parseChars_simple|].
  destruct (c =? 9) eqn:E9;
    [apply N.eqb_eq in E9; subst; now apply parseChars_simple|].
  destruct (c =? 10) eqn:E10;
    [apply N.eqb_eq in E10; subst; now apply parseChars_simple|].
  destruct (c =? 12) eqn:E12;
    [apply N.eqb_eq in E12; subst; now apply parseChars_simple|].
  destruct (c =? 13) eqn:E13;
    [apply N.eqb_eq in E13; subst; now apply parseChars_simple|].
  destruct (c =? 34) eqn:E34;
    [apply N.eqb_eq in E34; subst; now apply parseChars_simple|].
  destruct (c =? 92) eqn:E92;
    [apply N.eqb_eq in E92; subst; now apply parseChars_simple|].
  destruct ((c <? 32) || isHighSurrogate c || isLowSurrogate c) eqn:E.
  - apply parseChars_unicode.
    unfold isHighSurrogate, isLowSurrogate in E.
    apply orb_true_iff in E as [E|E];
      [apply orb_true_iff in E as [E|E]|].
    + apply N.ltb_lt in E. lia.
    + apply andb_true_iff in E as [_ E]. apply N.leb_le in E. lia.
    + apply andb_true_iff in E as [_ E]. apply N.leb_le in E. lia.
  - apply orb_false_iff in E as [E _]. apply orb_false_iff in E as [E _].
    cbn [app]. now apply parseChars_raw.
Qed.

Lemma surrogate_raw c :
  isHighSurrogate c || isLowSurrogate c = true ->
  (c =? 34) = false /\ (c =? 92) = false /\ (c <? 32) = false.
Proof.
  unfold isHighSurrogate, isLowSurrogate. intros H.
  assert (55296 <= c).
  { apply orb_true_iff in H as [H|H]; apply andb_true_iff in H as [H _];
      apply N.leb_le in H; lia. }
  repeat split; [apply N.eqb_neq|apply N.eqb_neq|apply N.ltb_ge]; lia.
Qed.

Lemma quoteChars_two c d t :
  quoteChars (c :: d :: t) =
    if isHighSurrogate c && isLowSurrogate d
    then c :: d :: quoteChars t
    else quoteUnit c ++ quoteChars (d :: t).
Proof. reflexivity. Qed.

Lemma parseChars_quoteChars_bounded n :
  forall s rest, (length s <= n)%nat ->
    parseChars (quoteChars s ++ 34 :: rest) = Some (s, rest).
Proof.
  induction n as [|n IH]; intros s rest Hlen.
  - destruct s; [reflexivity|simpl in Hlen; lia].
  - destruct s as [|c [|d t]].
    + reflexivity.
    + change (quoteChars [c]) with (quoteUnit c).
      rewrite parseChars_quoteUnit. reflexivity.
    + rewrite quoteChars_two.
      destruct (isHighSurrogate c && isLowSurrogate d) eqn:E.
      * apply andb_true_iff in E as [Ec Ed].
        destruct (surrogate_raw c) as (C1 & C2 & C3); [now rewrite Ec|].
        destruct (surrogate_raw d) as (D1 & D2 & D3);
          [rewrite Ed; apply orb_true_r|].
        cbn [app]. rewrite (parseChars_raw c), (parseChars_raw d) by assumption.
        rewrite IH; [reflexivity|]. simpl in Hlen. lia.
      * rewrite <- app_assoc, parseChars_quoteUnit.
        rewrite IH; [reflexivity|]. simpl in Hlen |- *. lia.
Qed.

Lemma parseChars_quoteChars s rest :
  parseChars (quoteChars s ++ 34 :: rest) = Some (s, rest).
Proof. now apply (parseChars_quoteChars_bounded (length s)). Qed.

Local Open Scope nat_scope.

Ltac parser_step :=
  cbn [app parseValue parseElements parseMembers skipWs isJsonWs N.eqb
       Pos.eqb orb].

Lemma parseValue_string f s rest :
  parseValue (S f) (quote s ++ rest) = Some (JString s, rest).
Proof.
  unfold quote. rewrite <- !app_assoc. parser_step.
  now rewrite parseChars_quoteChars.
Qed.

Lemma stringify_head v :
  numberFree v = true ->
  exists c t, stringify v = c :: t
              /\ isJsonWs c = false /\ (c =? 93)%N = false.
Proof.
  destruct v as [|[|]|l|s|items|members]; simpl; try discriminate; intros _;
    eexists; eexists; (split; [reflexivity|split; reflexivity]).
Qed.

Lemma joinComma_cons p q ps :
  joinComma (p :: q :: ps) = p ++ 44%N :: joinComma (q :: ps).
Proof. reflexivity. Qed.

Lemma parseElements_join items :
  Forall roundTrips items -> forallb numberFree items = true ->
  items <> [] ->
  forall f rest, sizeList items <= f ->
    parseElements f (joinComma (map stringify items) ++ 93%N :: rest)
      = Some (items, rest).
Proof.
  induction 1 as [|v items Hv Hall IH]; [congruence|].
  intros Hnf _ f rest Hf. simpl in Hnf.
  apply andb_true_iff in Hnf as [Hnv Hnf].
  destruct f as [|f]; [simpl in Hf; lia|].
  simpl in Hf. fold (sizeList items) in Hf.
  destruct items as [|v2 items].
  - cbn [map joinComma parseElements].
    rewrite (Hv Hnv f (93%N :: rest)) by lia. parser_step. reflexivity.
  - cbn [map]. rewrite joinComma_cons, <- app_assoc. cbn [app parseElements].
    rewrite (Hv Hnv f) by lia. parser_step.
    change (stringify v2 :: map stringify items)
      with (map stringify (v2 :: items)).
    rewrite IH; [reflexivity|assumption|discriminate|lia].
Qed.

Lemma parseMembers_join members :
  Forall (fun kv => roundTrips (snd kv)) members ->
  forallb (fun kv => match kv with (_, x) => numberFree x end) members = true ->
  members <> [] ->
  forall f rest, sizeMembers members <= f ->
    parseMembers f (joinComma (map memberText members) ++ 125%N :: rest)
      = Some (members, rest).
Proof.
  induction 1 as [|[k v] members Hv Hall IH]; [congruence|].
  intros Hnf _ f rest Hf. simpl in Hnf, Hv.
  apply andb_true_iff in Hnf as [Hnv Hnf].
  destruct f as [|f]; [simpl in Hf; lia|].
  simpl in Hf. fold (sizeMembers members) in Hf.
  destruct members as [|kv2 members].
  - cbn [map joinComma memberText]. unfold quote.
    rewrite <- !app_assoc. parser_step.
    rewrite parseChars_quoteChars. parser_step.
    rewrite (Hv Hnv f (125%N :: rest)) by lia. parser_step. reflexivity.
  - cbn [map]. rewrite joinComma_cons. cbn [memberText]. unfold quote.
    rewrite <- !app_assoc. parser_step.
    rewrite parseChars_quoteChars. parser_step.
    rewrite (Hv Hnv f) by lia. parser_step.
    change (memberText kv2 :: map memberText members)
      with (map memberText (kv2 :: members)).
    rewrite IH; [reflexivity|assumption|discriminate|lia].
Qed.

Lemma parseValue_stringify v : roundTrips v.
Proof.
  induction v as [|b|l|s|items IH|members IH] using json_nested_ind;
    unfold roundTrips; intros Hnf f rest Hf.
  - destruct f as [|f]; [simpl in Hf; lia|]. reflexivity.
  - destruct f as [|f]; [simpl in Hf; lia|]. now destruct b.
  - discriminate.
  - destruct f as [|f]; [simpl in Hf; lia|]. apply parseValue_string.
  - destruct f as [|f]; [simpl in Hf; lia|].
    cbn [size] in Hf. fold (sizeList items) in Hf.
    cbn [stringify]. rewrite <- !app_assoc.
    destruct items as [|v items].
    + reflexivity.
    + inversion IH as [|x xs Hx Hxs]; subst.
      assert (Hnv : numberFree v = true).
      { simpl in Hnf. now apply andb_true_iff in Hnf as [? _]. }
      destruct (stringify_head v Hnv) as (c & t & Ec & Hws & H93).
      cbn [app parseValue skipWs isJsonWs N.eqb Pos.eqb orb].
      cbn [map].
      assert (Hj : exists t', joinComma (stringify v :: map stringify items)
                    ++ 93%N :: rest = c :: t').
      { destruct items; cbn [map joinComma]; rewrite Ec; eexists; reflexivity. }
      destruct Hj as [t' Hj]. rewrite Hj. cbn [skipWs]. rewrite Hws, H93.
      rewrite <- Hj.
      change (stringify v :: map stringify items)
        with (map stringify (v :: items)).
      rewrite parseElements_join;
        [reflexivity|assumption|assumption|discriminate|lia].
  - destruct f as [|f]; [simpl in Hf; lia|].
    cbn [size] in Hf. fold (sizeMembers members) in Hf.
    change (stringify (JObject members))
      with ([123%N] ++ joinComma (map memberText members) ++ [125%N]).
    rewrite <- !app_assoc.
    destruct members as [|[k v] members].
    + reflexivity.
    + cbn [app parseValue skipWs isJsonWs N.eqb Pos.eqb orb].
      assert (Hj : exists t', joinComma (map memberText ((k, v) :: members))
                    ++ 125%N :: rest = 34%N :: t').
      { destruct members; cbn [map joinComma memberText]; unfold quote;
          eexists; reflexivity. }
      destruct Hj as [t' Hj]. rewrite Hj. cbn [skipWs isJsonWs N.eqb Pos.eqb orb].
      rewrite <- Hj.
      rewrite parseMembers_join;
        [reflexivity|assumption|assumption|discriminate|lia].
Qed.

Lemma length_joinComma_cons p q ps :
  length (joinComma (p :: q :: ps)) =
    length p + S (length (joinComma (q :: ps))).
Proof. rewrite joinComma_cons, length_app. reflexivity. Qed.

Lemma sizeList_fits items :
  Forall fitsText items -> forallb numberFree items = true ->
  sizeList items <= S (length (joinComma (map stringify items))).
Proof.
  induction 1 as [|v items Hv Hall IH]; [simpl; lia|].
  intros Hnf. simpl in Hnf. apply andb_true_iff in Hnf as [Hnv Hnf].
  specialize (IH Hnf). specialize (Hv Hnv).
  destruct items as [|v2 items].
  - simpl. lia.
  - cbn [map]. rewrite length_joinComma_cons.
    change (sizeList (v :: v2 :: items))
      with (S (size v + sizeList (v2 :: items))).
    cbn [map] in IH. lia.
Qed.

Lemma sizeMembers_fits members :
  Forall (fun kv => fitsText (snd kv)) members ->
  forallb (fun kv => match kv with (_, x) => numberFree x end) members = true ->
  sizeMembers members <= S (length (joinComma (map memberText members))).
Proof.
  induction 1 as [|[k v] members Hv Hall IH]; [simpl; lia|].
  intros Hnf. simpl in Hnf, Hv. apply andb_true_iff in Hnf as [Hnv Hnf].
  specialize (IH Hnf). specialize (Hv Hnv).
  assert (Hm : size v <= length (memberText (k, v))).
  { cbn [memberText]. rewrite !length_app. lia. }
  destruct members as [|kv2 members].
  - cbn [map joinComma sizeMembers fold_right]. lia.
  - cbn [map]. rewrite length_joinComma_cons.
    change (sizeMembers ((k, v) :: kv2 :: members))
      with (S (size v + sizeMembers (kv2 :: members))).
    cbn [map] in IH. lia.
Qed.

Lemma size_fits v : fitsText v.
Proof.
  induction v as [|b|l|s|items IH|members IH] using json_nested_ind;
    unfold fitsText; intros Hnf.
  - simpl. lia.
  - destruct b; simpl; lia.
  - discriminate.
  - cbn [size stringify]. unfold quote. rewrite !length_app. simpl. lia.
  - cbn [size stringify]. fold (sizeList items).
    rewrite !length_app. cbn [length].
    pose proof (sizeList_fits items IH Hnf). lia.
  - change (stringify (JObject members))
      with ([123%N] ++ joinComma (map memberText members) ++ [125%N]).
    cbn [size]. fold (sizeMembers members).
    rewrite !length_app. cbn [length].
    pose proof (sizeMembers_fits members IH Hnf). lia.
Qed.

(** A value without numbers comes back from its text. *)
Lemma parse_stringify v : numberFree v = true -> parse (stringify v) = Some v.
Proof.
  intros Hnf. unfold parse.
  rewrite <- (app_nil_r (stringify v)) at 2.
  rewrite (parseValue_stringify v Hnf).
  - reflexivity.
  - pose proof (size_fits v Hnf). lia.
Qed.

Lemma messageOfJson_messageToJson m :
  messageOfJson (messageToJson m) = Some (persisted m).
Proof. reflexivity. Qed.

Lemma messagesOfJson_messagesToJson ms :
  messagesOfJson (messagesToJson ms) = Some (map persisted ms).
Proof.
  unfold messagesToJson. cbn [messagesOfJson].
  induction ms as [|m ms IH]; [reflexivity|].
  cbn [map messageListOfJson]. now rewrite messageOfJson_messageToJson, IH.
Qed.

Lemma numberFree_messagesToJson ms : numberFree (messagesToJson ms) = true.
Proof.
  unfold messagesToJson. cbn [numberFree].
  induction ms as [|m ms IH]; [reflexivity|]. cbn [map forallb]. now rewrite IH.
Qed.

Lemma loadMessages_stored w ms :
  storage w = Some (stringify (messagesToJson ms)) ->
  loadMessages w = Some (setMessages (fun _ => map persisted ms) w).
Proof.
  intros Hs. unfold loadMessages. rewrite Hs.
  rewrite parse_stringify by apply numberFree_messagesToJson.
  rewrite messagesOfJson_messagesToJson. reflexivity.
Qed.

Lemma persisted_fields ms :
  map msg_id (map persisted ms) = map msg_id ms
  /\ map msg_content (map persisted ms) = map msg_content ms
  /\ map msg_deviceId (map persisted ms) = map msg_deviceId ms
  /\ map msg_deviceName (map persisted ms) = map msg_deviceName ms
  /\ map msg_sent (map persisted ms) = map msg_sent ms
  /\ length (map persisted ms) = length ms.
Proof.
  rewrite !map_map, length_map. repeat split; now apply map_ext.
Qed.

Lemma runCallback_storage a rid now r w :
  storageMirrors w -> storageMirrors (runCallback a rid now r w).
Proof. unfold storageMirrors. destruct a; intros H; try exact H; reflexivity. Qed.

Lemma sendMessage_storage rid now r w :
  storageMirrors w -> storageMirrors (sendMessage rid now r w).
Proof.
  unfold storageMirrors, sendMessage. intros H.
  destruct (truthy (trim (currentMessage w))); [|exact H].
  destruct (selectedDevice w); [reflexivity|exact H].
Qed.

Lemma reachable_storage_mirrors w : reachable w -> storageMirrors w.
Proof.
  induction 1 as [supported stored w Hm|e w w' Hr IH Hs].
  - apply mount_world in Hm as [ms ->]. reflexivity.
  - step_inv Hs; try exact IH.
    + unfold storageMirrors.
      destruct (scanForDevices_log w) as (-> & _ & ->). exact IH.
    + unfold storageMirrors.
      destruct (scanSettled_log outcome randomId found (withRequests rest w))
        as (-> & _ & ->). exact IH.
    + unfold storageMirrors.
      destruct (disconnectDevice_log device w) as (-> & _ & -> & _). exact IH.
    + now apply sendMessage_storage.
    + now apply runCallback_storage.
Qed.

(** C8.  What the save effect writes, the load effect reads back: the
    log loaded has the messages of the log saved, in the same order and
    with the same id, content, device id, device name and direction;
    only the [Date] of a message comes back as its ISO text.  The same
    holds when the page is mounted over the saved text, and over what
    the store holds in any reachable state.  With nothing stored the
    load effect leaves the state as it is, and the page mounts with the
    empty log; no error is raised. *)
Theorem snapshot_round_trip :
  forall (w : World) (supported : bool),
    (exists w',
        loadMessages (saveMessages w) = Some w'
        /\ messages w' = map persisted (messages w)
        /\ map msg_id (messages w') = map msg_id (messages w)
        /\ map msg_content (messages w') = map msg_content (messages w)
        /\ length (messages w') = length (messages w))
    /\ (exists w',
          mount supported (storage (saveMessages w)) = Some w'
          /\ messages w' = map persisted (messages w))
    /\ (reachable w ->
        exists w',
          mount supported (storage w) = Some w'
          /\ messages w' = map persisted (messages w))
    /\ (storage w = None -> loadMessages w = Some w)
    /\ (exists w0, mount supported None = Some w0 /\ messages w0 = []).
Proof.
  intros w supported.
  destruct (persisted_fields (messages w)) as (Hid & Hc & _ & _ & _ & Hl).
  split; [|split; [|split; [|split]]].
  - eexists. split; [apply loadMessages_stored; reflexivity|].
    cbn [messages setMessages saveMessages setItem]. auto.
  - unfold mount.
    rewrite (loadMessages_stored _ (messages w)) by reflexivity.
    eexists. split; reflexivity.
  - intros Hr. unfold mount.
    rewrite (loadMessages_stored _ (messages w))
      by exact (reachable_storage_mirrors w Hr).
    eexists. split; reflexivity.
  - intros Hs. unfold loadMessages. now rewrite Hs.
  - eexists. split; reflexivity.
Qed.

Lemma snapshot_round_trip_witness :
  storage (firstRender None) = None
  /\ loadMessages (firstRender None) = Some (firstRender None)
  /\ reachable freshPage
  /\ exists w',
       mount true (storage freshPage) = Some w'
       /\ messages w' = map persisted (messages freshPage).
Proof.
  split; [reflexivity|]. split.
  - exact (proj1 (proj2 (proj2 (proj2
             (snapshot_round_trip (firstRender None) false)))) eq_refl).
  - split; [exact freshPage_reachable|].
    exact (proj1 (proj2 (proj2 (snapshot_round_trip freshPage true)))
             freshPage_reachable).
Defined.

(** ** Further properties of the page and of the route *)

Lemma nodup_ids_eq l a b :
  NoDup (deviceIds l) -> In a l -> In b l -> dev_id a = dev_id b -> a = b.
Proof.
  unfold deviceIds. induction l as [|x l IH]; simpl; [tauto|].
  intros Hn Ha Hb E. inversion Hn as [|y ys Hx Hl]; subst.
  destruct Ha as [<-|Ha], Hb as [<-|Hb]; auto.
  - exfalso. apply Hx. rewrite E. now apply in_map.
  - exfalso. apply Hx. rewrite <- E. now apply in_map.
Qed.

Lemma markConnected_In b device l d :
  In d (markConnected b device l) <->
  exists d0, In d0 l
             /\ d = if jsstring_eqb (dev_id d0) (dev_id device)
                    then withConnected b d0 else d0.
Proof.
  unfold markConnected. rewrite in_map_iff.
  split; intros (d0 & H1 & H2); exists d0; auto.
Qed.

Lemma withConnected_same d : withConnected (dev_connected d) d = d.
Proof. now destruct d. Qed.

Lemma connectToDevice_agree device w :
  NoDup (deviceIds (devices w)) -> In device (devices w) ->
  dev_connected device = false ->
  connectedAgree w -> connectedAgree (connectToDevice device w).
Proof.
  intros Hn Hin Hf IH d. cbn [connectToDevice connectedDevices devices
    setTimeout toast setConnectedDevices setDevices].
  rewrite in_app_iff, markConnected_In. split.
  - intros [Hd|[<-|[]]].
    + apply IH in Hd as [Hd Hc]. split; [|assumption].
      exists d. split; [assumption|].
      destruct (jsstring_eqb (dev_id d) (dev_id device)) eqn:E; [|reflexivity].
      apply jsstring_eqb_eq in E.
      rewrite (nodup_ids_eq _ d device Hn Hd Hin E) in Hc. congruence.
    + split; [|reflexivity]. exists device. split; [assumption|].
      now rewrite jsstring_eqb_refl.
  - intros [(d0 & Hd0 & ->) Hc].
    destruct (jsstring_eqb (dev_id d0) (dev_id device)) eqn:E.
    + apply jsstring_eqb_eq in E.
      rewrite (nodup_ids_eq _ d0 device Hn Hd0 Hin E). right. now left.
    + left. apply IH. now split.
Qed.

Lemma disconnectDevice_agree device w :
  connectedAgree w -> connectedAgree (disconnectDevice device w).
Proof.
  intros IH d.
  destruct (disconnectDevice_parts device w) as (-> & -> & _).
  rewrite filter_In, markConnected_In, negb_true_iff. split.
  - intros [Hd E]. apply IH in Hd as [Hd Hc]. split; [|assumption].
    exists d. split; [assumption|]. now rewrite E.
  - intros [(d0 & Hd0 & ->) Hc].
    destruct (jsstring_eqb (dev_id d0) (dev_id device)) eqn:E;
      [discriminate|].
    split; [|assumption]. apply IH. now split.
Qed.

Lemma upsertDiscovered_agree newDevice l d :
  dev_connected newDevice = false ->
  (In d (upsertDiscovered newDevice l) /\ dev_connected d = true
   <-> In d l /\ dev_connected d = true).
Proof.
  intros Hf. unfold upsertDiscovered.
  destruct (find _ l); [tauto|].
  rewrite in_app_iff. split.
  - intros [[H|[<-|[]]] Hc]; [tauto|congruence].
  - tauto.
Qed.

Lemma scanSettled_agree o rid found w :
  connectedAgree w -> connectedAgree (scanSettled o rid found w).
Proof.
  intros IH d. rewrite (proj2 (scanSettled_selection _ _ _ _)).
  unfold scanSettled. destruct o as [id [name|]|]; try exact (IH d).
  destruct (truthy name); [|exact (IH d)].
  cbn [devices setTimeout setDevices].
  rewrite upsertDiscovered_agree by reflexivity. exact (IH d).
Qed.

Lemma reachable_connected_agree w : reachable w -> connectedAgree w.
Proof.
  induction 1 as [supported stored w Hm|e w w' Hr IH Hs].
  - apply mount_world in Hm as [ms ->]. intros d. simpl.
    split; [tauto|]. intros [[<-|[<-|[<-|[<-|[]]]]] Hc]; discriminate.
  - pose proof (reachable_registry_nodup w Hr) as Hn.
    step_inv Hs; try exact IH.
    + intros d. destruct (scanForDevices_parts w) as (-> & -> & _). apply IH.
    + now apply scanSettled_agree.
    + now apply connectToDevice_agree.
    + now apply disconnectDevice_agree.
    + intros d.
      destruct (sendMessage_selection randomId now r w) as (_ & -> & ->).
      apply IH.
    + intros d.
      destruct (runCallback_selection (timer_action t) randomId now r
                  (withTimers (removeNth k (timers w)) w)) as (_ & -> & ->).
      apply IH.
Qed.

Lemma reachable_connected_nodup w :
  reachable w -> NoDup (deviceIds (connectedDevices w)).
Proof.
  induction 1 as [supported stored w Hm|e w w' Hr IH Hs].
  - apply mount_world in Hm as [ms ->]. constructor.
  - pose proof (reachable_registry_nodup w Hr) as Hn.
    pose proof (reachable_connected_agree w Hr) as Ha.
    step_inv Hs; try exact IH.
    + now rewrite (proj1 (proj2 (scanForDevices_parts w))).
    + now rewrite (proj2 (scanSettled_selection _ _ _ _)).
    + cbn [connectToDevice connectedDevices setTimeout toast
             setConnectedDevices setDevices].
      unfold deviceIds. rewrite map_app. apply NoDup_app; [exact IH| |].
      * repeat constructor. intros [].
      * intros x Hx [<-|[]]. cbn in Hx.
        apply in_map_iff in Hx as (c & Ec & Hc).
        apply Ha in Hc as [Hc Hflag].
        rewrite (nodup_ids_eq _ c device Hn Hc H Ec) in Hflag. congruence.
    + rewrite (proj1 (disconnectDevice_parts device w)).
      unfold deviceIds in *. revert IH. clear.
      induction (connectedDevices w) as [|c l IHl]; simpl; [trivial|].
      intros Hn. inversion Hn as [|x xs Hx Hl]; subst.
      destruct (negb (jsstring_eqb (dev_id c) (dev_id device))); simpl; auto.
      constructor; auto. intros Hin. apply Hx.
      apply in_map_iff in Hin as (y & Ey & Hy). apply filter_In in Hy as [Hy _].
      rewrite <- Ey. now apply in_map.
    + now rewrite (proj1 (proj2 (sendMessage_selection randomId now r w))).
    + now rewrite (proj1 (proj2 (runCallback_selection _ _ _ _ _))).
Qed.

Lemma reachable_selection_listed w sel :
  reachable w -> selectedDevice w = Some sel -> In sel (connectedDevices w).
Proof.
  intros Hr. revert sel.
  induction Hr as [supported stored w Hm|e w w' Hr IH Hs]; intros sel.
  - apply mount_world in Hm as [ms ->]. discriminate.
  - step_inv Hs; try exact (IH sel).
    + destruct (scanForDevices_parts w) as (_ & -> & -> & _). apply IH.
    + destruct (scanSettled_selection outcome randomId found
                  (withRequests rest w)) as (-> & ->). apply IH.
    + cbn [connectToDevice connectedDevices selectedDevice setTimeout toast
             setConnectedDevices setDevices].
      intros Hs. apply in_or_app. left. now apply IH.
    + destruct (disconnectDevice_parts device w) as (-> & _ & -> & _).
      destruct (selectedDevice w) as [s|] eqn:Es; [|discriminate].
      destruct (jsstring_eqb (dev_id s) (dev_id device)) eqn:E; [discriminate|].
      intros Hs. injection Hs as <-. apply filter_In. split; [now apply IH|].
      now rewrite E.
    + cbn. intros Hs. now injection Hs as <-.
    + destruct (sendMessage_selection randomId now r w) as (-> & -> & _).
      apply IH.
    + destruct (runCallback_selection (timer_action t) randomId now r
                  (withTimers (removeNth k (timers w)) w)) as (-> & -> & _).
      apply IH.
Qed.

(** X1.  In every reachable state the connected list holds exactly the
    entries of the device list whose connected flag is up, record for
    record, no device is in it twice, and the selected device, when
    there is one, is one of its entries. *)
Theorem connected_list_mirrors_registry :
  forall w : World,
    reachable w ->
    (forall d, In d (connectedDevices w) <->
               In d (devices w) /\ dev_connected d = true)
    /\ NoDup (deviceIds (connectedDevices w))
    /\ (forall sel, selectedDevice w = Some sel ->
          In sel (connectedDevices w) /\ In sel (devices w)).
Proof.
  intros w Hr. split; [now apply reachable_connected_agree|].
  split; [now apply reachable_connected_nodup|].
  intros sel Hs. pose proof (reachable_selection_listed w sel Hr Hs) as Hin.
  split; [assumption|]. now apply (reachable_connected_agree w Hr).
Qed.

Lemma nth_error_markConnected b device l i :
  nth_error l i = Some device ->
  nth_error (markConnected b device l) i = Some (withConnected b device).
Proof.
  intros H. unfold markConnected. rewrite nth_error_map, H. simpl.
  now rewrite jsstring_eqb_refl.
Qed.

Lemma markConnected_undo device l :
  NoDup (deviceIds l) -> In device l -> dev_connected device = false ->
  markConnected false (withConnected true device)
    (markConnected true device l) = l.
Proof.
  intros Hn Hin Hf. unfold markConnected. rewrite map_map.
  rewrite <- (map_id l) at 2. apply map_ext_in. intros d Hd.
  destruct (jsstring_eqb (dev_id d) (dev_id device)) eqn:E.
  - apply jsstring_eqb_eq in E.
    rewrite (nodup_ids_eq _ d device Hn Hd Hin E).
    cbn [withConnected dev_id]. rewrite jsstring_eqb_refl.
    destruct device; simpl in *. now subst.
  - cbn [withConnected dev_id]. now rewrite E.
Qed.

Lemma filter_all {A} (p : A -> bool) l :
  (forall x, In x l -> p x = true) -> filter p l = l.
Proof.
  induction l as [|x l IH]; simpl; [reflexivity|].
  intros H. rewrite (H x) by now left. f_equal. apply IH. intros y Hy.
  apply H. now right.
Qed.

Lemma not_connected_fresh w device :
  reachable w -> In device (devices w) -> dev_connected device = false ->
  forall c, In c (connectedDevices w) ->
    jsstring_eqb (dev_id c) (dev_id device) = false.
Proof.
  intros Hr Hin Hf c Hc. apply jsstring_eqb_neq. intros E.
  apply (reachable_connected_agree w Hr) in Hc as [Hc Hflag].
  rewrite (nodup_ids_eq _ c device (reachable_registry_nodup w Hr) Hc Hin E)
    in Hflag. congruence.
Qed.

Lemma click_device_twice :
  forall (w : World) (i : nat) (device : BluetoothDevice),
    reachable w ->
    nth_error (devices w) i = Some device ->
    dev_connected device = false ->
    exists w',
      run [ClickDevice i; ClickDevice i] w = Some w'
      /\ devices w' = devices w
      /\ connectedDevices w' = connectedDevices w
      /\ selectedDevice w' = selectedDevice w
      /\ messages w' = messages w
      /\ timers w' =
           timers w ++ [mkTimer 1000 (Welcome device) (clock w + 1000)%Q].
Proof.
  intros w i device Hr Hi Hf.
  pose proof (nth_error_In _ _ Hi) as Hin.
  pose proof (reachable_registry_nodup w Hr) as Hn.
  pose proof (not_connected_fresh w device Hr Hin Hf) as Hfresh.
  eexists. split.
  - cbn [run step]. rewrite Hi, Hf.
    cbn [step devices connectToDevice setTimeout toast setConnectedDevices
           setDevices].
    rewrite (nth_error_markConnected true device _ i Hi).
    cbn [dev_connected withConnected]. reflexivity.
  - destruct (disconnectDevice_parts (withConnected true device)
                (connectToDevice device w)) as (-> & -> & -> & _).
    destruct (disconnectDevice_log (withConnected true device)
                (connectToDevice device w)) as (-> & -> & _).
    cbn [connectToDevice devices connectedDevices selectedDevice messages
           timers setTimeout toast setConnectedDevices setDevices].
    split; [now apply markConnected_undo|]. split; [|split; [|split]].
    + rewrite filter_app. cbn [filter withConnected dev_id].
      rewrite jsstring_eqb_refl. cbn [negb]. rewrite app_nil_r.
      apply filter_all. intros c Hc. cbn [withConnected dev_id].
      now rewrite (Hfresh c Hc).
    + destruct (selectedDevice w) as [sel|] eqn:Es; [|reflexivity].
      cbn [withConnected dev_id].
      now rewrite (Hfresh sel (reachable_selection_listed w sel Hr Es)).
    + reflexivity.
    + reflexivity.
Qed.

Lemma run_app es1 : forall es2 a b,
  run es1 a = Some b -> run (es1 ++ es2) a = run es2 b.
Proof.
  induction es1 as [|e es1 IH]; intros es2 a b; simpl.
  - intros H. now injection H as <-.
  - destruct (step e a); [apply IH|discriminate].
Qed.

(** X2.  Clicking the button of a listed device that is not connected
    twice, to connect it and to disconnect it again, gives back the
    device list, the connected list, the selection and the log as they
    were; the welcome timer of the connect stays pending, and once 1000
    milliseconds have passed its message is appended to the thread of
    the device although the device is no longer connected. *)
Theorem connect_then_disconnect_restores :
  forall (w : World) (i : nat) (device : BluetoothDevice)
         (randomId : jsstring) (now : Z) (r : Number.t) (dt : Q),
    reachable w ->
    nth_error (devices w) i = Some device ->
    dev_connected device = false ->
    (exists w1,
        run [ClickDevice i; ClickDevice i] w = Some w1
        /\ devices w1 = devices w
        /\ connectedDevices w1 = connectedDevices w
        /\ selectedDevice w1 = selectedDevice w
        /\ messages w1 = messages w
        /\ timers w1 =
             timers w ++ [mkTimer 1000 (Welcome device) (clock w + 1000)%Q])
    /\ (unitDraw r = true -> (1000 <= dt)%Q ->
        exists w2,
          run [ClickDevice i; ClickDevice i; TimePasses dt;
               TimerFires (length (timers w)) randomId now r] w = Some w2
          /\ connectedDevices w2 = connectedDevices w
          /\ devices w2 = devices w
          /\ timers w2 = timers w
          /\ messages w2 =
               messages w
                 ++ [mkMessage randomId (dev_id device) (dev_name device)
                       welcomeText (DateObj now) false]).
Proof.
  intros w i device randomId now r dt Hr Hi Hf.
  split; [exact (click_device_twice w i device Hr Hi Hf)|].
  intros Hu Hdt.
  destruct (click_device_twice w i device Hr Hi Hf)
    as (w1 & Hrun & Hd & Hc & _ & Hm & Ht).
  assert (H0 : (0 <= dt)%Q).
  { eapply Qle_trans; [|exact Hdt]. discriminate. }
  assert (Hk : nth_error (timers w1) (length (timers w)) =
            Some (mkTimer 1000 (Welcome device) (clock w + 1000)%Q)).
  { rewrite Ht. apply nth_error_last. }
  assert (Hclock : clock w1 = clock w).
  { cbn [run step] in Hrun. rewrite Hi, Hf in Hrun.
    cbn [step devices connectToDevice setTimeout toast setConnectedDevices
           setDevices] in Hrun.
    rewrite (nth_error_markConnected true device _ i Hi) in Hrun.
    cbn [dev_connected withConnected] in Hrun. injection Hrun as <-.
    now rewrite (proj2 (proj2 (proj2 (disconnectDevice_log _ _)))). }
  change [ClickDevice i; ClickDevice i; TimePasses dt;
          TimerFires (length (timers w)) randomId now r]
    with ([ClickDevice i; ClickDevice i]
            ++ [TimePasses dt; TimerFires (length (timers w)) randomId now r]).
  rewrite (run_app _ _ _ _ Hrun).
  rewrite (wait_then_fire w1 _ _ dt randomId now r Hk Hu H0).
  cbn [timer_due timer_action]. rewrite Hclock.
  apply Qle_bool_iff in Hdt. rewrite Qle_bool_plus, Hdt.
  eexists. split; [reflexivity|].
  rewrite (proj1 (runCallback_log _ _ _ _ _)).
  rewrite (proj2 (runCallback_log _ _ _ _ _)).
  destruct (runCallback_selection (Welcome device) randomId now r
              (withTimers (removeNth (length (timers w)) (timers w1))
                 (advance dt w1))) as (_ & -> & ->).
  cbn [connectedDevices devices timers messages withTimers advance
         callbackMessage].
  rewrite Ht, removeNth_last, Hm. auto.
Qed.

Ltac world_fields :=
  unfold toast, setConnectedDevices, setDevices, setSelectedDevice;
  cbn [toast setConnectedDevices setDevices setSelectedDevice setTimeout
       setCurrentMessage setIsScanning withTimers withRequests advance
       isScanning devices connectedDevices messages currentMessage
       selectedDevice bluetoothSupported toasts timers requests storage clock].

(** X3.  Disconnecting a device that was just disconnected changes
    nothing but the toasts: the state after the second call is the
    state after the first with the "Disconnected" toast shown once
    more. *)
Theorem disconnectDevice_twice :
  forall (device : BluetoothDevice) (w : World),
    disconnectDevice device (disconnectDevice device w) =
      toast (mkToast (js "Disconnected")
               (js "Disconnected from " ++ dev_name device) default)
        (disconnectDevice device w).
Proof.
  intros device w.
  set (w1 := disconnectDevice device w).
  destruct (disconnectDevice_parts device w) as (Hc & Hd & Hs & _).
  fold w1 in Hc, Hd, Hs.
  assert (Hd2 : markConnected false device (devices w1) = devices w1).
  { rewrite Hd. unfold markConnected. rewrite map_map. apply map_ext.
    intros d. destruct (jsstring_eqb (dev_id d) (dev_id device)) eqn:E.
    - cbn [withConnected dev_id]. now rewrite E.
    - now rewrite E. }
  assert (Hc2 : filter (fun d => negb (jsstring_eqb (dev_id d) (dev_id device)))
                  (connectedDevices w1) = connectedDevices w1).
  { rewrite Hc. apply filter_all. intros x Hx.
    now apply filter_In in Hx as [_ Hx]. }
  unfold disconnectDevice at 1.
  assert (Hs2 : match selectedDevice w1 with
                | Some sel => jsstring_eqb (dev_id sel) (dev_id device) = false
                | None => True
                end).
  { rewrite Hs. destruct (selectedDevice w) as [sel|]; [|exact I].
    destruct (jsstring_eqb (dev_id sel) (dev_id device)) eqn:E; [exact I|].
    exact E. }
  destruct (selectedDevice w1) as [sel|] eqn:Es.
  - rewrite Hs2. world_fields. now rewrite Hd2, Hc2.
  - world_fields. now rewrite Hd2, Hc2, Es.
Qed.

Lemma listing_markConnected b device l :
  listing (markConnected b device l) = listing l.
Proof.
  unfold listing, markConnected. rewrite map_map. apply map_ext.
  intros d. now destruct (jsstring_eqb (dev_id d) (dev_id device)).
Qed.

Lemma deviceIds_listing l : deviceIds (listing l) = deviceIds l.
Proof. unfold deviceIds, listing. rewrite map_map. now apply map_ext. Qed.

Lemma deviceIds_app l l' : deviceIds (l ++ l') = deviceIds l ++ deviceIds l'.
Proof. apply map_app. Qed.

Lemma step_registry_grows e w w' :
  step e w = Some w' ->
  exists more, listing (devices w') = listing (devices w) ++ listing more.
Proof.
  intros Hs. step_inv Hs; try (exists []; cbn; now rewrite app_nil_r).
  - exists []. rewrite (proj1 (scanForDevices_parts w)). cbn.
    now rewrite app_nil_r.
  - destruct (scanSettled_devices outcome randomId found (withRequests rest w))
      as [E|[nd E]]; rewrite E; cbn [devices withRequests].
    + exists []. cbn. now rewrite app_nil_r.
    + unfold upsertDiscovered. destruct (find _ (devices w)).
      * exists []. cbn. now rewrite app_nil_r.
      * exists [nd]. unfold listing. now rewrite map_app.
  - exists []. cbn [connectToDevice devices setTimeout toast
                     setConnectedDevices setDevices].
    rewrite listing_markConnected. cbn. now rewrite app_nil_r.
  - exists []. rewrite (proj1 (proj2 (disconnectDevice_parts device w))).
    rewrite listing_markConnected. cbn. now rewrite app_nil_r.
  - exists []. rewrite (proj2 (proj2 (sendMessage_selection _ _ _ _))).
    cbn. now rewrite app_nil_r.
  - exists []. rewrite (proj2 (proj2 (runCallback_selection _ _ _ _ _))).
    cbn. now rewrite app_nil_r.
Qed.

(** X4.  Over any run the device list only grows at its end: apart
    from the connected flag, the entries it had are still there, in the
    same places, with the same id, name, type and signal strength. *)
Theorem registry_only_grows :
  forall (es : list Event) (w w' : World),
    run es w = Some w' ->
    exists more,
      listing (devices w') = listing (devices w) ++ listing more
      /\ deviceIds (devices w') = deviceIds (devices w) ++ deviceIds more.
Proof.
  induction es as [|e es IH]; intros w w'; simpl.
  - intros H. injection H as <-. exists []. cbn. now rewrite !app_nil_r.
  - destruct (step e w) as [w1|] eqn:E; [|discriminate].
    intros H. apply IH in H as (m2 & H2 & I2).
    apply step_registry_grows in E as (m1 & H1).
    exists (m1 ++ m2).
    assert (L : listing (devices w') = listing (devices w) ++ listing (m1 ++ m2)).
    { rewrite H2, H1. unfold listing. now rewrite map_app, app_assoc. }
    split; [exact L|].
    apply (f_equal deviceIds) in L.
    now rewrite deviceIds_app, !deviceIds_listing in L.
Qed.

Lemma scanSettled_scanning o rid found w :
  isScanning (scanSettled o rid found w) = isScanning w
  /\ requests (scanSettled o rid found w) = requests w.
Proof.
  unfold scanSettled. destruct o as [id [name|]|]; try (split; reflexivity).
  now destruct (truthy name).
Qed.

Lemma disconnectDevice_scanning device w :
  isScanning (disconnectDevice device w) = isScanning w
  /\ requests (disconnectDevice device w) = requests w.
Proof.
  unfold disconnectDevice. destruct (selectedDevice w) as [sel|]; simpl;
    [|auto].
  destruct (jsstring_eqb (dev_id sel) (dev_id device)); simpl; auto.
Qed.

Ltac scan_count :=
  cbn [requests timers isScanning setTimeout toast setConnectedDevices
       setDevices setIsScanning setCurrentMessage setMessages saveMessages
       setItem withRequests withTimers advance connectToDevice];
  rewrite ?length_app, ?count_app, ?count_cons, ?count_nil;
  unfold isScanDone; cbn [timer_action length]; try lia.

Lemma step_scanIndicator e w w' :
  step e w = Some w' -> scanIndicatorRight w -> scanIndicatorRight w'.
Proof.
  unfold scanIndicatorRight, scansInFlight.
  destruct e as [|outcome randomId|i|j|text|randomId now r|dt
                 |k randomId now r];
    cbn [step].
  - destruct (isScanning w) eqn:Es; [discriminate|].
    intros H; injection H as <-. unfold scanForDevices.
    destruct (bluetoothSupported w); scan_count.
  - destruct (requests w) as [|found rest] eqn:Er; [discriminate|].
    intros H; injection H as <-.
    destruct (scanSettled_scanning outcome randomId found (withRequests rest w))
      as (-> & ->).
    rewrite (proj1 (proj2 (scanSettled_log _ _ _ _))).
    scan_count.
  - destruct (nth_error (devices w) i) as [device|]; [|discriminate].
    intros H; injection H as <-. destruct (dev_connected device).
    + destruct (disconnectDevice_scanning device w) as (-> & ->).
      now rewrite (proj1 (proj2 (disconnectDevice_log device w))).
    + scan_count.
  - destruct (nth_error (connectedDevices w) j); [|discriminate].
    intros H; injection H as <-. trivial.
  - destruct (selectedDevice w); [|discriminate].
    destruct (length text <=? 500); [|discriminate].
    intros H; injection H as <-. trivial.
  - destruct (selectedDevice w) as [sel|] eqn:Hsel; [|discriminate].
    destruct (unitDraw r); [|discriminate].
    intros H; injection H as <-. unfold sendMessage. rewrite Hsel.
    destruct (truthy (trim (currentMessage w))); [|trivial].
    scan_count.
  - destruct (Qle_bool 0 dt); [|discriminate].
    intros H; injection H as <-. trivial.
  - destruct (nth_error (timers w) k) as [t|] eqn:Hk; [|discriminate].
    destruct (Qle_bool (timer_due t) (clock w)); [|discriminate].
    destruct (unitDraw r); [|discriminate].
    intros H; injection H as <-.
    pose proof (count_removeNth isScanDone k (timers w) t Hk) as Hc.
    unfold isScanDone in Hc.
    destruct (timer_action t); cbn [runCallback]; scan_count.
    destruct (isScanning w); lia.
Qed.

Lemma reachable_scanIndicator w : reachable w -> scanIndicatorRight w.
Proof.
  induction 1 as [supported stored w Hm|e w w' Hr IH Hs].
  - apply mount_world in Hm as [ms ->]. reflexivity.
  - now apply (step_scanIndicator e w w').
Qed.

Lemma reachable_idle w :
  reachable w -> isScanning w = false ->
  requests w = [] /\ forall t, In t (timers w) -> isScanDone t = false.
Proof.
  intros Hr Hs. pose proof (reachable_scanIndicator w Hr) as H.
  unfold scanIndicatorRight, scansInFlight in H.
  rewrite Hs in H. split.
  - destruct (requests w); [reflexivity|simpl in H; lia].
  - assert (Hc : count isScanDone (timers w) = 0) by lia.
    unfold count in Hc. intros t Ht.
    destruct (isScanDone t) eqn:E; [|reflexivity].
    assert (Hin : In t (filter isScanDone (timers w))).
    { apply filter_In. now split. }
    destruct (filter isScanDone (timers w)); [destruct Hin|discriminate].
Qed.

(** X5.  In every reachable state at most one scan is under way, counting
    the device request that has not settled and the settled scan whose
    end has not been announced, and the scanning indicator is on exactly
    while there is one; with the indicator off no request and no
    end-of-scan timer is pending. *)
Theorem scan_indicator_tracks_scan :
  forall w : World,
    reachable w ->
    scansInFlight w = (if isScanning w then 1 else 0)
    /\ (isScanning w = false ->
        requests w = [] /\ forall t, In t (timers w) -> isScanDone t = false).
Proof.
  intros w Hr. split; [exact (reachable_scanIndicator w Hr)|].
  now apply reachable_idle.
Qed.

Lemma scanSettled_afterScan o rid found w :
  devices (scanSettled o rid found w) = afterScan o rid (devices w).
Proof.
  unfold scanSettled, afterScan. destruct o as [id [[|c name]|]|]; reflexivity.
Qed.

Lemma scanSettled_rest o rid found w :
  toasts (scanSettled o rid found w) = toasts w
  /\ clock (scanSettled o rid found w) = clock w
  /\ connectedDevices (scanSettled o rid found w) = connectedDevices w
  /\ selectedDevice (scanSettled o rid found w) = selectedDevice w.
Proof.
  unfold scanSettled.
  destruct o as [id [name|]|]; [destruct (truthy name)| |];
    repeat split; reflexivity.
Qed.

(** X6.  A scan started with the indicator off runs to its end whatever
    the device request settles to: 2000 milliseconds after it settles
    (after the click, without Web Bluetooth) the indicator is off again
    and no scan is pending.  The device list has gained the device found
    only if that device has a non-empty name and an id not yet listed;
    a rejected request, a device without a name and a known id leave it
    as it was.  The "Scan Complete" toast reports the length the device
    list had when Scan was clicked, so a device found by this scan is
    not counted.  The log, the connected list and the selection are
    untouched. *)
Theorem scan_runs_to_its_end :
  forall (w : World) (outcome : ScanOutcome) (randomId randomId' : jsstring)
         (now : Z) (r : Number.t) (dt : Q),
    reachable w -> isScanning w = false -> unitDraw r = true ->
    (2000 <= dt)%Q ->
    exists w',
      run (scanEvents (bluetoothSupported w) outcome randomId dt
             (length (timers w)) randomId' now r) w = Some w'
      /\ isScanning w' = false
      /\ requests w' = []
      /\ timers w' = timers w
      /\ devices w' =
           (if bluetoothSupported w then afterScan outcome randomId (devices w)
            else devices w)
      /\ toasts w' =
           toasts w
             ++ [mkToast (js "Scan Complete")
                   (js "Found " ++ natToString (length (devices w))
                      ++ js " nearby devices") default]
      /\ messages w' = messages w
      /\ connectedDevices w' = connectedDevices w
      /\ selectedDevice w' = selectedDevice w.
Proof.
  intros w outcome randomId randomId' now r dt Hr Hs Hu Hdt.
  destruct (reachable_idle w Hr Hs) as [Hreq _].
  assert (H0 : (0 <= dt)%Q).
  { eapply Qle_trans; [|exact Hdt]. discriminate. }
  apply Qle_bool_iff in Hdt.
  unfold scanEvents. destruct (bluetoothSupported w) eqn:Eb.
  - assert (S1 : step ClickScan w =
                 Some (withRequests [length (devices w)] (setIsScanning true w))).
    { cbn [step]. rewrite Hs. unfold scanForDevices. rewrite Eb.
      cbn [requests setIsScanning]. now rewrite Hreq. }
    set (w1 := withRequests [length (devices w)] (setIsScanning true w)) in *.
    set (w2 := scanSettled outcome randomId (length (devices w))
                 (withRequests [] w1)).
    assert (S2 : step (ScanSettles outcome randomId) w1 = Some w2).
    { reflexivity. }
    destruct (scanSettled_log outcome randomId (length (devices w))
                (withRequests [] w1)) as (Hm2 & Ht2 & _).
    destruct (scanSettled_rest outcome randomId (length (devices w))
                (withRequests [] w1)) as (Hto2 & Hc2 & Hcd2 & Hsel2).
    destruct (scanSettled_scanning outcome randomId (length (devices w))
                (withRequests [] w1)) as (Hsc2 & Hrq2).
    fold w2 in Hm2, Ht2, Hto2, Hc2, Hcd2, Hsel2, Hsc2, Hrq2.
    cbn [timers withRequests setIsScanning clock] in Ht2.
    assert (Hk : nth_error (timers w2) (length (timers w)) =
              Some (mkTimer 2000 (ScanDone (length (devices w)))
                      (clock w + 2000)%Q)).
    { rewrite Ht2. apply nth_error_last. }
    change (run (ClickScan :: ScanSettles outcome randomId
                   :: [TimePasses dt; TimerFires (length (timers w)) randomId' now r]) w)
      with (match step ClickScan w with
            | Some a =>
                match step (ScanSettles outcome randomId) a with
                | Some b =>
                    run [TimePasses dt;
                         TimerFires (length (timers w)) randomId' now r] b
                | None => None
                end
            | None => None
            end).
    rewrite S1, S2.
    rewrite (wait_then_fire w2 _ _ dt randomId' now r Hk Hu H0).
    cbn [timer_due timer_action]. rewrite Hc2.
    cbn [clock withRequests setIsScanning]. rewrite Qle_bool_plus, Hdt.
    eexists. split; [reflexivity|].
    cbn [runCallback isScanning requests timers devices toasts messages
           connectedDevices selectedDevice toast setIsScanning withTimers
           advance].
    rewrite Ht2, removeNth_last, Hrq2, Hto2, Hm2, Hcd2, Hsel2.
    unfold w2. rewrite scanSettled_afterScan.
    repeat split; reflexivity.
  - set (w1 := setTimeout (ScanDone (length (devices w))) 2000
                 (setIsScanning true w)).
    assert (S1 : step ClickScan w = Some w1).
    { cbn [step]. rewrite Hs. unfold scanForDevices. now rewrite Eb. }
    assert (Hk : nth_error (timers w1) (length (timers w)) =
              Some (mkTimer 2000 (ScanDone (length (devices w)))
                      (clock w + 2000)%Q)).
    { apply nth_error_last. }
    change (run (ClickScan
                   :: [TimePasses dt; TimerFires (length (timers w)) randomId' now r]) w)
      with (match step ClickScan w with
            | Some a =>
                run [TimePasses dt;
                     TimerFires (length (timers w)) randomId' now r] a
            | None => None
            end).
    rewrite S1.
    rewrite (wait_then_fire w1 _ _ dt randomId' now r Hk Hu H0).
    cbn [timer_due timer_action].
    change (clock w1) with (clock w). rewrite Qle_bool_plus, Hdt.
    eexists. split; [reflexivity|].
    cbn [runCallback isScanning requests timers devices toasts messages
           connectedDevices selectedDevice toast setIsScanning withTimers
           advance].
    unfold w1.
    cbn [isScanning requests timers devices toasts messages
           connectedDevices selectedDevice setTimeout setIsScanning].
    rewrite removeNth_last. repeat split; assumption || reflexivity.
Qed.

Lemma trimStart_app_nonws a c b :
  isWhiteSpace c = false -> trimStart (a ++ c :: b) = trimStart a ++ c :: b.
Proof.
  intros Hc. induction a as [|x a IH]; simpl.
  - now rewrite Hc.
  - destruct (isWhiteSpace x); [exact IH|reflexivity].
Qed.

Lemma trim_Trimmed s : Trimmed (trim s).
Proof.
  unfold trim, trimEnd. destruct (trimStart s) as [|c u] eqn:E.
  - constructor.
  - apply trimStart_head in E.
    change (rev (c :: u)) with (rev u ++ [c]).
    rewrite trimStart_app_nonws by assumption.
    rewrite rev_app_distr. cbn [rev app].
    destruct (trimStart (rev u)) as [|d z] eqn:F.
    + now constructor.
    + apply trimStart_head in F. cbn [rev]. now constructor.
Qed.

Lemma Trimmed_fixed s : Trimmed s -> trim s = s.
Proof.
  intros [|c Hc|c mid d Hc Hd].
  - reflexivity.
  - unfold trim, trimEnd. cbn. rewrite Hc. cbn. now rewrite Hc.
  - now apply trim_fixed.
Qed.

Lemma trim_idempotent s : trim (trim s) = trim s.
Proof. apply Trimmed_fixed, trim_Trimmed. Qed.

Ltac no_append H :=
  exfalso; symmetry in H; revert H; apply appended_differs.

Lemma step_appends_sessionMessage e w w' m :
  reachable w -> step e w = Some w' -> messages w' = messages w ++ [m] ->
  sessionMessage m.
Proof.
  intros Hr Hs Hm.
  destruct e as [|outcome randomId|i|j|text|randomId now r|dt
                 |k randomId now r];
    cbn [step] in Hs.
  - destruct (isScanning w); [discriminate|]. injection Hs as <-.
    rewrite (proj1 (scanForDevices_log w)) in Hm.
    no_append Hm.
  - destruct (requests w) as [|found rest]; [discriminate|].
    injection Hs as <-. rewrite (proj1 (scanSettled_log _ _ _ _)) in Hm.
    no_append Hm.
  - destruct (nth_error (devices w) i) as [device|]; [|discriminate].
    injection Hs as <-. destruct (dev_connected device).
    + rewrite (proj1 (disconnectDevice_log device w)) in Hm.
      no_append Hm.
    + no_append Hm.
  - destruct (nth_error (connectedDevices w) j); [|discriminate].
    injection Hs as <-. no_append Hm.
  - destruct (selectedDevice w); [|discriminate].
    destruct (length text <=? 500); [|discriminate].
    injection Hs as <-. no_append Hm.
  - destruct (selectedDevice w) as [sel|] eqn:Hsel; [|discriminate].
    destruct (unitDraw r); [|discriminate].
    injection Hs as <-. unfold sendMessage in Hm. rewrite Hsel in Hm.
    destruct (truthy (trim (currentMessage w))) eqn:Et;
      [|no_append Hm].
    cbn [messages setTimeout setCurrentMessage setMessages saveMessages
           setItem] in Hm.
    apply app_inv_head in Hm. injection Hm as <-.
    split; [now eexists|]. cbn [msg_sent msg_content]. split.
    + intros E. rewrite E in Et. discriminate.
    + apply trim_idempotent.
  - destruct (Qle_bool 0 dt); [|discriminate].
    injection Hs as <-. no_append Hm.
  - destruct (nth_error (timers w) k) as [t|]; [|discriminate].
    destruct (Qle_bool (timer_due t) (clock w)); [|discriminate].
    destruct (unitDraw r) eqn:Hu; [|discriminate].
    injection Hs as <-. rewrite (proj1 (runCallback_log _ _ _ _ _)) in Hm.
    cbn [messages withTimers] in Hm. apply app_inv_head in Hm.
    destruct (timer_action t); cbn [callbackMessage] in Hm;
      try discriminate; injection Hm as <-.
    + split; [now eexists|]. now left.
    + split; [now eexists|]. right. now apply pickResponse_in_pool.
Qed.

Lemma run_reachable es : forall w w',
  reachable w -> run es w = Some w' -> reachable w'.
Proof.
  induction es as [|e es IH]; intros w w' Hr; simpl.
  - intros H. now injection H as <-.
  - destruct (step e w) as [w1|] eqn:E; [|discriminate].
    apply IH. now apply (reachable_step e w w1).
Qed.

Lemma run_appended_all (P : Message -> Prop) :
  (forall e w w' m, reachable w -> step e w = Some w' ->
                    messages w' = messages w ++ [m] -> P m) ->
  forall es w w', reachable w -> run es w = Some w' ->
    exists appended,
      messages w' = messages w ++ appended /\ Forall P appended.
Proof.
  intros HP es. induction es as [|e es IH]; intros w w' Hr; simpl.
  - intros H. injection H as <-. exists []. split; [now rewrite app_nil_r|].
    constructor.
  - destruct (step e w) as [w1|] eqn:E; [|discriminate].
    intros H. pose proof (reachable_step e w w1 Hr E) as Hr1.
    destruct (IH w1 w' Hr1 H) as (ms & Hm & Hall).
    destruct (step_appends e w w1 E) as [E1|(m & E1 & _)].
    + exists ms. split; [congruence|assumption].
    + exists (m :: ms). split.
      * rewrite Hm, E1, <- app_assoc. reflexivity.
      * constructor; [|assumption]. exact (HP e w w1 m Hr E E1).
Qed.

(** X7.  The messages a run appends are made in this session: the
    timestamp is a [Date]; an outbound one has a content that is not
    empty and has no white space at either end (trimming it changes
    nothing); an inbound one has the welcome text or a text of the
    reply pool, the index [Math.floor(r * 7)] being computed as the
    program computes it, in binary64. *)
Theorem appended_messages_are_well_formed :
  forall (es : list Event) (w w' : World),
    reachable w -> run es w = Some w' ->
    exists appended,
      messages w' = messages w ++ appended
      /\ Forall sessionMessage appended.
Proof. exact (run_appended_all sessionMessage step_appends_sessionMessage). Qed.

Lemma listed_grows l l' more id name :
  listing l' = listing l ++ listing more ->
  listed l id name -> listed l' id name.
Proof.
  intros E (d & Hd & Hi & Hn).
  assert (H : In (withConnected false d) (listing l')).
  { rewrite E. apply in_or_app. left. unfold listing. now apply in_map. }
  unfold listing in H. apply in_map_iff in H as (d' & Ed & Hd').
  exists d'. split; [assumption|].
  apply (f_equal dev_id) in Ed as Ei. apply (f_equal dev_name) in Ed as En.
  cbn in Ei, En. split; congruence.
Qed.

Lemma timerListed_grows l l' more t :
  listing l' = listing l ++ listing more ->
  timerListed l t -> timerListed l' t.
Proof.
  intros E. unfold timerListed.
  destruct (timer_action t); trivial; now apply (listed_grows l l' more).
Qed.

Lemma attributed_grows w l' more :
  listing l' = listing (devices w) ++ listing more ->
  attributed w ->
  Forall (fun m => listed l' (msg_deviceId m) (msg_deviceName m)) (messages w)
  /\ Forall (timerListed l') (timers w).
Proof.
  intros E [Hm Ht]. split.
  - eapply Forall_impl; [|exact Hm]. intros m.
    now apply (listed_grows _ _ more).
  - eapply Forall_impl; [|exact Ht]. intros t.
    now apply (timerListed_grows _ _ more).
Qed.

Lemma In_removeNth {A} k (l : list A) x : In x (removeNth k l) -> In x l.
Proof.
  revert k. induction l as [|y l IH]; intros [|k]; simpl; auto.
  intros [H|H]; [now left|right; now apply (IH k)].
Qed.

Lemma Forall_removeNth {A} (P : A -> Prop) k l :
  Forall P l -> Forall P (removeNth k l).
Proof.
  rewrite !Forall_forall. intros H x Hx. apply H.
  now apply (In_removeNth k).
Qed.

Lemma Forall_snoc {A} (P : A -> Prop) l x :
  Forall P l -> P x -> Forall P (l ++ [x]).
Proof. intros Hl Hx. apply Forall_app. split; [assumption|now constructor]. Qed.

Lemma step_attributed e w w' :
  reachable w -> step e w = Some w' -> attributed w -> attributed w'.
Proof.
  intros Hr Hs Ha.
  destruct (step_registry_grows e w w' Hs) as (more & Hg).
  destruct (attributed_grows w (devices w') more Hg Ha) as [Hm Ht].
  unfold attributed.
  destruct e as [|outcome randomId|i|j|text|randomId now r|dt
                 |k randomId now r];
    cbn [step] in Hs.
  - destruct (isScanning w); [discriminate|]. injection Hs as <-.
    destruct (scanForDevices_log w) as (-> & [-> | ->] & _);
      (split; [exact Hm|]); [exact Ht|].
    apply Forall_snoc; [exact Ht|exact I].
  - destruct (requests w) as [|found rest]; [discriminate|].
    injection Hs as <-.
    destruct (scanSettled_log outcome randomId found (withRequests rest w))
      as (-> & -> & _).
    split; [exact Hm|]. apply Forall_snoc; [exact Ht|exact I].
  - destruct (nth_error (devices w) i) as [device|] eqn:Ei; [|discriminate].
    injection Hs as <-. destruct (dev_connected device).
    + destruct (disconnectDevice_log device w) as (-> & -> & _). now split.
    + split; [exact Hm|].
      cbn [connectToDevice timers setTimeout toast setConnectedDevices
             setDevices].
      apply Forall_snoc; [exact Ht|].
      unfold timerListed. cbn [timer_action].
      apply (listed_grows (devices w) _ more _ _ Hg).
      exists device. split; [now apply (nth_error_In _ i)|now split].
  - destruct (nth_error (connectedDevices w) j); [|discriminate].
    injection Hs as <-. now split.
  - destruct (selectedDevice w); [|discriminate].
    destruct (length text <=? 500); [|discriminate].
    injection Hs as <-. now split.
  - destruct (selectedDevice w) as [sel|] eqn:Hsel; [|discriminate].
    destruct (unitDraw r); [|discriminate].
    injection Hs as <-. 
    assert (Hl : listed (devices (sendMessage randomId now r w))
                   (dev_id sel) (dev_name sel)).
    { apply (listed_grows (devices w) _ more _ _ Hg). exists sel.
      split; [|now split].
      apply (reachable_connected_agree w Hr).
      now apply reachable_selection_listed. }
    revert Hm Ht Hl. unfold sendMessage. rewrite Hsel.
    destruct (truthy (trim (currentMessage w))); [|now split].
    cbn [devices messages timers setTimeout setCurrentMessage setMessages
           saveMessages setItem].
    intros Hm Ht Hl. split.
    + apply Forall_snoc; [exact Hm|exact Hl].
    + apply Forall_snoc; [apply Forall_snoc; [exact Ht|exact I]|exact Hl].
  - destruct (Qle_bool 0 dt); [|discriminate].
    injection Hs as <-. now split.
  - destruct (nth_error (timers w) k) as [t|] eqn:Hk; [|discriminate].
    destruct (Qle_bool (timer_due t) (clock w)); [|discriminate].
    destruct (unitDraw r) eqn:Hu; [|discriminate].
    injection Hs as <-.
    assert (Htk : timerListed
                    (devices (runCallback (timer_action t) randomId now r
                                (withTimers (removeNth k (timers w)) w))) t).
    { rewrite Forall_forall in Ht. apply Ht. now apply (nth_error_In _ k). }
    revert Hm Ht Htk.
    rewrite (proj2 (proj2 (runCallback_selection _ _ _ _ _))).
    destruct (runCallback_log (timer_action t) randomId now r
                (withTimers (removeNth k (timers w)) w)) as (-> & ->).
    cbn [devices messages timers withTimers].
    intros Hm Ht Htk. split; [|now apply Forall_removeNth].
    unfold timerListed in Htk.
    destruct (timer_action t); cbn [callbackMessage];
      rewrite ?app_nil_r; try exact Hm;
      apply Forall_snoc; assumption.
Qed.

Lemma run_attributed es : forall w w',
  reachable w -> run es w = Some w' -> attributed w -> attributed w'.
Proof.
  induction es as [|e es IH]; intros w w' Hr; simpl.
  - intros H. now injection H as <-.
  - destruct (step e w) as [w1|] eqn:E; [|discriminate].
    intros H Ha. apply (IH w1 w' (reachable_step e w w1 Hr E) H).
    now apply (step_attributed e w w1).
Qed.

(** X8.  When the page was mounted with nothing stored, every message of
    the log carries the id and the name of an entry of the device
    list. *)
Theorem session_messages_name_listed_devices :
  forall (supported : bool) (es : list Event) (w0 w : World),
    mount supported None = Some w0 ->
    run es w0 = Some w ->
    Forall (fun m => exists d, In d (devices w)
                               /\ dev_id d = msg_deviceId m
                               /\ dev_name d = msg_deviceName m)
      (messages w).
Proof.
  intros supported es w0 w Hm Hrun.
  assert (Hr : reachable w0) by exact (reachable_mount supported None w0 Hm).
  assert (Ha : attributed w0).
  { injection Hm as <-. split; constructor. }
  exact (proj1 (run_attributed es w0 w Hr Hrun Ha)).
Qed.

Lemma list_sum_map_add {A} (f g : A -> nat) l :
  list_sum (map (fun x => f x + g x) l) =
  list_sum (map f l) + list_sum (map g l).
Proof. induction l as [|x l IH]; simpl; lia. Qed.

Lemma list_sum_indicator x ids :
  NoDup ids -> In x ids ->
  list_sum (map (fun id => if jsstring_eqb x id then 1 else 0) ids) = 1.
Proof.
  induction ids as [|y ids IH]; simpl; [tauto|].
  intros Hn Hin. inversion Hn as [|z zs Hy Hl]; subst.
  destruct (jsstring_eqb x y) eqn:E.
  - apply jsstring_eqb_eq in E. subst y.
    assert (Z0 : list_sum (map (fun id => if jsstring_eqb x id then 1 else 0) ids) = 0).
    { clear -Hy. induction ids as [|z ids IH]; simpl; [reflexivity|].
      destruct (jsstring_eqb x z) eqn:E.
      - apply jsstring_eqb_eq in E. subst. exfalso. apply Hy. now left.
      - apply IH. intros H. apply Hy. now right. }
    lia.
  - apply jsstring_eqb_neq in E. destruct Hin as [->|Hin]; [congruence|].
    now apply IH.
Qed.

Lemma threads_partition ids msgs :
  NoDup ids -> Forall (fun m => In (msg_deviceId m) ids) msgs ->
  list_sum
    (map (fun id =>
            length (filter (fun m => jsstring_eqb (msg_deviceId m) id) msgs))
       ids) = length msgs.
Proof.
  intros Hn. induction 1 as [|m msgs Hm Hall IH]; simpl.
  - induction ids; simpl; auto. inversion Hn; subst. auto.
  - transitivity
      (list_sum
         (map (fun id =>
                 (if jsstring_eqb (msg_deviceId m) id then 1 else 0)
                 + length (filter (fun x => jsstring_eqb (msg_deviceId x) id)
                             msgs)) ids)).
    + f_equal. apply map_ext. intros id.
      now destruct (jsstring_eqb (msg_deviceId m) id).
    + rewrite list_sum_map_add, (list_sum_indicator _ ids Hn Hm), IH.
      reflexivity.
Qed.

(** X9.  When the page was mounted with nothing stored, the threads of
    the listed devices partition the log: the message counts shown for
    the devices of the list add up to the length of the log. *)
Theorem session_threads_partition_the_log :
  forall (supported : bool) (es : list Event) (w0 w : World),
    mount supported None = Some w0 ->
    run es w0 = Some w ->
    list_sum
      (map (fun d => length (getMessagesForDevice (dev_id d) w)) (devices w))
    = length (messages w).
Proof.
  intros supported es w0 w Hm Hrun.
  assert (Hr : reachable w0) by exact (reachable_mount supported None w0 Hm).
  assert (Ha : attributed w0).
  { injection Hm as <-. split; constructor. }
  pose proof (proj1 (run_attributed es w0 w Hr Hrun Ha)) as Hl.
  pose proof (reachable_registry_nodup w (run_reachable es w0 w Hr Hrun)) as Hn.
  rewrite <- (threads_partition (deviceIds (devices w)) (messages w) Hn).
  - unfold deviceIds. rewrite map_map. reflexivity.
  - eapply Forall_impl; [|exact Hl]. intros m (d & Hd & Hi & _).
    rewrite <- Hi. unfold deviceIds. now apply in_map.
Qed.

Lemma renderBubbles_none fmt ms :
  renderBubbles fmt ms = None <-> exists m, In m ms /\ textStamped m.
Proof.
  induction ms as [|m ms IH]; simpl.
  - split; [discriminate|]. intros (m & [] & _).
  - unfold renderBubble at 1. destruct (msg_timestamp m) as [t|iso] eqn:E.
    + destruct (renderBubbles fmt ms).
      * split; [discriminate|]. intros (x & [<-|Hx] & (iso & Hi)).
        -- congruence.
        -- assert (H : @None (list Bubble) = None) by reflexivity.
           exfalso. destruct IH as [_ IH].
           assert (C : Some l = None); [|discriminate].
           apply IH. exists x. split; [assumption|now exists iso].
      * split; [|reflexivity]. intros _.
        destruct IH as [IH _]. destruct (IH eq_refl) as (x & Hx & Ht).
        exists x. split; [now right|assumption].
    + split; [|reflexivity]. intros _. exists m. split; [now left|].
      now exists iso.
Qed.

Lemma renderBubbles_some fmt ms :
  Forall dateStamped ms ->
  exists bubbles,
    renderBubbles fmt ms = Some bubbles
    /\ map bubble_content bubbles = map msg_content ms
    /\ map bubble_key bubbles = map msg_id ms
    /\ map bubble_mine bubbles = map msg_sent ms.
Proof.
  induction 1 as [|m ms (t & Ht) Hall (bs & E & Hc & Hk & Hm)]; simpl.
  - exists []. repeat split.
  - unfold renderBubble. rewrite Ht, E. eexists. split; [reflexivity|].
    simpl. rewrite Hc, Hk, Hm. repeat split.
Qed.

(** X10.  Rendering the chat panel throws exactly when the thread of the
    selected device holds a message whose timestamp is a string and not
    a [Date]. *)
Theorem renderChat_fails_on_text_timestamp :
  forall (toLocaleTimeString : Z -> jsstring) (w : World),
    renderChat toLocaleTimeString w = None <->
    exists sel m,
      selectedDevice w = Some sel
      /\ In m (getMessagesForDevice (dev_id sel) w)
      /\ exists iso, msg_timestamp m = DateText iso.
Proof.
  intros fmt w. unfold renderChat.
  destruct (selectedDevice w) as [sel|].
  - destruct (getMessagesForDevice (dev_id sel) w) as [|m rest] eqn:E.
    + split; [discriminate|]. intros (s & x & Hs & Hx & _).
      injection Hs as <-. rewrite E in Hx. destruct Hx.
    + destruct (renderBubbles fmt (m :: rest)) as [bs|] eqn:R.
      * split; [discriminate|]. intros (s & x & Hs & Hx & Ht).
        injection Hs as <-. rewrite E in Hx.
        assert (C : renderBubbles fmt (m :: rest) = None).
        { apply renderBubbles_none. now exists x. }
        congruence.
      * split; [|reflexivity]. intros _.
        apply renderBubbles_none in R as (x & Hx & Ht).
        exists sel, x. rewrite E. now split.
  - split; [discriminate|]. intros (s & x & Hs & _). discriminate.
Qed.

Lemma messageListOfJson_text items ms :
  messageListOfJson items = Some ms -> Forall textStamped ms.
Proof.
  revert ms. induction items as [|v items IH]; simpl; intros ms.
  - intros H. injection H as <-. constructor.
  - destruct (messageOfJson v) as [m|] eqn:E; [|discriminate].
    destruct (messageListOfJson items) as [ms'|]; [|discriminate].
    intros H. injection H as <-. constructor; [|now apply IH].
    unfold messageOfJson in E. destruct v; try discriminate.
    destruct (getProp (js "id") members) as [[]|]; try discriminate.
    destruct (getProp (js "deviceId") members) as [[]|]; try discriminate.
    destruct (getProp (js "deviceName") members) as [[]|]; try discriminate.
    destruct (getProp (js "content") members) as [[]|]; try discriminate.
    destruct (getProp (js "timestamp") members) as [[]|]; try discriminate.
    destruct (getProp (js "sent") members) as [[]|]; try discriminate.
    injection E as <-. now eexists.
Qed.

(** The log a mount ends with was read from the store. *)
Lemma mount_text supported stored w :
  mount supported stored = Some w -> Forall textStamped (messages w).
Proof.
  unfold mount, loadMessages. cbn [storage setBluetoothSupported firstRender].
  destruct stored as [saved|].
  - destruct (truthy saved).
    + destruct (JSON.parse saved) as [v|]; [|discriminate].
      destruct (messagesOfJson v) as [ms|] eqn:E; [|discriminate].
      intros H. injection H as <-. cbn.
      destruct v; try discriminate. now apply (messageListOfJson_text items).
    + intros H. injection H as <-. constructor.
  - intros H. injection H as <-. constructor.
Qed.

(** X11.  After a page load, a message that was read from the store has
    a string for timestamp: whenever the selected device is the device
    of such a message, rendering the chat panel throws. *)
Theorem reloaded_thread_breaks_the_chat :
  forall (toLocaleTimeString : Z -> jsstring) (supported : bool)
         (stored : option jsstring) (es : list Event) (w0 w : World)
         (sel : BluetoothDevice) (m : Message),
    mount supported stored = Some w0 ->
    run es w0 = Some w ->
    selectedDevice w = Some sel ->
    In m (messages w0) ->
    msg_deviceId m = dev_id sel ->
    renderChat toLocaleTimeString w = None.
Proof.
  intros fmt supported stored es w0 w sel m Hm Hrun Hsel Hin Hid.
  destruct (run_appends es w0 w Hrun) as (appended & Happ & _).
  assert (Ht : textStamped m).
  { pose proof (mount_text supported stored w0 Hm) as Hall.
    rewrite Forall_forall in Hall. now apply Hall. }
  assert (Hth : In m (getMessagesForDevice (dev_id sel) w)).
  { apply getMessagesForDevice_In. split; [|assumption].
    rewrite Happ. apply in_or_app. now left. }
  unfold renderChat. rewrite Hsel.
  destruct (getMessagesForDevice (dev_id sel) w) as [|x rest] eqn:E;
    [destruct Hth|].
  assert (R : renderBubbles fmt (x :: rest) = None).
  { apply renderBubbles_none. now exists m. }
  now rewrite R.
Qed.

Lemma session_messages_dated supported es w0 w :
  mount supported None = Some w0 -> run es w0 = Some w ->
  Forall dateStamped (messages w).
Proof.
  intros Hm Hrun.
  assert (Hr : reachable w0) by exact (reachable_mount supported None w0 Hm).
  destruct (run_appended_all sessionMessage step_appends_sessionMessage
              es w0 w Hr Hrun) as (appended & Happ & Hall).
  injection Hm as <-. cbn [messages saveMessages setItem setDevices
                             setBluetoothSupported firstRender] in Happ.
  rewrite Happ. cbn [app].
  eapply Forall_impl; [|exact Hall]. now intros m [Hd _].
Qed.

(** X12.  When the page was mounted with nothing stored, the chat panel
    always renders; for a selected device with a thread that is not
    empty it shows one bubble per message of the thread, in order, with
    the message's content and id, on the side its direction gives. *)
Theorem session_chat_always_renders :
  forall (toLocaleTimeString : Z -> jsstring) (supported : bool)
         (es : list Event) (w0 w : World),
    mount supported None = Some w0 ->
    run es w0 = Some w ->
    exists panel,
      renderChat toLocaleTimeString w = Some panel
      /\ forall sel,
           selectedDevice w = Some sel ->
           getMessagesForDevice (dev_id sel) w <> [] ->
           exists bubbles,
             panel = Thread bubbles
             /\ map bubble_content bubbles =
                  map msg_content (getMessagesForDevice (dev_id sel) w)
             /\ map bubble_key bubbles =
                  map msg_id (getMessagesForDevice (dev_id sel) w)
             /\ map bubble_mine bubbles =
                  map msg_sent (getMessagesForDevice (dev_id sel) w).
Proof.
  intros fmt supported es w0 w Hm Hrun.
  pose proof (session_messages_dated supported es w0 w Hm Hrun) as Hd.
  unfold renderChat. destruct (selectedDevice w) as [sel|].
  - assert (Hth : Forall dateStamped (getMessagesForDevice (dev_id sel) w)).
    { rewrite Forall_forall in *. intros m Hin.
      apply getMessagesForDevice_In in Hin as [Hin _]. now apply Hd. }
    destruct (renderBubbles_some fmt _ Hth) as (bs & R & Hc & Hk & Hmine).
    destruct (getMessagesForDevice (dev_id sel) w) as [|x rest] eqn:E.
    + eexists. split; [reflexivity|]. intros s Hs Hne.
      injection Hs as <-. now rewrite E in Hne.
    + rewrite R. eexists. split; [reflexivity|]. intros s Hs _.
      injection Hs as <-. rewrite E. now exists bs.
  - eexists. split; [reflexivity|]. discriminate.
Qed.

Lemma persisted_text m : textStamped m -> persisted m = m.
Proof. intros (iso & H). destruct m. cbn in *. now subst. Qed.

(** X13.  Mounting the page again over what a mount left in the store
    gives the same log and leaves the stored text as it is; the device
    list is the simulated one again, nothing is connected and nothing is
    selected. *)
Theorem remount_is_stable :
  forall (supported supported' : bool) (stored : option jsstring)
         (w1 : World),
    mount supported stored = Some w1 ->
    exists w2,
      mount supported' (storage w1) = Some w2
      /\ messages w2 = messages w1
      /\ storage w2 = storage w1
      /\ devices w2 = simulatedDevices
      /\ connectedDevices w2 = []
      /\ selectedDevice w2 = None.
Proof.
  intros supported supported' stored w1 Hm.
  pose proof (mount_text supported stored w1 Hm) as Ht.
  apply mount_world in Hm as [ms ->]. cbn [messages storage] in *.
  assert (Hp : map persisted ms = ms).
  { rewrite <- (map_id ms) at 2. apply map_ext_in. intros m Hin.
    rewrite Forall_forall in Ht. now apply persisted_text, Ht. }
  unfold mount.
  rewrite (loadMessages_stored _ ms) by reflexivity.
  eexists. split; [reflexivity|].
  cbn [messages storage devices connectedDevices selectedDevice saveMessages
         setItem setDevices setMessages setBluetoothSupported firstRender].
  rewrite Hp. repeat split.
Qed.

Lemma splitLines_cons s : exists line rest, splitLines s = line :: rest.
Proof.
  induction s as [|c t (line & rest & E)]; simpl.
  - now eexists; eexists.
  - destruct (c =? 10)%N; [now eexists; eexists|].
    rewrite E. now eexists; eexists.
Qed.

Lemma joinLines_cons line l rest :
  joinLines (line :: l :: rest) = line ++ 10%N :: joinLines (l :: rest).
Proof. reflexivity. Qed.

Lemma joinLines_splitLines s : joinLines (splitLines s) = s.
Proof.
  induction s as [|c t IH]; simpl; [reflexivity|].
  destruct (c =? 10)%N eqn:E.
  - apply N.eqb_eq in E. subst c.
    destruct (splitLines_cons t) as (line & rest & Es). rewrite Es in *.
    rewrite joinLines_cons. cbn [app]. now rewrite IH.
  - destruct (splitLines_cons t) as (line & rest & Es). rewrite Es in *.
    destruct rest as [|l rest].
    + cbn in *. now rewrite IH.
    + rewrite joinLines_cons in *. cbn [app]. now rewrite IH.
Qed.

Lemma splitLines_no_newline s line :
  In line (splitLines s) -> ~ In 10%N line.
Proof.
  revert line. induction s as [|c t IH]; simpl; intros line.
  - intros [<-|[]] [].
  - destruct (c =? 10)%N eqn:E.
    + intros [<-|H]; [intros []|now apply IH].
    + destruct (splitLines_cons t) as (l & rest & Es). rewrite Es in *.
      intros [<-|H].
      * intros [->|H]; [discriminate|]. apply (IH l); [now left|assumption].
      * apply IH. now right.
Qed.

Lemma splitLines_chars s line c :
  In line (splitLines s) -> In c line -> In c s.
Proof.
  revert line. induction s as [|x t IH]; simpl; intros line.
  - intros [<-|[]] [].
  - destruct (x =? 10)%N.
    + intros [<-|H]; [intros []|]. intros Hc. right. now apply (IH line).
    + destruct (splitLines_cons t) as (l & rest & Es). rewrite Es in *.
      intros [<-|H].
      * intros [->|Hc]; [now left|]. right. apply (IH l); [now left|assumption].
      * intros Hc. right. apply (IH line); [now right|assumption].
Qed.

Lemma firstn_three {A} (l : list A) :
  length (firstn 3 l) <= 3
  /\ exists rest, l = firstn 3 l ++ rest
                  /\ (length (firstn 3 l) < 3 -> rest = []).
Proof.
  split; [apply firstn_le_length|].
  exists (skipn 3 l). split; [now rewrite firstn_skipn|].
  destruct l as [|a [|b [|c l]]]; simpl; try reflexivity. lia.
Qed.

(** X14.  When the route answers, the suggestions are the first lines of
    the generated text that are not blank, in order and unchanged: at
    most three, each a whole line of the text (the lines joined by line
    feeds give the text back), none blank, none with a line feed in it,
    and fewer than three only when the text has no more such lines. *)
Theorem POST_suggestions :
  forall (generateText : jsstring -> option jsstring)
         (lastMessage : jsstring) (suggestions : list jsstring),
    POST generateText lastMessage = Some suggestions ->
    exists text,
      generateText (prompt lastMessage) = Some text
      /\ joinLines (splitLines text) = text
      /\ length suggestions <= 3
      /\ (forall s, In s suggestions ->
            In s (splitLines text) /\ ~ whitespaceOnly s /\ ~ In 10%N s)
      /\ exists rest,
           filter (fun s => truthy (trim s)) (splitLines text)
             = suggestions ++ rest
           /\ (length suggestions < 3 -> rest = []).
Proof.
  intros gen lastMessage suggestions. unfold POST.
  destruct (gen (prompt lastMessage)) as [text|]; [|discriminate].
  intros H. injection H as <-. exists text. split; [reflexivity|].
  split; [apply joinLines_splitLines|]. unfold suggestionsOf.
  destruct (firstn_three (filter (fun s => truthy (trim s)) (splitLines text)))
    as (Hlen & rest & Hrest & Hshort).
  split; [exact Hlen|]. split.
  - intros s Hs.
    assert (Hf : In s (filter (fun s => truthy (trim s)) (splitLines text))).
    { rewrite Hrest. apply in_or_app. now left. }
    apply filter_In in Hf as [Hin Ht]. split; [assumption|]. split.
    + unfold whitespaceOnly. rewrite truthy_trim in Ht.
      destruct (forallb isWhiteSpace s); [discriminate|discriminate].
    + now apply (splitLines_no_newline text).
  - now exists rest.
Qed.

(** X15.  Once the request body has been read, the route fails exactly
    when the generation call fails, and a generated text of white space
    only gives the empty list of suggestions. *)
Theorem POST_edges :
  forall (generateText : jsstring -> option jsstring)
         (lastMessage : jsstring),
    (POST generateText lastMessage = None <->
     generateText (prompt lastMessage) = None)
    /\ (forall text,
          generateText (prompt lastMessage) = Some text ->
          whitespaceOnly text ->
          POST generateText lastMessage = Some []).
Proof.
  intros gen lastMessage. unfold POST. split.
  - destruct (gen (prompt lastMessage)); split; congruence.
  - intros text -> Hws. f_equal. unfold suggestionsOf.
    replace (filter (fun s => truthy (trim s)) (splitLines text)) with
      (@nil jsstring); [reflexivity|].
    symmetry. 
    assert (H : forall line, In line (splitLines text) ->
                  truthy (trim line) = false).
    { intros line Hin. rewrite truthy_trim. apply negb_false_iff.
      apply forallb_forall. intros c Hc.
      unfold whitespaceOnly in Hws. rewrite forallb_forall in Hws.
      apply Hws. now apply (splitLines_chars text line). }
    induction (splitLines text) as [|l ls IH]; [reflexivity|].
    simpl. rewrite (H l) by now left. apply IH. intros x Hx. apply H.
    now right.
Qed.

(** ** The further properties at sample inputs *)

Lemma blePage_reachable : reachable blePage.
Proof. exact (reachable_mount true None blePage eq_refl). Qed.

Lemma reloadedPage_mounted : mount false (Some savedText) = Some reloadedPage.
Proof. vm_compute. reflexivity. Qed.

Lemma connected_list_mirrors_registry_witness :
  exists w,
    run chatRun freshPage = Some w
    /\ reachable w
    /\ NoDup (deviceIds (connectedDevices w))
    /\ forall sel, selectedDevice w = Some sel ->
         In sel (connectedDevices w) /\ In sel (devices w).
Proof.
  destruct (run chatRun freshPage) as [w|] eqn:E;
    [|vm_compute in E; discriminate].
  pose proof (run_reachable chatRun freshPage w freshPage_reachable E) as Hr.
  exists w. split; [reflexivity|]. split; [exact Hr|].
  exact (proj2 (connected_list_mirrors_registry w Hr)).
Defined.

Lemma connect_then_disconnect_restores_witness :
  reachable freshPage
  /\ nth_error (devices freshPage) 0 = Some firstDevice
  /\ dev_connected firstDevice = false
  /\ unitDraw half = true
  /\ (1000 <= 1500)%Q
  /\ exists w2,
       run [ClickDevice 0; ClickDevice 0; TimePasses 1500;
            TimerFires (length (timers freshPage)) (js "0.17")
              1700000001000 half] freshPage = Some w2
       /\ connectedDevices w2 = connectedDevices freshPage
       /\ devices w2 = devices freshPage
       /\ timers w2 = timers freshPage
       /\ messages w2 =
            messages freshPage
              ++ [mkMessage (js "0.17") (dev_id firstDevice)
                    (dev_name firstDevice) welcomeText
                    (DateObj 1700000001000) false].
Proof.
  assert (Hdt : (1000 <= 1500)%Q) by discriminate.
  split; [exact freshPage_reachable|]. split; [reflexivity|].
  split; [reflexivity|]. split; [reflexivity|]. split; [exact Hdt|].
  exact (proj2 (connect_then_disconnect_restores freshPage 0 firstDevice
                  (js "0.17") 1700000001000 half 1500
                  freshPage_reachable eq_refl eq_refl) eq_refl Hdt).
Defined.

Lemma registry_only_grows_witness :
  exists w',
    run sampleRun freshPage = Some w'
    /\ exists more,
         listing (devices w') = listing (devices freshPage) ++ listing more
         /\ deviceIds (devices w') =
              deviceIds (devices freshPage) ++ deviceIds more.
Proof.
  destruct (run sampleRun freshPage) as [w'|] eqn:E;
    [|vm_compute in E; discriminate].
  exists w'. split; [reflexivity|].
  exact (registry_only_grows sampleRun freshPage w' E).
Defined.

Lemma scanningPage_reachable :
  step ClickScan blePage = Some scanningPage
  /\ step (ScanSettles (Chosen (js "b7") (Some (js "Buds"))) (js "0.9"))
        scanningPage = Some settledPage
  /\ reachable scanningPage /\ reachable settledPage.
Proof.
  assert (H1 : step ClickScan blePage = Some scanningPage) by reflexivity.
  assert (H2 : step (ScanSettles (Chosen (js "b7") (Some (js "Buds")))
                       (js "0.9")) scanningPage = Some settledPage)
    by reflexivity.
  pose proof (reachable_step _ _ _ blePage_reachable H1) as R1.
  split; [exact H1|]. split; [exact H2|]. split; [exact R1|].
  exact (reachable_step _ _ _ R1 H2).
Qed.

Lemma scan_indicator_tracks_scan_witness :
  (reachable scanningPage /\ isScanning scanningPage = true
   /\ scansInFlight scanningPage = 1 /\ requests scanningPage = [4])
  /\ (reachable settledPage /\ isScanning settledPage = true
      /\ scansInFlight settledPage = 1 /\ requests settledPage = [])
  /\ exists w,
       run [TimePasses 2000; TimerFires 0 (js "0.17") 1700000002000 half]
         settledPage = Some w
       /\ reachable w /\ isScanning w = false
       /\ scansInFlight w = 0
       /\ requests w = []
       /\ forall t, In t (timers w) -> isScanDone t = false.
Proof.
  destruct scanningPage_reachable as (_ & _ & R1 & R2).
  split; [|split].
  - split; [exact R1|]. split; [reflexivity|].
    split; [|reflexivity].
    exact (proj1 (scan_indicator_tracks_scan scanningPage R1)).
  - split; [exact R2|]. split; [reflexivity|].
    split; [|reflexivity].
    exact (proj1 (scan_indicator_tracks_scan settledPage R2)).
  - destruct (run [TimePasses 2000;
                   TimerFires 0 (js "0.17") 1700000002000 half] settledPage)
      as [w|] eqn:E; [|vm_compute in E; discriminate].
    pose proof (run_reachable _ _ _ R2 E) as R3.
    assert (Hs : isScanning w = false).
    { apply (f_equal (option_map isScanning)) in E. vm_compute in E.
      injection E as E. symmetry. exact E. }
    destruct (scan_indicator_tracks_scan w R3) as [H1 H2].
    rewrite Hs in H1.
    exists w. split; [reflexivity|]. split; [exact R3|]. split; [exact Hs|].
    split; [exact H1|]. exact (H2 Hs).
Defined.

Lemma scan_runs_to_its_end_witness :
  reachable blePage
  /\ isScanning blePage = false
  /\ unitDraw half = true
  /\ (2000 <= 2500)%Q
  /\ exists w',
       run (scanEvents true (Chosen (js "b7") (Some (js "Buds"))) (js "0.9")
              2500 0 (js "0.17") 1700000001000 half) blePage = Some w'
       /\ isScanning w' = false
       /\ devices w' =
            simulatedDevices
              ++ [mkDevice (js "b7") (js "Buds") unknown false (-50)]
       /\ toasts w' =
            [mkToast (js "Scan Complete") (js "Found 4 nearby devices")
               default].
Proof.
  assert (Hdt : (2000 <= 2500)%Q) by discriminate.
  split; [exact blePage_reachable|]. split; [reflexivity|].
  split; [reflexivity|]. split; [exact Hdt|].
  destruct (scan_runs_to_its_end blePage (Chosen (js "b7") (Some (js "Buds")))
              (js "0.9") (js "0.17") 1700000001000 half 2500
              blePage_reachable eq_refl eq_refl Hdt)
    as (w' & Hrun & Hs & _ & _ & Hd & Ht & _).
  exists w'. split; [exact Hrun|]. split; [exact Hs|].
  split; [exact Hd|exact Ht].
Defined.

Lemma appended_messages_are_well_formed_witness :
  reachable freshPage
  /\ exists w',
       run replyRun freshPage = Some w'
       /\ map msg_content (messages w') =
            [js "a"; welcomeText; js "Bluetooth messaging works great!"]
       /\ exists appended,
            messages w' = messages freshPage ++ appended
            /\ Forall sessionMessage appended.
Proof.
  split; [exact freshPage_reachable|].
  destruct (run replyRun freshPage) as [w'|] eqn:E;
    [|vm_compute in E; discriminate].
  exists w'. split; [reflexivity|]. split.
  - apply (f_equal (option_map (fun w => map msg_content (messages w)))) in E.
    vm_compute in E. injection E as E. symmetry. exact E.
  - exact (appended_messages_are_well_formed replyRun freshPage w'
             freshPage_reachable E).
Defined.

Lemma session_messages_name_listed_devices_witness :
  mount false None = Some freshPage
  /\ exists w,
       run sampleRun freshPage = Some w
       /\ Forall (fun m => exists d, In d (devices w)
                                     /\ dev_id d = msg_deviceId m
                                     /\ dev_name d = msg_deviceName m)
            (messages w).
Proof.
  split; [reflexivity|].
  destruct (run sampleRun freshPage) as [w|] eqn:E;
    [|vm_compute in E; discriminate].
  exists w. split; [reflexivity|].
  exact (session_messages_name_listed_devices false sampleRun freshPage w
           eq_refl E).
Defined.

Lemma session_threads_partition_the_log_witness :
  mount false None = Some freshPage
  /\ exists w,
       run sampleRun freshPage = Some w
       /\ list_sum
            (map (fun d => length (getMessagesForDevice (dev_id d) w))
               (devices w)) = length (messages w).
Proof.
  split; [reflexivity|].
  destruct (run sampleRun freshPage) as [w|] eqn:E;
    [|vm_compute in E; discriminate].
  exists w. split; [reflexivity|].
  exact (session_threads_partition_the_log false sampleRun freshPage w
           eq_refl E).
Defined.

Lemma reloaded_thread_breaks_the_chat_witness :
  mount false (Some savedText) = Some reloadedPage
  /\ exists w,
       run chatRun reloadedPage = Some w
       /\ selectedDevice w = Some (withConnected true firstDevice)
       /\ In (persisted (mkMessage (js "0.42") (js "1") (js "Alice's iPhone")
                           (js "hi") (DateObj 1700000000000) true))
            (messages reloadedPage)
       /\ renderChat Date.toISOString w = None.
Proof.
  split; [exact reloadedPage_mounted|].
  destruct (run chatRun reloadedPage) as [w|] eqn:E;
    [|vm_compute in E; discriminate].
  assert (Hsel : selectedDevice w = Some (withConnected true firstDevice)).
  { pose proof (f_equal (option_map selectedDevice) E) as Es.
    vm_compute in Es. injection Es as Es. symmetry. refine (eq_trans _ Es).
    vm_compute. reflexivity. }
  assert (Hin : In (persisted (mkMessage (js "0.42") (js "1")
                                 (js "Alice's iPhone") (js "hi")
                                 (DateObj 1700000000000) true))
                  (messages reloadedPage)).
  { now left. }
  exists w. split; [reflexivity|]. split; [exact Hsel|]. split; [exact Hin|].
  exact (reloaded_thread_breaks_the_chat Date.toISOString false
           (Some savedText) chatRun reloadedPage w
           (withConnected true firstDevice) _
           reloadedPage_mounted E Hsel Hin eq_refl).
Defined.

Lemma session_chat_always_renders_witness :
  mount false None = Some freshPage
  /\ exists w,
       run sampleRun freshPage = Some w
       /\ exists panel, renderChat Date.toISOString w = Some panel.
Proof.
  split; [reflexivity|].
  destruct (run sampleRun freshPage) as [w|] eqn:E;
    [|vm_compute in E; discriminate].
  exists w. split; [reflexivity|].
  destruct (session_chat_always_renders Date.toISOString false sampleRun
              freshPage w eq_refl E) as (panel & Hp & _).
  exists panel. exact Hp.
Defined.

Lemma remount_is_stable_witness :
  mount false (Some savedText) = Some reloadedPage
  /\ exists w2,
       mount true (storage reloadedPage) = Some w2
       /\ messages w2 = messages reloadedPage
       /\ storage w2 = storage reloadedPage.
Proof.
  split; [exact reloadedPage_mounted|].
  destruct (remount_is_stable false true (Some savedText) reloadedPage
              reloadedPage_mounted) as (w2 & Hm & Hmsg & Hst & _).
  exists w2. split; [exact Hm|]. split; [exact Hmsg|exact Hst].
Defined.

Lemma POST_suggestions_witness :
  POST cannedService (js "See you at 5?") =
    Some [js "Sure!"; js "On my way"]
  /\ length [js "Sure!"; js "On my way"] <= 3.
Proof.
  assert (H : POST cannedService (js "See you at 5?") =
                Some [js "Sure!"; js "On my way"]).
  { vm_compute. reflexivity. }
  split; [exact H|].
  destruct (POST_suggestions cannedService (js "See you at 5?") _ H)
    as (text & _ & _ & Hlen & _).
  exact Hlen.
Defined.

Lemma POST_edges_witness :
  blankService (prompt (js "See you at 5?")) = Some blanks
  /\ whitespaceOnly blanks
  /\ POST blankService (js "See you at 5?") = Some [].
Proof.
  split; [reflexivity|]. split; [reflexivity|].
  exact (proj2 (POST_edges blankService (js "See you at 5?")) blanks
           eq_refl eq_refl).
Defined.
